(** * Navine Compressor back end: a model of [server/server.js]

    The development embeds the job lifecycle engine of the server: the
    encoding planner ([autoSettings], [computeBitrates]), the progress
    parser ([makeProgressParser]), the two-pass orchestrator
    ([twoPassEncode] and the [/api/start] handler around it), the job
    registry ([setJob], the two query routes) and the periodic cleanup.

    Conventions.
    - JavaScript numbers are IEEE-754 doubles.  In the orchestration the
      finite numbers are modelled by exact rationals ([Q]), and where the
      source tests for them ([Number.isFinite], [x || 0]) the non-finite
      values are kept ([JsNumber]); nothing proved about the orchestration
      depends on the value of the bitrate it passes on.  The allocator
      [computeBitrates] itself, whose result does depend on rounding and
      overflow, is embedded on binary64 numbers in the module [Double], and
      what is proved about its values is proved there.
    - Strings are byte strings; the source's non-ASCII characters appear as
      their UTF-8 bytes.  The regular expression of the progress parser only
      mentions ASCII characters, so matching on bytes and matching on UTF-16
      code units find the same timestamps.
    - The asynchronous handler is defunctionalised: a [Task] records at which
      [await] a job is suspended, and [step] runs one callback of the event
      loop to completion.  What the environment decides reaches the program
      as events: the identifier [nanoid] returns, the output and exit code of
      a child process, the files a child writes, and the time [Date.now()]
      shows when the cleanup timer fires.
    - A request that [multer] parsed ([PostStart]) carries the form fields
      [targetMB] and [audioKbps] after their conversion to numbers; a request
      that is not multipart reaches the handler without [req.body]
      ([PostUnparsed]).  The prober's report is taken to have the prober's
      schema. *)

From Stdlib Require Import Floats.
From Stdlib Require Import QArith Qround Qminmax Lqa ZArith String Ascii List Lia.
From stdpp Require Import base option list gmap strings pretty.

Local Open Scope Z_scope.

(** A decimal literal of binary64 stands for the nearest binary64 number, as
    it does in JavaScript. *)
Set Warnings "-inexact-float".

(** ** Numbers *)

Inductive JsNumber : Type :=
| NaN
| PosInf
| NegInf
| Fin (q : Q).

Definition Qlt_bool (x y : Q) : bool := negb (Qle_bool y x).

(** [Boolean(n)]: zero and NaN are falsy. *)
Definition truthy_num (n : JsNumber) : bool :=
  match n with
  | NaN => false
  | Fin q => negb (Qeq_bool q 0)
  | PosInf | NegInf => true
  end.

(** [n || 0] *)
Definition or_zero (n : JsNumber) : JsNumber :=
  if truthy_num n then n else Fin 0.

(** [Math.max(a, b)] *)
Definition Math_max (a b : JsNumber) : JsNumber :=
  match a, b with
  | NaN, _ | _, NaN => NaN
  | PosInf, _ | _, PosInf => PosInf
  | NegInf, x | x, NegInf => x
  | Fin p, Fin q => Fin (Qmax p q)
  end.

(** [n >= k] for a finite [k] *)
Definition num_geb (n : JsNumber) (k : Q) : bool :=
  match n with
  | NaN | NegInf => false
  | PosInf => true
  | Fin q => Qle_bool k q
  end.

(** [Number.isFinite(d) && d > 0 ? d : 0] *)
Definition finite_positive_or_zero (d : JsNumber) : Q :=
  match d with
  | Fin q => if Qlt_bool 0 q then q else 0%Q
  | _ => 0%Q
  end.

(** [function clamp(n, a, b){ return Math.max(a, Math.min(b, n)); }] *)
Definition clamp (n a b : Q) : Q := Qmax a (Qmin b n).

(** ** Encoding planner *)

Inductive Preset : Type := Slow | Medium | Fast | Veryfast.

Definition preset_name (p : Preset) : string :=
  match p with
  | Slow => "slow"
  | Medium => "medium"
  | Fast => "fast"
  | Veryfast => "veryfast"
  end.

(** Encoding speed of a tier: larger is faster. *)
Definition speed (p : Preset) : nat :=
  match p with
  | Slow => 0
  | Medium => 1
  | Fast => 2
  | Veryfast => 3
  end.

Record Settings : Type := mkSettings {
  preset : Preset;
  scaleFilter : option string
}.

Definition autoSettings (width height : JsNumber) (durationSec : Q) : Settings :=
  let maxDim := Math_max (or_zero width) (or_zero height) in
  let preset :=
    if Qlt_bool (30 * 60) durationSec then Veryfast
    else if Qlt_bool (15 * 60) durationSec then Fast
    else if Qlt_bool (7 * 60) durationSec then Medium
    else Slow in
  let scaleFilter :=
    if num_geb maxDim 3840 then Some "scale=1920:-2"%string else None in
  {| preset := preset; scaleFilter := scaleFilter |}.

(** [computeBitrates] in exact arithmetic: the value the orchestration of
    this model passes on.  Its embedding on binary64, with the rounding and
    the overflow of the source, is [Double.computeBitrates] below. *)
Section Bitrates.
Local Open Scope Q_scope.

Definition totalBits (targetMB : Q) : Q := targetMB * 1024 * 1024 * 8.

Definition audioBits (audioKbps durationSec : Q) : Q :=
  audioKbps * 1000 * durationSec.

Definition videoBits (targetMB durationSec audioKbps : Q) : Q :=
  Qmax (totalBits targetMB - audioBits audioKbps durationSec)
       (totalBits targetMB * 0.70).

(** The [videoKbps] field of the object [computeBitrates] returns. *)
Definition computeBitrates (targetMB durationSec audioKbps : Q) : Q :=
  let videoBps := videoBits targetMB durationSec audioKbps / durationSec in
  clamp (inject_Z (Qfloor (videoBps / 1000))) 200 50000.

(** The allocation as the specification words it. *)
Definition spec_clamp (x lo hi : Q) : Q :=
  if Qlt_bool x lo then lo else if Qlt_bool hi x then hi else x.

Definition spec_videoKbps (targetMB durationSeconds audioKbps : Q) : Q :=
  let total := targetMB * 2 ^ 20 * 8 in
  let audio := audioKbps * 1000 * durationSeconds in
  let video := Qmax (total - audio) (0.70 * total) in
  spec_clamp (inject_Z (Qfloor (video / durationSeconds / 1000))) 200 50000.
End Bitrates.

(** ** Values read from the prober's JSON report *)

(** A JSON value after [JSON.parse], as far as [x || 0] and [Number(x)] can
    tell values apart.  An array or object carries the string its
    [toString] yields, which is what [Number] converts. *)
Inductive JsValue : Type :=
| JUndefined
| JNull
| JBool (b : bool)
| JNum (n : JsNumber)
| JStr (s : string)
| JObj (primitive : string).

(** The report has the prober's schema: an object with an optional [format]
    object and an optional [streams] array of objects. *)
Record Format : Type := mkFormat { duration : JsValue }.

Record Stream : Type := mkStream {
  codec_type : JsValue;
  width : JsValue;
  height : JsValue
}.

Record Probe : Type := mkProbe {
  format : option Format;
  streams : option (list Stream)
}.

(** Functions of the JavaScript runtime the program calls. *)
Class Runtime : Type := {
  (** [Number(s)] for a string [s] *)
  Number_of_string : string -> JsNumber;
  (** a finite number inside a template literal *)
  String_of_number : Q -> string;
  (** [JSON.parse]; [inl] carries the message of the error it throws *)
  JSON_parse : string -> string + Probe
}.

Definition truthy (v : JsValue) : bool :=
  match v with
  | JUndefined | JNull => false
  | JBool b => b
  | JNum n => truthy_num n
  | JStr s => negb (String.eqb s "")
  | JObj _ => true
  end.

(** [v || 0] *)
Definition or_0 (v : JsValue) : JsValue :=
  if truthy v then v else JNum (Fin 0).

Section Coercions.
Context {rt : Runtime}.

(** [Number(v)] *)
Definition Number (v : JsValue) : JsNumber :=
  match v with
  | JUndefined => NaN
  | JNull => Fin 0
  | JBool b => Fin (if b then 1 else 0)
  | JNum n => n
  | JStr s => Number_of_string s
  | JObj p => Number_of_string p
  end.

(** [probe?.format?.duration] *)
Definition format_duration (probe : Probe) : JsValue :=
  match format probe with
  | Some f => duration f
  | None => JUndefined
  end.

Definition parseDurationSeconds (probe : Probe) : Q :=
  let d := Number (or_0 (format_duration probe)) in
  finite_positive_or_zero d.

Definition is_video (s : Stream) : bool :=
  match codec_type s with
  | JStr c => String.eqb c "video"
  | _ => false
  end.

Definition getVideoStream (probe : Probe) : option Stream :=
  List.find is_video (default [] (streams probe)).

(** [Number(v?.width || 0)] and [Number(v?.height || 0)] *)
Definition stream_width (v : option Stream) : JsNumber :=
  Number (or_0 (from_option width JUndefined v)).

Definition stream_height (v : option Stream) : JsNumber :=
  Number (or_0 (from_option height JUndefined v)).
End Coercions.

(** ** The progress parser's regular expression
    [/time=(\d+):(\d+):(\d+)\.(\d+)/] *)

Definition is_digit (c : ascii) : bool :=
  (48 <=? nat_of_ascii c)%nat && (nat_of_ascii c <=? 57)%nat.

(** The longest run of digits at the head of [s], and what follows it. *)
Fixpoint take_digits (s : string) : string * string :=
  match s with
  | EmptyString => (EmptyString, EmptyString)
  | String c s' =>
      if is_digit c
      then let '(d, r) := take_digits s' in (String c d, r)
      else (EmptyString, s)
  end.

(** [(\d+)].  Each group is followed by a character that is not a digit (or
    by the end of the pattern), so the greedy match is the only one the
    regular expression engine can succeed with. *)
Definition digits1 (s : string) : option (string * string) :=
  match take_digits s with
  | (EmptyString, _) => None
  | (d, r) => Some (d, r)
  end.

(** A literal piece of the pattern at the head of [s]. *)
Fixpoint literal (p s : string) : option string :=
  match p, s with
  | EmptyString, _ => Some s
  | String a p', String b s' => if Ascii.eqb a b then literal p' s' else None
  | String _ _, EmptyString => None
  end.

(** The capture groups [m[1]] to [m[4]]. *)
Record TimeMatch : Type := mkTimeMatch {
  m1 : string;
  m2 : string;
  m3 : string;
  m4 : string
}.

(** A match that starts at the head of [s]. *)
Definition timeRe_at (s : string) : option TimeMatch :=
  r ← literal "time=" s;
  '(g1, r) ← digits1 r;
  r ← literal ":" r;
  '(g2, r) ← digits1 r;
  r ← literal ":" r;
  '(g3, r) ← digits1 r;
  r ← literal "." r;
  '(g4, _) ← digits1 r;
  Some (mkTimeMatch g1 g2 g3 g4).

(** [chunk.match(timeRe)]: the leftmost match. *)
Fixpoint timeRe_match (chunk : string) : option TimeMatch :=
  match timeRe_at chunk with
  | Some m => Some m
  | None =>
      match chunk with
      | EmptyString => None
      | String _ rest => timeRe_match rest
      end
  end.

Definition digit_value (c : ascii) : Z := Z.of_nat (nat_of_ascii c) - 48.

Fixpoint digits_value (acc : Z) (s : string) : Z :=
  match s with
  | EmptyString => acc
  | String c s' => digits_value (10 * acc + digit_value c) s'
  end.

(** [Number(m[i])] for a captured run of digits. *)
Definition Number_of_digits (s : string) : Q := inject_Z (digits_value 0 s).

(** [hh*3600 + mm*60 + ss + (cs/100)] *)
Definition elapsed (m : TimeMatch) : Q :=
  let hh := Number_of_digits (m1 m) in
  let mm := Number_of_digits (m2 m) in
  let ss := Number_of_digits (m3 m) in
  let cs := Number_of_digits (m4 m) in
  (hh * 3600 + mm * 60 + ss + cs / 100)%Q.

(** [x.toFixed(1)] of the exact value: the nearest tenth, the larger one on
    a tie.  The source rounds the binary64 value of [pct], which can lie on
    either side of a tie of the exact value; nothing below states the text
    of a percent that is not a whole number. *)
Definition toFixed1_abs (x : Q) : string :=
  let n := Qfloor (x * 10 + (1 # 2))%Q in
  pretty (n / 10) +:+ "." +:+ pretty (n mod 10).

Definition toFixed1 (x : Q) : string :=
  if Qlt_bool x 0 then "-" +:+ toFixed1_abs (- x)%Q else toFixed1_abs x.

(** Shapes of text used to state what the pattern matches. *)
Fixpoint all_digits (s : string) : bool :=
  match s with
  | EmptyString => true
  | String c s' => is_digit c && all_digits s'
  end.

(** A non-empty run of digits: what [\d+] captures. *)
Definition digit_run (s : string) : Prop := s <> EmptyString /\ all_digits s = true.

Definition starts_with_digit (s : string) : bool :=
  match s with
  | String c _ => is_digit c
  | EmptyString => false
  end.

Definition starts_with_dot (s : string) : bool :=
  match s with
  | String c _ => Ascii.eqb c "."
  | EmptyString => false
  end.

(** ** The job registry *)

Inductive Status : Type := Queued | Running | Done | Error.

Definition status_name (s : Status) : string :=
  match s with
  | Queued => "queued"
  | Running => "running"
  | Done => "done"
  | Error => "error"
  end.

(** A job object; a field that the object does not have is [None].  The
    patches given to [setJob] are objects of the same shape. *)
Record Job : Type := mkJob {
  status : option Status;
  percent : option Q;
  message : option string;
  inputPath : option string;
  outputPath : option string;
  outputBytes : option Z;
  error : option string;
  createdAt : option Z
}.

(** [{}] *)
Definition emptyJob : Job := mkJob None None None None None None None None.

Definition over {A : Type} (new old : option A) : option A :=
  match new with
  | Some x => Some x
  | None => old
  end.

(** [{ ...cur, ...patch }] *)
Definition spread (cur patch : Job) : Job :=
  {| status := over (status patch) (status cur);
     percent := over (percent patch) (percent cur);
     message := over (message patch) (message cur);
     inputPath := over (inputPath patch) (inputPath cur);
     outputPath := over (outputPath patch) (outputPath cur);
     outputBytes := over (outputBytes patch) (outputBytes cur);
     error := over (error patch) (error cur);
     createdAt := over (createdAt patch) (createdAt cur) |}.

Definition is_terminal (s : option Status) : bool :=
  match s with
  | Some Done | Some Error => true
  | _ => false
  end.

(** ** The orchestrator's suspended state *)

(** The parameters of [twoPassEncode]. *)
Record EncodeArgs : Type := mkEncodeArgs {
  arg_jobId : string;
  arg_inputPath : string;
  arg_outputPath : string;
  arg_targetMB : Q;
  arg_codec : string;
  arg_audioKbps : Q;
  arg_autoQuality : string
}.

(** The locals of [twoPassEncode] that live across its [await]s. *)
Record Plan : Type := mkPlan {
  plan_durationSec : Q;
  plan_videoKbps : Q;
  plan_useScale : list string;
  plan_chosenPreset : string;
  plan_vCodec : string;
  plan_passlog : string
}.

(** The closure [makeProgressParser] returns: its two captured arguments and
    its mutable [lastPct]. *)
Record Parser : Type := mkParser {
  parser_durationSec : Q;
  parser_jobId : string;
  lastPct : Q
}.

(** Where a job's handler is suspended, with the text its child process has
    written so far. *)
Inductive Task : Type :=
| AwaitProbeRun (a : EncodeArgs) (stderr : string)
| AwaitProbeJson (a : EncodeArgs) (out err : string)
| AwaitPass1 (a : EncodeArgs) (plan : Plan) (stderr : string) (onStdErr : Parser)
| AwaitPass2 (a : EncodeArgs) (plan : Plan) (stderr : string) (onStdErr : Parser).

(** ** Responses of the HTTP routes *)

Inductive JsonBody : Type :=
| BodyJobId (jobId : string)
| BodyStatus (status : string)
| BodyProgress (status : option string) (percent : Q) (message : string)
               (error : option string) (outputMB : option Q).

Inductive Response : Type :=
| Send (code : Z) (text : string)
| Json (code : Z) (body : JsonBody)
| Download (path filename : string).

(** ** The world: registry, suspended handlers, files, and a journal *)

(** What the program did, in order.  The journal is not program state: it
    records every write to the registry and every call that leaves the
    process, so that properties of a whole run can be stated. *)
Inductive Effect : Type :=
| FxSetJob (jobId : string) (record : Job)
| FxStamp (jobId : string) (now : Z)
| FxDelete (jobId : string)
| FxSpawn (cmd : string) (args : list string)
| FxUnlink (path : string)
| FxRespond (r : Response)
| FxConsoleError (msg : string)
| FxThrow (error : string).

Record World : Type := mkWorld {
  jobs : gmap string Job;
  tasks : gmap string Task;
  files : gmap string Z;
  journal : list Effect
}.

Definition emptyWorld : World := mkWorld ∅ ∅ ∅ [].

Definition emit (fx : Effect) (w : World) : World :=
  mkWorld (jobs w) (tasks w) (files w) (journal w ++ [fx]).

Definition setJob (jobId : string) (patch : Job) (w : World) : World :=
  let cur := default emptyJob (jobs w !! jobId) in
  let record := spread cur patch in
  emit (FxSetJob jobId record)
       (mkWorld (<[jobId := record]> (jobs w)) (tasks w) (files w) (journal w)).

(** [job.createdAt = now] on the object stored under [jobId] *)
Definition stamp (jobId : string) (now : Z) (w : World) : World :=
  let set j := mkJob (status j) (percent j) (message j) (inputPath j)
                     (outputPath j) (outputBytes j) (error j) (Some now) in
  emit (FxStamp jobId now)
       (mkWorld (alter set jobId (jobs w)) (tasks w) (files w) (journal w)).

(** [jobs.delete(jobId)] *)
Definition deleteJob (jobId : string) (w : World) : World :=
  emit (FxDelete jobId)
       (mkWorld (delete jobId (jobs w)) (tasks w) (files w) (journal w)).

(** [spawn(cmd, args, ...)] *)
Definition spawn (cmd : string) (args : list string) (w : World) : World :=
  emit (FxSpawn cmd args) w.

(** [try{ fs.unlinkSync(path); }catch{}] *)
Definition unlinkSync (path : string) (w : World) : World :=
  emit (FxUnlink path)
       (mkWorld (jobs w) (tasks w) (delete path (files w)) (journal w)).

Definition respond (r : Response) (w : World) : World := emit (FxRespond r) w.

(** The handler of [jobId] waits for its child process with continuation
    [t]. *)
Definition suspend (jobId : string) (t : Task) (w : World) : World :=
  mkWorld (jobs w) (<[jobId := t]> (tasks w)) (files w) (journal w).

(** The handler of [jobId] has returned. *)
Definition finish (jobId : string) (w : World) : World :=
  mkWorld (jobs w) (delete jobId (tasks w)) (files w) (journal w).

(** ** The progress parser *)

Definition makeProgressParser (durationSec : Q) (jobId : string) : Parser :=
  mkParser durationSec jobId 0.

(** [{ percent: pct, message: `Encoding… ${pct.toFixed(1)}%` }] *)
Definition progress_patch (pct : Q) : Job :=
  mkJob None (Some pct) (Some ("Encoding… " +:+ toFixed1 pct +:+ "%"))
        None None None None None.

(** One call [(chunk) => { ... }] of the closure. *)
Definition feed (p : Parser) (chunk : string) (w : World) : Parser * World :=
  match timeRe_match chunk with
  | None => (p, w)
  | Some m =>
      if Qeq_bool (parser_durationSec p) 0 then (p, w)
      else
        let t := elapsed m in
        let pct := clamp (t / parser_durationSec p * 100) 0 100 in
        if Qle_bool (lastPct p) pct
        then (mkParser (parser_durationSec p) (parser_jobId p) pct,
              setJob (parser_jobId p) (progress_patch pct) w)
        else (p, w)
  end.

(** The closure called on each chunk of a list, in order. *)
Fixpoint feed_all (p : Parser) (chunks : list string) (w : World) : Parser * World :=
  match chunks with
  | [] => (p, w)
  | chunk :: rest => let '(p', w') := feed p chunk w in feed_all p' rest w'
  end.

(** ** The orchestrator *)

Definition workDir : string := "/tmp/navine".

Definition nl : string := String (ascii_of_nat 10) EmptyString.

(** A multipart request of [POST /api/start] as [multer] hands it to the
    handler: [req.body] is an object, the upload is stored, and [req.file] is
    set if the form had the file part.  [req_file] is the file's path if
    there is one; [req_targetMB] and [req_audioKbps] are the values of
    [Number(req.body.targetMB || 499)] and [Number(req.body.audioKbps || 128)],
    taken to be finite. *)
Record StartRequest : Type := mkStartRequest {
  req_file : option string;
  req_targetMB : Q;
  req_codec : option string;
  req_audioKbps : Q;
  req_autoQuality : option string
}.

(** One callback of the event loop.  A child process belongs to the job
    whose handler awaits it, so its events carry the job's identifier.
    [PostUnparsed] is a [POST /api/start] that is not multipart: [multer]
    passes it on untouched, so the handler runs with [req.body] undefined
    (and no file); [jobId] is what [nanoid] returned at line 253. *)
Inductive Event : Type :=
| PostStart (jobId : string) (req : StartRequest)
| ChildStdout (jobId : string) (d : string)
| ChildStderr (jobId : string) (d : string)
| ChildClose (jobId : string) (code : option Z)
| FileWritten (path : string) (size : Z)
| Tick (now : Z)
| PostUnparsed (jobId : string).

Section Program.
Context {rt : Runtime}.

Definition ffprobeArgs (inputPath : string) : list string :=
  ["-v"; "error"; "-print_format"; "json"; "-show_format"; "-show_streams";
   inputPath].

(** [`${code}`] for the exit code of a child, [null] after a signal. *)
Definition code_text (code : option Z) : string :=
  match code with
  | Some c => String_of_number (inject_Z c)
  | None => "null"
  end.

(** The message of the error [run] rejects with. *)
Definition exited (cmd : string) (code : option Z) (stderr : string) : string :=
  cmd +:+ " exited " +:+ code_text code +:+ nl +:+ stderr.

(** Lines 179-195 of [twoPassEncode]: everything decided before pass 1. *)
Definition plan_encode (a : EncodeArgs) (probe : Probe) (durationSec : Q) : Plan :=
  let v := getVideoStream probe in
  let width := stream_width v in
  let height := stream_height v in
  let s := autoSettings width height durationSec in
  let videoKbps := computeBitrates (arg_targetMB a) durationSec (arg_audioKbps a) in
  let useScale :=
    match scaleFilter s with
    | Some f =>
        if String.eqb (arg_autoQuality a) "on" && negb (String.eqb f "")
        then ["-vf"; f] else []
    | None => []
    end in
  let chosenPreset :=
    if String.eqb (arg_autoQuality a) "on"
    then preset_name (preset s) else "medium" in
  let vCodec := if String.eqb (arg_codec a) "h265" then "libx265" else "libx264" in
  let passlog := workDir +:+ "/passlog-" +:+ arg_jobId a in
  mkPlan durationSec videoKbps useScale chosenPreset vCodec passlog.

Definition p1Args (a : EncodeArgs) (plan : Plan) : list string :=
  ["-y"; "-i"; arg_inputPath a] ++
  plan_useScale plan ++
  ["-c:v"; plan_vCodec plan;
   "-b:v"; String_of_number (plan_videoKbps plan) +:+ "k";
   "-preset"; plan_chosenPreset plan;
   "-pass"; "1";
   "-passlogfile"; plan_passlog plan;
   "-an";
   "-f"; "mp4";
   "/dev/null"].

Definition p2Args (a : EncodeArgs) (plan : Plan) : list string :=
  ["-y"; "-i"; arg_inputPath a] ++
  plan_useScale plan ++
  ["-c:v"; plan_vCodec plan;
   "-b:v"; String_of_number (plan_videoKbps plan) +:+ "k";
   "-preset"; plan_chosenPreset plan;
   "-pass"; "2";
   "-passlogfile"; plan_passlog plan;
   "-c:a"; "aac";
   "-b:a"; String_of_number (arg_audioKbps a) +:+ "k";
   "-movflags"; "+faststart";
   arg_outputPath a].

(** The [catch] and [finally] blocks of the [/api/start] handler, entered
    with an error whose [message] is [msg]. *)
Definition catch_finally (a : EncodeArgs) (msg : string) (w : World) : World :=
  let w := emit (FxConsoleError msg) w in
  let w := setJob (arg_jobId a)
             (mkJob (Some Error) (Some 0%Q) (Some "Error"%string) None None None
                    (Some (if String.eqb msg "" then "Error"%string else msg)) None) w in
  let w := unlinkSync (arg_inputPath a) w in
  finish (arg_jobId a) w.

(** [POST /api/start], up to the first [await] inside [ffprobeJson]. *)
Definition post_start (jobId : string) (req : StartRequest) (w : World) : World :=
  let codec :=
    match req_codec req with
    | Some c => if String.eqb c "h265" then "h265" else "h264"
    | None => "h264"
    end in
  let autoQuality :=
    match req_autoQuality req with
    | Some q => if String.eqb q "off" then "off" else "on"
    | None => "on"
    end in
  match req_file req with
  | None => respond (Send 400 "No file uploaded.") w
  | Some inputPath =>
      let outputPath := workDir +:+ "/out-" +:+ jobId +:+ ".mp4" in
      let w := setJob jobId
                 (mkJob (Some Queued) (Some 0%Q) (Some "Queued…"%string)
                        (Some inputPath) (Some outputPath) None None None) w in
      let w := respond (Json 200 (BodyJobId jobId)) w in
      let a := mkEncodeArgs jobId inputPath outputPath (req_targetMB req) codec
                            (req_audioKbps req) autoQuality in
      (* twoPassEncode *)
      let w := setJob jobId
                 (mkJob (Some Running) (Some 1%Q) (Some "Analyzing media…"%string)
                        None None None None None) w in
      (* ffprobeJson: await run("ffprobe", args) *)
      let w := spawn "ffprobe" (ffprobeArgs inputPath) w in
      suspend jobId (AwaitProbeRun a "") w
  end.

(** [POST /api/start] without [req.body]: line 255 reads
    [req.body.targetMB] and throws a [TypeError], before the test for the
    file at line 260.  Nothing in the program catches it: the handler's
    promise rejects without a response, and what the framework does with the
    rejection is outside the program. *)
Definition post_unparsed (jobId : string) (w : World) : World :=
  emit (FxThrow "TypeError") w.

(** [twoPassEncode] from the resolution of [ffprobeJson] to the [await] of
    pass 1. *)
Definition after_probe (a : EncodeArgs) (probe : Probe) (w : World) : World :=
  let durationSec := parseDurationSeconds probe in
  if Qeq_bool durationSec 0 then catch_finally a "Could not read duration." w
  else
    let plan := plan_encode a probe durationSec in
    let w := setJob (arg_jobId a)
               (mkJob None (Some 2%Q) (Some "Pass 1/2…"%string)
                      None None None None None) w in
    let w := spawn "ffmpeg" (p1Args a plan) w in
    suspend (arg_jobId a)
            (AwaitPass1 a plan "" (makeProgressParser durationSec (arg_jobId a))) w.

(** From the resolution of pass 1 to the [await] of pass 2. *)
Definition after_pass1 (a : EncodeArgs) (plan : Plan) (w : World) : World :=
  let w := setJob (arg_jobId a)
             (mkJob None (Some 50%Q) (Some "Pass 2/2…"%string)
                    None None None None None) w in
  let w := spawn "ffmpeg" (p2Args a plan) w in
  suspend (arg_jobId a)
          (AwaitPass2 a plan ""
             (makeProgressParser (plan_durationSec plan) (arg_jobId a))) w.

(** From the resolution of pass 2 to the end of the handler.
    [fs.statSync] throws when the output file does not exist. *)
Definition after_pass2 (a : EncodeArgs) (plan : Plan) (w : World) : World :=
  match files w !! arg_outputPath a with
  | None =>
      catch_finally a
        ("ENOENT: no such file or directory, stat '" +:+ arg_outputPath a +:+ "'") w
  | Some size =>
      let w := setJob (arg_jobId a)
                 (mkJob (Some Done) (Some 100%Q) (Some "Done ✅"%string)
                        None None (Some size) None None) w in
      let w := unlinkSync (plan_passlog plan +:+ "-0.log") w in
      let w := unlinkSync (plan_passlog plan +:+ "-0.log.mbtree") w in
      (* finally *)
      let w := unlinkSync (arg_inputPath a) w in
      finish (arg_jobId a) w
  end.

(** [p.stdout.on("data", ...)] *)
Definition on_stdout (jobId d : string) (w : World) : World :=
  match tasks w !! jobId with
  | Some (AwaitProbeJson a out err) =>
      suspend jobId (AwaitProbeJson a (out +:+ d) err) w
  | _ => w
  end.

(** [p.stderr.on("data", ...)] *)
Definition on_stderr (jobId d : string) (w : World) : World :=
  match tasks w !! jobId with
  | Some (AwaitProbeRun a stderr) =>
      suspend jobId (AwaitProbeRun a (stderr +:+ d)) w
  | Some (AwaitProbeJson a out err) =>
      suspend jobId (AwaitProbeJson a out (err +:+ d)) w
  | Some (AwaitPass1 a plan stderr p) =>
      let '(p', w') := feed p d w in
      suspend jobId (AwaitPass1 a plan (stderr +:+ d) p') w'
  | Some (AwaitPass2 a plan stderr p) =>
      let '(p', w') := feed p d w in
      suspend jobId (AwaitPass2 a plan (stderr +:+ d) p') w'
  | None => w
  end.

Definition exit_ok (code : option Z) : bool :=
  match code with
  | Some c => c =? 0
  | None => false
  end.

(** [p.on("close", ...)] and the continuation of the handler it resumes. *)
Definition on_close (jobId : string) (code : option Z) (w : World) : World :=
  match tasks w !! jobId with
  | Some (AwaitProbeRun a stderr) =>
      if exit_ok code
      then
        let w := spawn "ffprobe" (ffprobeArgs (arg_inputPath a)) w in
        suspend jobId (AwaitProbeJson a "" "") w
      else catch_finally a (exited "ffprobe" code stderr) w
  | Some (AwaitProbeJson a out err) =>
      if exit_ok code
      then
        match JSON_parse out with
        | inr probe => after_probe a probe w
        | inl msg => catch_finally a ("Failed to parse ffprobe output: " +:+ msg) w
        end
      else catch_finally a ("ffprobe failed: " +:+ err) w
  | Some (AwaitPass1 a plan stderr _) =>
      if exit_ok code then after_pass1 a plan w
      else catch_finally a (exited "ffmpeg" code stderr) w
  | Some (AwaitPass2 a plan stderr _) =>
      if exit_ok code then after_pass2 a plan w
      else catch_finally a (exited "ffmpeg" code stderr) w
  | None => w
  end.

(** ** The periodic cleanup *)

Definition TTL_MS : Z := 30 * 60 * 1000.
Definition CLEANUP_INTERVAL_MS : Z := 5 * 60 * 1000.

(** One iteration of the loop over [jobs.entries()]; [job] is the object
    the iterator yields, the one stored under [id]. *)
Definition cleanup_entry (now : Z) (w : World) (entry : string * Job) : World :=
  let '(id, job) := entry in
  (* const created = job.createdAt || (job.createdAt = now); *)
  let '(created, w) :=
    match createdAt job with
    | Some c => if c =? 0 then (now, stamp id now w) else (c, w)
    | None => (now, stamp id now w)
    end in
  let ageMs := now - created in
  if is_terminal (status job) && (TTL_MS <? ageMs)
  then
    let w :=
      match outputPath job with
      | Some p => if String.eqb p "" then w else unlinkSync p w
      | None => w
      end in
    deleteJob id w
  else w.

(** The [setInterval] callback with [Date.now() = now].  The entries are
    visited in the order of [map_to_list]; an iteration touches only its
    own record and output file. *)
Definition cleanup (now : Z) (w : World) : World :=
  fold_left (cleanup_entry now) (map_to_list (jobs w)) w.

(** A child process (the transcoder) writes a file. *)
Definition file_written (path : string) (size : Z) (w : World) : World :=
  mkWorld (jobs w) (tasks w) (<[path := size]> (files w)) (journal w).

Definition step (w : World) (e : Event) : World :=
  match e with
  | PostStart jobId req => post_start jobId req w
  | ChildStdout jobId d => on_stdout jobId d w
  | ChildStderr jobId d => on_stderr jobId d w
  | ChildClose jobId code => on_close jobId code w
  | FileWritten path size => file_written path size w
  | Tick now => cleanup now w
  | PostUnparsed jobId => post_unparsed jobId w
  end.

(** The callbacks of [events] run one after the other. *)
Definition run_events (events : list Event) (w : World) : World :=
  fold_left step events w.

(** ** The query routes *)

(** [GET /api/progress/:jobId] *)
Definition get_progress (w : World) (jobId : string) : Response :=
  match jobs w !! jobId with
  | None => Json 404 (BodyStatus "missing")
  | Some job =>
      Json 200
        (BodyProgress (status_name <$> status job)
           (default 0%Q (percent job))
           (default ""%string (message job))
           (error job)
           (match outputBytes job with
            | Some b => if b =? 0 then None
                        else Some (inject_Z b / inject_Z (1024 * 1024))%Q
            | None => None
            end))
  end.

(** [GET /api/download/:jobId] *)
Definition get_download (w : World) (jobId : string) : Response :=
  match jobs w !! jobId with
  | None => Send 404 "Missing job."
  | Some job =>
      match status job with
      | Some Done =>
          Download (default ""%string (outputPath job))
                   ("navine-" +:+ jobId +:+ ".mp4")
      | _ => Send 409 "Not ready."
      end
  end.
End Program.

(** The decision of one iteration of the cleanup loop, stated apart from
    the loop: the time the age is counted from, whether the record is
    removed, and the record that is left when it is not. *)
Definition anchor (now : Z) (job : Job) : Z :=
  match createdAt job with
  | Some c => if c =? 0 then now else c
  | None => now
  end.

Definition purge_due (now : Z) (job : Job) : bool :=
  is_terminal (status job) && (TTL_MS <? now - anchor now job).

Definition stamped (now : Z) (job : Job) : Job :=
  mkJob (status job) (percent job) (message job) (inputPath job) (outputPath job)
        (outputBytes job) (error job) (Some (anchor now job)).

(** ** Histories read off the journal *)

(** What the journal shows of one job: a record written under its identifier,
    or its removal from the registry. *)
Inductive Obs : Type :=
| Wrote (record : Job)
| Removed.

Definition observe (jobId : string) (fx : Effect) : option Obs :=
  match fx with
  | FxSetJob i r => if String.eqb i jobId then Some (Wrote r) else None
  | FxDelete i => if String.eqb i jobId then Some Removed else None
  | _ => None
  end.

Definition history (jobId : string) (w : World) : list Obs :=
  omap (observe jobId) (journal w).

(** The status an observation shows. *)
Definition obs_status (o : Obs) : option Status :=
  match o with
  | Wrote r => status r
  | Removed => None
  end.

(** Every two neighbours of [l] are related by [R]. *)
Fixpoint chain {A : Type} (R : A -> A -> Prop) (l : list A) : Prop :=
  match l with
  | a :: (b :: _) as rest => R a b /\ chain R rest
  | _ => True
  end.

(** The identifiers [nanoid] returned, one per request. *)
Definition post_ids (events : list Event) : list string :=
  omap (fun e => match e with PostStart j _ => Some j | _ => None end) events.

(** The transitions [queued -> running -> {done | error}], a running job
    staying running, and the removal of a terminal job. *)
Inductive status_step : Obs -> Obs -> Prop :=
| step_start r r' :
    status r = Some Queued -> status r' = Some Running ->
    status_step (Wrote r) (Wrote r')
| step_running r r' :
    status r = Some Running -> status r' = Some Running ->
    status_step (Wrote r) (Wrote r')
| step_done r r' :
    status r = Some Running -> status r' = Some Done ->
    status_step (Wrote r) (Wrote r')
| step_error r r' :
    status r = Some Running -> status r' = Some Error ->
    status_step (Wrote r) (Wrote r')
| step_purge r :
    is_terminal (status r) = true ->
    status_step (Wrote r) Removed.

(** Two successive writes to a running job do not lower [percent]. *)
Definition percent_kept (a b : Obs) : Prop :=
  match a, b with
  | Wrote r, Wrote r' =>
      status r = Some Running -> status r' = Some Running ->
      exists p p', percent r = Some p /\ percent r' = Some p' /\ (p <= p')%Q
  | _, _ => True
  end.

(** The record the orchestrator writes just before a pass starts. *)
Definition pass1_milestone (r : Job) : Prop :=
  percent r = Some 2%Q /\ message r = Some "Pass 1/2…"%string.

Definition pass2_milestone (r : Job) : Prop :=
  percent r = Some 50%Q /\ message r = Some "Pass 2/2…"%string.

(** [percent_kept], except across the start of a pass: the write of the
    pass-2 milestone, and the first write after either milestone. *)
Definition percent_kept_within_pass (a b : Obs) : Prop :=
  match a, b with
  | Wrote r, Wrote r' =>
      status r = Some Running -> status r' = Some Running ->
      (exists p p', percent r = Some p /\ percent r' = Some p' /\ (p <= p')%Q)
      \/ pass2_milestone r'
      \/ pass1_milestone r
      \/ pass2_milestone r
  | _, _ => True
  end.

(** The percents a stretch of the journal wrote. *)
Definition percents_written (fxs : list Effect) : list Q :=
  omap (fun fx => match fx with FxSetJob _ r => percent r | _ => None end) fxs.

(** ** The callbacks of one job up to the prober's report *)

(** A chunk a child process writes on its standard output or on its
    standard error. *)
Inductive Output : Type :=
| OnStdout (d : string)
| OnStderr (d : string).

Definition data_event (jobId : string) (o : Output) : Event :=
  match o with
  | OnStdout d => ChildStdout jobId d
  | OnStderr d => ChildStderr jobId d
  end.

(** The text [out] that the chunks of the standard output add up to. *)
Definition stdout_text (acc : string) (os : list Output) : string :=
  fold_left (fun acc o => match o with OnStdout d => acc +:+ d | OnStderr _ => acc end)
            os acc.

(** The callbacks of one job from its request to the end of [ffprobeJson]:
    the request, the output of the first prober run, its successful exit,
    the output of the second run, and its successful exit. *)
Definition probe_events (jobId : string) (req : StartRequest)
    (run1 run2 : list Output) : list Event :=
  PostStart jobId req ::
  map (data_event jobId) run1 ++
  ChildClose jobId (Some 0) ::
  map (data_event jobId) run2 ++
  [ChildClose jobId (Some 0)].

(** The container-level duration of a report is absent, is not a finite
    number, or is not positive. *)
Definition duration_unusable {rt : Runtime} (probe : Probe) : Prop :=
  match format probe with
  | None => True
  | Some f =>
      match duration f with
      | JUndefined | JNull => True
      | v =>
          match Number v with
          | Fin q => (q <= 0)%Q
          | NaN | PosInf | NegInf => True
          end
      end
  end.

(** ** Invariants of a run *)

Definition task_args (t : Task) : EncodeArgs :=
  match t with
  | AwaitProbeRun a _ | AwaitProbeJson a _ _
  | AwaitPass1 a _ _ _ | AwaitPass2 a _ _ _ => a
  end.

(** A suspended handler is filed under the identifier of its own job, which
    is also the one its progress parser writes to. *)
Definition task_wf (k : string) (t : Task) : Prop :=
  arg_jobId (task_args t) = k /\
  match t with
  | AwaitPass1 _ _ _ p | AwaitPass2 _ _ _ p => parser_jobId p = k
  | _ => True
  end.

Definition tasks_wf (w : World) : Prop :=
  forall k t, tasks w !! k = Some t -> task_wf k t.

(** What the world holds about one job. *)
Record View : Type := mkView {
  v_job : option Job;
  v_task : option Task;
  v_hist : list Obs
}.

Definition view (jobId : string) (w : World) : View :=
  mkView (jobs w !! jobId) (tasks w !! jobId) (history jobId w).

(** The stored record shows what was last written (the cleanup may have set
    [createdAt] since). *)
Definition agrees (job r : Job) : Prop :=
  status job = status r /\ percent job = percent r /\ message job = message r.

(** The last record written, given where the handler is suspended. *)
Definition last_matches (t : option Task) (r : Job) : Prop :=
  match t with
  | Some (AwaitProbeRun _ _) | Some (AwaitProbeJson _ _ _) =>
      status r = Some Running /\ percent r = Some 1%Q
  | Some (AwaitPass1 _ _ _ p) =>
      status r = Some Running /\ (pass1_milestone r \/ percent r = Some (lastPct p))
  | Some (AwaitPass2 _ _ _ p) =>
      status r = Some Running /\ (pass2_milestone r \/ percent r = Some (lastPct p))
  | None => is_terminal (status r) = true
  end.

Definition lifecycle (a b : Obs) : Prop :=
  status_step a b /\ percent_kept_within_pass a b.

Definition starts_queued (h : list Obs) : Prop :=
  match h with
  | [] => True
  | Wrote r :: _ => status r = Some Queued
  | Removed :: _ => False
  end.

Definition view_inv (v : View) : Prop :=
  chain lifecycle (v_hist v) /\
  starts_queued (v_hist v) /\
  match last (v_hist v) with
  | None | Some Removed => v_job v = None /\ v_task v = None
  | Some (Wrote r) =>
      (exists job, v_job v = Some job /\ agrees job r) /\ last_matches (v_task v) r
  end.

Definition job_inv (jobId : string) (w : World) : Prop := view_inv (view jobId w).

(** The claim that [percent] never goes down while a job is running, over
    all runs in which [nanoid] never repeats an identifier. *)
Definition percent_never_lowered_while_running : Prop :=
  forall (rt : Runtime) (events : list Event) (jobId : string),
    NoDup (post_ids events) ->
    chain percent_kept (history jobId (run_events events emptyWorld)).

(** ** A runtime to evaluate concrete runs with *)

(** [Number(s)] for the decimal numerals the prober prints: digits with an
    optional fraction; the empty string converts to 0, anything else here
    to NaN. *)
Definition decimal_number (s : string) : JsNumber :=
  match s with
  | EmptyString => Fin 0
  | _ =>
      match digits1 s with
      | Some (d, EmptyString) => Fin (Number_of_digits d)
      | Some (d, String "." r) =>
          match digits1 r with
          | Some (f, EmptyString) =>
              Fin (Number_of_digits d
                   + Number_of_digits f / inject_Z (10 ^ Z.of_nat (String.length f)))%Q
          | _ => NaN
          end
      | _ => NaN
      end
  end.

(** Integers print in decimal; other rationals as a quotient. *)
Definition number_text (q : Q) : string :=
  let r := Qred q in
  match Qden r with
  | xH => pretty (Qnum r)
  | d => pretty (Qnum r) +:+ "/" +:+ pretty (Zpos d)
  end.

(** Reports of a 4K video: one lasting ten seconds, one without a duration. *)
Definition report_10s : Probe :=
  mkProbe (Some (mkFormat (JStr "10.000000")))
          (Some [mkStream (JStr "audio") JUndefined JUndefined;
                 mkStream (JStr "video") (JNum (Fin 3840)) (JNum (Fin 2160))]).

Definition report_no_duration : Probe :=
  mkProbe (Some (mkFormat (JStr "N/A")))
          (Some [mkStream (JStr "video") (JNum (Fin 3840)) (JNum (Fin 2160))]).

(** Stands for [JSON.parse] on three prober outputs. *)
Definition parse_sample (out : string) : string + Probe :=
  if String.eqb out "report-10s" then inr report_10s
  else if String.eqb out "report-no-duration" then inr report_no_duration
  else inl "Unexpected end of JSON input"%string.

Definition sampleRuntime : Runtime :=
  {| Number_of_string := decimal_number;
     String_of_number := number_text;
     JSON_parse := parse_sample |}.

Definition sample_request : StartRequest :=
  mkStartRequest (Some "/tmp/navine/uploads/f00d"%string) 499 None 128 None.

Definition sample_args (autoQuality : string) : EncodeArgs :=
  mkEncodeArgs "j1" "/tmp/navine/uploads/f00d" "/tmp/navine/out-j1.mp4"
               499 "h264" 128 autoQuality.

(** ** Sample runs *)

(** A run in which pass 1 reports 90% before it ends. *)
Definition pass1_to_90_events : list Event :=
  [PostStart "j1" sample_request;
   ChildClose "j1" (Some 0);
   ChildStdout "j1" "report-10s";
   ChildClose "j1" (Some 0);
   ChildStderr "j1" "frame=  270 fps=0.0 q=0.0 size=0kB time=00:00:09.00 bitrate=N/A";
   ChildClose "j1" (Some 0)].

Definition minutes (n : Z) : Z := n * 60 * 1000.

(** A job whose encode is still running at the cleanup of minute 35: the
    request, the first cleanup five minutes later, the two prober runs,
    pass 1, and the cleanups up to minute 35. *)
Definition encode_until_minute_35 : list Event :=
  [PostStart "j1" sample_request;
   Tick (minutes 5);
   ChildClose "j1" (Some 0);
   ChildStdout "j1" "report-10s";
   ChildClose "j1" (Some 0);
   Tick (minutes 10);
   ChildStderr "j1" "frame=  150 fps=0.0 q=0.0 size=0kB time=00:00:05.00 bitrate=N/A";
   Tick (minutes 15);
   ChildClose "j1" (Some 0);
   Tick (minutes 20);
   Tick (minutes 25);
   ChildStderr "j1" "frame=  240 fps=0.1 q=28.0 size=256kB time=00:00:08.00 bitrate=N/A";
   Tick (minutes 30);
   Tick (minutes 35)].

(** Pass 2 then writes the output and exits: the job is done. *)
Definition encode_finishes : list Event :=
  [FileWritten "/tmp/navine/out-j1.mp4" 1000;
   ChildClose "j1" (Some 0)].

(** ** Shapes used to state further properties *)

(** No character of [s] is the letter [t]: no match of the pattern can
    start inside [s]. *)
Fixpoint no_t (s : string) : bool :=
  match s with
  | EmptyString => true
  | String c s' => negb (Ascii.eqb c "t") && no_t s'
  end.

(** The objects the program passes to [setJob], by name. *)
Definition queued_patch (inputPath outputPath : string) : Job :=
  mkJob (Some Queued) (Some 0%Q) (Some "Queued…"%string)
        (Some inputPath) (Some outputPath) None None None.

Definition running_patch : Job :=
  mkJob (Some Running) (Some 1%Q) (Some "Analyzing media…"%string)
        None None None None None.

Definition pass1_patch : Job :=
  mkJob None (Some 2%Q) (Some "Pass 1/2…"%string) None None None None None.

Definition pass2_patch : Job :=
  mkJob None (Some 50%Q) (Some "Pass 2/2…"%string) None None None None None.

Definition done_patch (size : Z) : Job :=
  mkJob (Some Done) (Some 100%Q) (Some "Done ✅"%string) None None (Some size) None None.

Definition error_patch (msg : string) : Job :=
  mkJob (Some Error) (Some 0%Q) (Some "Error"%string) None None None
        (Some (if String.eqb msg "" then "Error"%string else msg)) None.

(** [path.join(workDir, `out-${jobId}.mp4`)] *)
Definition output_path (jobId : string) : string :=
  workDir +:+ "/out-" +:+ jobId +:+ ".mp4".

(** The text [stderr] that the chunks of the standard error add up to. *)
Definition stderr_text (acc : string) (os : list Output) : string :=
  fold_left (fun acc o => match o with OnStderr d => acc +:+ d | OnStdout _ => acc end)
            os acc.


(** The handler of [a]'s job ended in its [catch] block with an error whose
    message is [msg]: from [w] to [w'] it logged the error, wrote the error
    record, deleted the input, and returned. *)
Definition ends_in_error (a : EncodeArgs) (msg : string) (w w' : World) : Prop :=
  exists record,
    jobs w' !! arg_jobId a = Some record /\
    status record = Some Error /\ percent record = Some 0%Q /\
    message record = Some "Error"%string /\ error record = Some msg /\
    outputBytes record = (jobs w !! arg_jobId a) ≫= outputBytes /\
    tasks w' !! arg_jobId a = None /\
    files w' = delete (arg_inputPath a) (files w) /\
    journal w' =
      journal w ++
      [FxConsoleError msg; FxSetJob (arg_jobId a) record; FxUnlink (arg_inputPath a)].

(** The patches the handler suspended at [t] can pass to [setJob] when its
    child process writes or exits. *)
Definition handler_patch (t : Task) (patch : Job) : Prop :=
  match t with
  | AwaitProbeRun _ _ => exists msg, patch = error_patch msg
  | AwaitProbeJson _ _ _ => patch = pass1_patch \/ exists msg, patch = error_patch msg
  | AwaitPass1 _ _ _ p =>
      (exists pct, (lastPct p <= pct)%Q /\ (0 <= pct <= 100)%Q /\ patch = progress_patch pct) \/
      patch = pass2_patch \/ exists msg, patch = error_patch msg
  | AwaitPass2 _ _ _ p =>
      (exists pct, (lastPct p <= pct)%Q /\ (0 <= pct <= 100)%Q /\ patch = progress_patch pct) \/
      (exists size, patch = done_patch size) \/ exists msg, patch = error_patch msg
  end.

(** What one callback can do to the record of a job. *)
Definition record_update {rt : Runtime} (j : string) (e : Event) (w : World)
    (old new : option Job) : Prop :=
  new = old \/
  (exists req upload,
     e = PostStart j req /\ req_file req = Some upload /\
     new = Some (spread (spread (default emptyJob old) (queued_patch upload (output_path j)))
                        running_patch)) \/
  (exists t patch,
     tasks w !! j = Some t /\ handler_patch t patch /\
     new = Some (spread (default emptyJob old) patch)) \/
  (exists now job,
     e = Tick now /\ old = Some job /\
     ((purge_due now job = true /\ new = None) \/
      (purge_due now job = false /\ new = Some (stamped now job)))).

(** The shape of a record of job [j] in the registry. *)
Definition record_ok (j : string) (job : Job) : Prop :=
  is_Some (status job) /\
  (exists p, percent job = Some p /\ (0 <= p <= 100)%Q) /\
  is_Some (message job) /\
  is_Some (inputPath job) /\
  outputPath job = Some (output_path j) /\
  (is_Some (outputBytes job) <-> status job = Some Done) /\
  (is_Some (error job) <-> status job = Some Error) /\
  (status job = Some Done -> percent job = Some 100%Q) /\
  (status job = Some Error -> percent job = Some 0%Q).

(** The plan of a suspended pass. *)
Definition task_planned (t : Task) : Prop :=
  match t with
  | AwaitPass1 a plan _ p | AwaitPass2 a plan _ p =>
      (0 < plan_durationSec plan)%Q /\
      parser_durationSec p = plan_durationSec plan /\
      (0 <= lastPct p <= 100)%Q
  | _ => True
  end.



(** The arguments [POST /api/start] passes to [twoPassEncode]. *)
Definition start_args (jobId upload : string) (req : StartRequest) : EncodeArgs :=
  mkEncodeArgs jobId upload (output_path jobId) (req_targetMB req)
    match req_codec req with
    | Some c => if String.eqb c "h265" then "h265" else "h264"
    | None => "h264"
    end
    (req_audioKbps req)
    match req_autoQuality req with
    | Some q => if String.eqb q "off" then "off" else "on"
    | None => "on"
    end.

(** ** Further sample runs *)

(** The sample request up to the start of pass 1. *)
Definition probe_succeeds_events : list Event :=
  [PostStart "j1" sample_request;
   ChildClose "j1" (Some 0);
   ChildStdout "j1" "report-10s";
   ChildClose "j1" (Some 0)].

Definition in_pass1 : World :=
  run_events (rt := sampleRuntime) probe_succeeds_events emptyWorld.

(** The handler of the sample request as it waits for pass 1. *)
Definition sample_pass1_task : Task :=
  let a := start_args "j1" "/tmp/navine/uploads/f00d" sample_request in
  let durationSec := parseDurationSeconds (rt := sampleRuntime) report_10s in
  AwaitPass1 a (plan_encode (rt := sampleRuntime) a report_10s durationSec) ""
             (makeProgressParser durationSec "j1").

(** What a failing pass writes. *)
Definition failing_pass_output : list Output :=
  [OnStderr "frame=  150 fps=0.0 q=0.0 size=0kB time=00:00:05.00 bitrate=N/A";
   OnStdout "ignored";
   OnStderr "Conversion failed!"].

(** The sample request with a prober that rejects the upload. *)
Definition probe_rejects_upload : World :=
  run_events (rt := sampleRuntime)
    [PostStart "j1" sample_request;
     ChildStderr "j1" "f00d: Invalid data found when processing input"]
    emptyWorld.

(** The sample job, done, five minutes after the cleanup of minute 35. *)
Definition done_after_minute_35 : World :=
  run_events (rt := sampleRuntime) (encode_until_minute_35 ++ encode_finishes) emptyWorld.

(** * The allocator on binary64

    [computeBitrates] is the one place where the program's arithmetic decides
    a claim by its rounding and overflow, so it is embedded a second time on
    the kernel's binary64 numbers ([PrimFloat]), operation by operation as
    lines 106 and 133-146 evaluate it. *)

Module Double.
Import PrimFloat.
Local Open Scope float_scope.

(** [Math.max(x, y)]: [NaN] if either argument is, and [+0] above [-0]. *)
Definition Math_max (x y : float) : float :=
  if is_nan x || is_nan y then nan
  else if x <? y then y
  else if y <? x then x
  else if is_zero x && get_sign x then y else x.

(** [Math.min(x, y)]: [NaN] if either argument is, and [-0] below [+0]. *)
Definition Math_min (x y : float) : float :=
  if is_nan x || is_nan y then nan
  else if x <? y then x
  else if y <? x then y
  else if is_zero x && get_sign x then x else y.

(** [Math.floor(x)]: [x] itself when it is [NaN], infinite, a zero, or has no
    fractional bits; otherwise the integer below [(-1)^s * m * 2^e], which is
    smaller than [2^53] and so converts exactly. *)
Definition Math_floor (x : float) : float :=
  match Prim2SF x with
  | S754_finite s m e =>
      if (0 <=? e)%Z then x
      else
        let q := (Zpos m / 2 ^ (- e))%Z in
        let r := (Zpos m mod 2 ^ (- e))%Z in
        if s
        then - of_uint63 (Uint63.of_Z (if (r =? 0)%Z then q else q + 1))
        else of_uint63 (Uint63.of_Z q)
  | _ => x
  end.

(** [function clamp(n, a, b){ return Math.max(a, Math.min(b, n)); }] *)
Definition clamp (n a b : float) : float := Math_max a (Math_min b n).

Definition totalBits (targetMB : float) : float := targetMB * 1024 * 1024 * 8.

Definition audioBits (audioKbps durationSec : float) : float :=
  audioKbps * 1000 * durationSec.

Definition videoBits (targetMB durationSec audioKbps : float) : float :=
  Math_max (totalBits targetMB - audioBits audioKbps durationSec)
           (totalBits targetMB * 0.70).

(** The [videoKbps] field of the object [computeBitrates] returns. *)
Definition computeBitrates (targetMB durationSec audioKbps : float) : float :=
  let videoBps := videoBits targetMB durationSec audioKbps / durationSec in
  clamp (Math_floor (videoBps / 1000)) 200 50000.

(** The rational number a finite binary64 number stands for. *)
Definition value (x : float) : option Q :=
  match Prim2SF x with
  | S754_zero _ => Some 0%Q
  | S754_finite s m e =>
      Some ((if s then -1 else 1) * inject_Z (Zpos m) * Qpower 2 e)%Q
  | _ => None
  end.
End Double.

(** A number that is not [NaN], and one that has the sign [b]. *)
Definition signed (b : bool) (f : spec_float) : Prop :=
  match f with
  | S754_zero s | S754_infinity s | S754_finite s _ _ => s = b
  | S754_nan => False
  end.

(** A finite number other than zero, of sign [b]. *)
Definition finite_sf (b : bool) (f : spec_float) : Prop :=
  match f with
  | S754_finite s _ _ => s = b
  | _ => False
  end.

(** * Properties *)

(** ** Planner *)

Section PlannerFacts.
Local Open Scope Q_scope.

Lemma Qlt_bool_iff (x y : Q) : Qlt_bool x y = true <-> x < y.
Proof.
  unfold Qlt_bool. rewrite negb_true_iff.
  destruct (Qle_bool y x) eqn:E.
  - apply Qle_bool_iff in E. split; [discriminate | intros H; exfalso; lra].
  - split; [intros _ | reflexivity].
    apply Qnot_le_lt. intros H. apply Qle_bool_iff in H. congruence.
Qed.

Lemma Qlt_bool_false (x y : Q) : Qlt_bool x y = false <-> y <= x.
Proof.
  unfold Qlt_bool. rewrite negb_false_iff. apply Qle_bool_iff.
Qed.

Lemma clamp_bounds (n a b : Q) : a <= b -> a <= clamp n a b <= b.
Proof.
  intros Hab. unfold clamp. split.
  - apply Q.le_max_l.
  - apply Q.max_lub; [exact Hab | apply Q.le_min_l].
Qed.

End PlannerFacts.

Section PresetFacts.
Local Open Scope Q_scope.

Lemma preset_cases (width height : JsNumber) (d : Q) :
  (30 * 60 < d /\ preset (autoSettings width height d) = Veryfast) \/
  (15 * 60 < d <= 30 * 60 /\ preset (autoSettings width height d) = Fast) \/
  (7 * 60 < d <= 15 * 60 /\ preset (autoSettings width height d) = Medium) \/
  (d <= 7 * 60 /\ preset (autoSettings width height d) = Slow).
Proof.
  unfold autoSettings; cbn [preset].
  destruct (Qlt_bool (30 * 60) d) eqn:E30;
    [apply Qlt_bool_iff in E30; left; auto | apply Qlt_bool_false in E30; right].
  destruct (Qlt_bool (15 * 60) d) eqn:E15;
    [apply Qlt_bool_iff in E15; left; auto | apply Qlt_bool_false in E15; right].
  destruct (Qlt_bool (7 * 60) d) eqn:E7;
    [apply Qlt_bool_iff in E7; left; auto | apply Qlt_bool_false in E7; right].
  auto.
Qed.

(** C6.  The preset [autoSettings] selects depends on the duration only:
    [veryfast] above 30 minutes, [fast] above 15, [medium] above 7, [slow]
    up to 7 minutes; and a longer duration never selects a slower tier. *)
Theorem preset_monotone_in_duration (width height width' height' : JsNumber) (d d' : Q) :
  (30 * 60 < d -> preset (autoSettings width height d) = Veryfast) /\
  (15 * 60 < d <= 30 * 60 -> preset (autoSettings width height d) = Fast) /\
  (7 * 60 < d <= 15 * 60 -> preset (autoSettings width height d) = Medium) /\
  (d <= 7 * 60 -> preset (autoSettings width height d) = Slow) /\
  (d <= d' ->
   (speed (preset (autoSettings width height d)) <=
    speed (preset (autoSettings width' height' d')))%nat).
Proof.
  destruct (preset_cases width height d) as [[H E]|[[H E]|[[H E]|[H E]]]];
    rewrite E;
    (repeat split; [try reflexivity; intros; exfalso; lra .. |]);
    intros Hle;
    destruct (preset_cases width' height' d') as [[H' E']|[[H' E']|[[H' E']|[H' E']]]];
    rewrite E'; cbn [speed]; try lia; exfalso; lra.
Qed.

Lemma preset_monotone_in_duration_witness :
  preset (autoSettings (Fin 1920) (Fin 1080) 2000) = Veryfast /\
  preset (autoSettings (Fin 1920) (Fin 1080) 1000) = Fast /\
  preset (autoSettings (Fin 1920) (Fin 1080) 600) = Medium /\
  preset (autoSettings (Fin 1920) (Fin 1080) 420) = Slow /\
  (speed (preset (autoSettings (Fin 1920) (Fin 1080) 420)) <=
   speed (preset (autoSettings NaN (Fin 4000) 421)))%nat.
Proof.
  split; [apply (preset_monotone_in_duration (Fin 1920) (Fin 1080) NaN NaN 2000 0);
          reflexivity |].
  split; [apply (preset_monotone_in_duration (Fin 1920) (Fin 1080) NaN NaN 1000 0);
          split; [reflexivity | discriminate] |].
  split; [apply (preset_monotone_in_duration (Fin 1920) (Fin 1080) NaN NaN 600 0);
          split; [reflexivity | discriminate] |].
  split; [apply (preset_monotone_in_duration (Fin 1920) (Fin 1080) NaN NaN 420 0);
          discriminate |].
  apply (preset_monotone_in_duration (Fin 1920) (Fin 1080) NaN (Fin 4000) 420 421).
  discriminate.
Defined.
End PresetFacts.

Section ScaleFacts.
Context {rt : Runtime}.
Local Open Scope Q_scope.

Lemma or_zero_Fin (q : Q) : exists q', or_zero (Fin q) = Fin q' /\ q' == q.
Proof.
  unfold or_zero, truthy_num.
  destruct (Qeq_bool q 0) eqn:E; cbn.
  - apply Qeq_bool_iff in E. exists 0. split; [reflexivity | symmetry; exact E].
  - exists q. split; reflexivity.
Qed.

Lemma scaleFilter_finite (w h d : Q) :
  scaleFilter (autoSettings (Fin w) (Fin h) d) =
  if Qle_bool 3840 (Qmax w h) then Some "scale=1920:-2"%string else None.
Proof.
  unfold autoSettings; cbn [scaleFilter].
  destruct (or_zero_Fin w) as (w' & -> & Ew), (or_zero_Fin h) as (h' & -> & Eh).
  cbn [Math_max num_geb].
  assert (E : Qmax w' h' == Qmax w h) by (apply Q.max_compat; assumption).
  destruct (Qle_bool 3840 (Qmax w h)) eqn:B.
  - apply Qle_bool_iff in B. rewrite <- E in B. apply Qle_bool_iff in B.
    rewrite B. reflexivity.
  - destruct (Qle_bool 3840 (Qmax w' h')) eqn:B'; [| reflexivity].
    apply Qle_bool_iff in B'. rewrite E in B'. apply Qle_bool_iff in B'. congruence.
Qed.

(** C7.  For a video stream with finite width [w] and height [h], the plan
    passes the scale filter ([-vf scale=1920:-2], placed right after the input
    in the arguments of both passes) exactly when [max(w, h) >= 3840] and
    [autoQuality] is ["on"]; with [autoQuality] ["off"] the preset is
    ["medium"] and no filter is passed; and the video bitrate of the plan is
    the same whatever [autoQuality] (and the codec) is. *)
Theorem scale_filter_iff_4k_and_auto
    (a : EncodeArgs) (probe : Probe) (durationSec w h : Q) :
  stream_width (getVideoStream probe) = Fin w ->
  stream_height (getVideoStream probe) = Fin h ->
  let plan := plan_encode a probe durationSec in
  (plan_useScale plan = ["-vf"; "scale=1920:-2"]%string <->
     3840 <= Qmax w h /\ arg_autoQuality a = "on"%string) /\
  (plan_useScale plan = [] <->
     ~ (3840 <= Qmax w h /\ arg_autoQuality a = "on"%string)) /\
  (exists rest,
     p1Args a plan =
     ["-y"; "-i"; arg_inputPath a]%string ++ plan_useScale plan ++ "-c:v"%string :: rest) /\
  (exists rest,
     p2Args a plan =
     ["-y"; "-i"; arg_inputPath a]%string ++ plan_useScale plan ++ "-c:v"%string :: rest) /\
  (arg_autoQuality a = "off"%string ->
     plan_chosenPreset plan = "medium"%string /\ plan_useScale plan = []) /\
  (forall a' : EncodeArgs,
     arg_targetMB a' = arg_targetMB a -> arg_audioKbps a' = arg_audioKbps a ->
     plan_videoKbps (plan_encode a' probe durationSec) = plan_videoKbps plan).
Proof.
  intros Hw Hh plan.
  assert (Hscale : plan_useScale plan =
            if Qle_bool 3840 (Qmax w h) && String.eqb (arg_autoQuality a) "on"
            then ["-vf"; "scale=1920:-2"]%string else []).
  { subst plan. unfold plan_encode; cbn [plan_useScale].
    rewrite Hw, Hh, scaleFilter_finite.
    destruct (Qle_bool 3840 (Qmax w h)); cbn; [| reflexivity].
    destruct (String.eqb (arg_autoQuality a) "on"); reflexivity. }
  assert (Hiff : Qle_bool 3840 (Qmax w h) && String.eqb (arg_autoQuality a) "on" = true
                 <-> 3840 <= Qmax w h /\ arg_autoQuality a = "on"%string).
  { rewrite andb_true_iff, Qle_bool_iff, String.eqb_eq. reflexivity. }
  split; [split |].
  - intros E. apply Hiff. rewrite Hscale in E.
    destruct (Qle_bool 3840 (Qmax w h) && String.eqb (arg_autoQuality a) "on");
      [reflexivity | discriminate].
  - intros H. apply Hiff in H. rewrite Hscale, H. reflexivity.
  - split; [split |].
    + intros E H. apply Hiff in H. rewrite Hscale, H in E. discriminate.
    + intros H. rewrite Hscale.
      destruct (Qle_bool 3840 (Qmax w h) && String.eqb (arg_autoQuality a) "on") eqn:B;
        [| reflexivity].
      exfalso. apply H, Hiff. reflexivity.
    + split; [eexists; reflexivity |].
      split; [eexists; reflexivity |].
      split.
      * intros H. split.
        -- subst plan. unfold plan_encode; cbn [plan_chosenPreset]. rewrite H. reflexivity.
        -- rewrite Hscale, H. rewrite andb_false_r. reflexivity.
      * intros a' Ht Ha. subst plan. unfold plan_encode; cbn [plan_videoKbps].
        rewrite Ht, Ha. reflexivity.
Qed.
End ScaleFacts.

Lemma scale_filter_iff_4k_and_auto_witness :
  plan_useScale (plan_encode (rt := sampleRuntime) (sample_args "on") report_10s 10) =
    ["-vf"; "scale=1920:-2"]%string /\
  plan_useScale (plan_encode (rt := sampleRuntime) (sample_args "off") report_10s 10) = [] /\
  plan_chosenPreset (plan_encode (rt := sampleRuntime) (sample_args "off") report_10s 10) =
    "medium"%string /\
  plan_videoKbps (plan_encode (rt := sampleRuntime) (sample_args "off") report_10s 10) =
  plan_videoKbps (plan_encode (rt := sampleRuntime) (sample_args "on") report_10s 10).
Proof.
  pose proof (scale_filter_iff_4k_and_auto (rt := sampleRuntime)
                (sample_args "on") report_10s 10 3840 2160 eq_refl eq_refl) as Hon.
  pose proof (scale_filter_iff_4k_and_auto (rt := sampleRuntime)
                (sample_args "off") report_10s 10 3840 2160 eq_refl eq_refl) as Hoff.
  cbv zeta in Hon, Hoff.
  destruct Hon as (Hon & _ & _ & _ & _ & Hrate).
  destruct Hoff as (_ & _ & _ & _ & Hoff & _).
  split; [apply Hon; split; [discriminate | reflexivity] |].
  split; [apply Hoff; reflexivity |].
  split; [apply Hoff; reflexivity |].
  apply Hrate; reflexivity.
Defined.

(** ** Query routes *)

(** C9.  For an identifier that is not in the registry the progress route
    answers 404 with the status ["missing"], which is not the name of any job
    status and not a progress record, and the download route answers 404
    ["Missing job."]; for a job whose status is not [done] the download route
    answers 409 ["Not ready."]; the routes answer with a progress record or
    a file only for a job that exists, and with the file only when it is
    [done]. *)
Theorem query_routes_missing_and_not_ready (w : World) (jobId : string) :
  (jobs w !! jobId = None ->
     get_progress w jobId = Json 404 (BodyStatus "missing") /\
     get_download w jobId = Send 404 "Missing job.") /\
  (forall s : Status, status_name s <> "missing"%string) /\
  (forall job : Job, jobs w !! jobId = Some job -> status job <> Some Done ->
     get_download w jobId = Send 409 "Not ready.") /\
  (forall st p m e o, get_progress w jobId = Json 200 (BodyProgress st p m e o) ->
     exists job, jobs w !! jobId = Some job /\ st = status_name <$> status job) /\
  (forall path name, get_download w jobId = Download path name ->
     exists job, jobs w !! jobId = Some job /\ status job = Some Done).
Proof.
  unfold get_progress, get_download.
  split; [intros ->; split; reflexivity |].
  split; [intros []; discriminate |].
  split; [| split].
  - intros job -> Hs. destruct (status job) as [[]|]; congruence.
  - intros st p m e o. destruct (jobs w !! jobId) as [job|]; [| discriminate].
    intros [= <- _ _ _ _]. exists job. split; reflexivity.
  - intros path name. destruct (jobs w !! jobId) as [job|]; [| discriminate].
    destruct (status job) as [[]|] eqn:Hs; try discriminate.
    intros _. exists job. split; [reflexivity | exact Hs].
Qed.

Lemma query_routes_missing_and_not_ready_witness :
  get_progress emptyWorld "nope" = Json 404 (BodyStatus "missing") /\
  get_download emptyWorld "nope" = Send 404 "Missing job.".
Proof.
  apply (query_routes_missing_and_not_ready emptyWorld "nope").
  reflexivity.
Defined.

(** ** The regular expression *)

Lemma append_cons (c : ascii) (s r : string) : String c s +:+ r = String c (s +:+ r).
Proof. reflexivity. Qed.

Lemma append_empty (r : string) : "" +:+ r = r.
Proof. reflexivity. Qed.

Lemma take_digits_split (s d r : string) :
  take_digits s = (d, r) ->
  s = d +:+ r /\ all_digits d = true /\ starts_with_digit r = false.
Proof.
  revert d r. induction s as [|c s IH]; intros d r; cbn.
  - intros [= <- <-]. auto.
  - destruct (is_digit c) eqn:Hc.
    + destruct (take_digits s) as [d' r'] eqn:E. intros [= <- <-].
      destruct (IH d' r' eq_refl) as (-> & Hd & Hr).
      rewrite append_cons. cbn. rewrite Hc, Hd. auto.
    + intros [= <- <-]. rewrite append_empty. cbn. rewrite Hc. auto.
Qed.

Lemma take_digits_app (d r : string) :
  all_digits d = true -> starts_with_digit r = false ->
  take_digits (d +:+ r) = (d, r).
Proof.
  intros Hd Hr. induction d as [|c d IH].
  - rewrite append_empty. destruct r as [|c r]; [reflexivity |].
    cbn in *. rewrite Hr. reflexivity.
  - cbn in Hd. apply andb_true_iff in Hd as [Hc Hd].
    rewrite append_cons. cbn. rewrite Hc, (IH Hd). reflexivity.
Qed.

Lemma digits1_split (s d r : string) :
  digits1 s = Some (d, r) ->
  s = d +:+ r /\ digit_run d /\ starts_with_digit r = false.
Proof.
  unfold digits1. destruct (take_digits s) as [d' r'] eqn:E.
  destruct d' as [|c d']; [discriminate |]. intros [= <- <-].
  destruct (take_digits_split _ _ _ E) as (-> & Hd & Hr).
  repeat split; [discriminate | exact Hd | exact Hr].
Qed.

Lemma digits1_app (d r : string) :
  digit_run d -> starts_with_digit r = false -> digits1 (d +:+ r) = Some (d, r).
Proof.
  intros [Hne Hd] Hr. unfold digits1. rewrite take_digits_app by assumption.
  destruct d; [contradiction | reflexivity].
Qed.

Lemma literal_split (p s r : string) : literal p s = Some r -> s = p +:+ r.
Proof.
  revert s. induction p as [|a p IH]; intros s; cbn.
  - intros [= ->]. reflexivity.
  - destruct s as [|b s]; [discriminate |].
    destruct (Ascii.eqb a b) eqn:E; [| discriminate].
    apply Ascii.eqb_eq in E as ->. intros H. rewrite (IH _ H). reflexivity.
Qed.

Lemma literal_app (p r : string) : literal p (p +:+ r) = Some r.
Proof.
  induction p as [|a p IH]; [destruct r; reflexivity |].
  rewrite append_cons. cbn. rewrite Ascii.eqb_refl. exact IH.
Qed.

Lemma timeRe_at_split (s : string) (m : TimeMatch) :
  timeRe_at s = Some m ->
  exists post,
    s = "time=" +:+ m1 m +:+ ":" +:+ m2 m +:+ ":" +:+ m3 m +:+ "." +:+ m4 m +:+ post /\
    digit_run (m1 m) /\ digit_run (m2 m) /\ digit_run (m3 m) /\ digit_run (m4 m).
Proof.
  unfold timeRe_at. intros H.
  destruct (literal "time=" s) as [r0|] eqn:L0; cbn [mbind option_bind] in H; [| discriminate].
  destruct (digits1 r0) as [[g1 r1]|] eqn:D1; cbn [mbind option_bind] in H; [| discriminate].
  destruct (literal ":" r1) as [r2|] eqn:L1; cbn [mbind option_bind] in H; [| discriminate].
  destruct (digits1 r2) as [[g2 r3]|] eqn:D2; cbn [mbind option_bind] in H; [| discriminate].
  destruct (literal ":" r3) as [r4|] eqn:L2; cbn [mbind option_bind] in H; [| discriminate].
  destruct (digits1 r4) as [[g3 r5]|] eqn:D3; cbn [mbind option_bind] in H; [| discriminate].
  destruct (literal "." r5) as [r6|] eqn:L3; cbn [mbind option_bind] in H; [| discriminate].
  destruct (digits1 r6) as [[g4 r7]|] eqn:D4; cbn [mbind option_bind] in H; [| discriminate].
  injection H as <-. cbn [m1 m2 m3 m4].
  apply literal_split in L0, L1, L2, L3.
  apply digits1_split in D1 as (E1 & R1 & _), D2 as (E2 & R2 & _),
                         D3 as (E3 & R3 & _), D4 as (E4 & R4 & _).
  exists r7. subst. auto.
Qed.

Lemma timeRe_match_split (chunk : string) (m : TimeMatch) :
  timeRe_match chunk = Some m ->
  exists pre post,
    chunk = pre +:+ "time=" +:+ m1 m +:+ ":" +:+ m2 m +:+ ":" +:+ m3 m +:+ "." +:+
            m4 m +:+ post /\
    digit_run (m1 m) /\ digit_run (m2 m) /\ digit_run (m3 m) /\ digit_run (m4 m).
Proof.
  induction chunk as [|c chunk IH]; cbn -[timeRe_at].
  - destruct (timeRe_at "") as [m'|] eqn:E; [| discriminate].
    intros [= ->]. destruct (timeRe_at_split _ _ E) as (post & H & R).
    exists ""%string, post. auto.
  - destruct (timeRe_at (String c chunk)) as [m'|] eqn:E.
    + intros [= ->]. destruct (timeRe_at_split _ _ E) as (post & H & R).
      exists ""%string, post. auto.
    + intros H. destruct (IH H) as (pre & post & -> & R).
      exists (String c pre), post. auto.
Qed.

Lemma timeRe_at_head (hh mm ss f rest : string) :
  digit_run hh -> digit_run mm -> digit_run ss -> digit_run f ->
  starts_with_digit rest = false ->
  timeRe_at ("time=" +:+ hh +:+ ":" +:+ mm +:+ ":" +:+ ss +:+ "." +:+ f +:+ rest) =
  Some (mkTimeMatch hh mm ss f).
Proof.
  intros Hh Hm Hs Hf Hr. unfold timeRe_at.
  rewrite literal_app; cbn [mbind option_bind].
  rewrite digits1_app by (assumption || reflexivity); cbn [mbind option_bind].
  rewrite literal_app; cbn [mbind option_bind].
  rewrite digits1_app by (assumption || reflexivity); cbn [mbind option_bind].
  rewrite literal_app; cbn [mbind option_bind].
  rewrite digits1_app by (assumption || reflexivity); cbn [mbind option_bind].
  rewrite literal_app; cbn [mbind option_bind].
  rewrite digits1_app by assumption. reflexivity.
Qed.

Lemma timeRe_at_no_fraction (hh mm ss rest : string) :
  digit_run hh -> digit_run mm -> digit_run ss ->
  starts_with_digit rest = false -> starts_with_dot rest = false ->
  timeRe_at ("time=" +:+ hh +:+ ":" +:+ mm +:+ ":" +:+ ss +:+ rest) = None.
Proof.
  intros Hh Hm Hs Hr Hdot. unfold timeRe_at.
  rewrite literal_app; cbn [mbind option_bind].
  rewrite digits1_app by (assumption || reflexivity); cbn [mbind option_bind].
  rewrite literal_app; cbn [mbind option_bind].
  rewrite digits1_app by (assumption || reflexivity); cbn [mbind option_bind].
  rewrite literal_app; cbn [mbind option_bind].
  rewrite digits1_app by assumption; cbn [mbind option_bind].
  destruct rest as [|c rest]; [reflexivity |].
  cbn in Hdot. cbn [literal]. rewrite Ascii.eqb_sym, Hdot. reflexivity.
Qed.

Lemma timeRe_match_head (s : string) (m : TimeMatch) :
  timeRe_at s = Some m -> timeRe_match s = Some m.
Proof. intros H. destruct s; cbn -[timeRe_at]; rewrite H; reflexivity. Qed.

(** C10.  The parser's pattern matches only where [time=] is followed by
    three runs of digits separated by colons, a dot, and a further run of
    digits; a timestamp whose seconds are not followed by a dot and digits is
    not matched.  For a matched [time=hh:mm:ss.f] the elapsed time is
    [hh*3600 + mm*60 + ss + f/100] however many digits [f] has: [01.5] is read
    as 1.05 seconds and [01.500] as 6 seconds. *)
Theorem timestamp_needs_fraction_read_as_centiseconds :
  (forall chunk m, timeRe_match chunk = Some m ->
     exists pre post,
       chunk = pre +:+ "time=" +:+ m1 m +:+ ":" +:+ m2 m +:+ ":" +:+ m3 m +:+ "." +:+
               m4 m +:+ post /\
       digit_run (m1 m) /\ digit_run (m2 m) /\ digit_run (m3 m) /\ digit_run (m4 m)) /\
  (forall hh mm ss f rest,
     digit_run hh -> digit_run mm -> digit_run ss -> digit_run f ->
     starts_with_digit rest = false ->
     exists m,
       timeRe_match ("time=" +:+ hh +:+ ":" +:+ mm +:+ ":" +:+ ss +:+ "." +:+ f +:+ rest)
         = Some m /\
       (elapsed m == Number_of_digits hh * 3600 + Number_of_digits mm * 60 +
                     Number_of_digits ss + Number_of_digits f / 100)%Q) /\
  (forall hh mm ss rest,
     digit_run hh -> digit_run mm -> digit_run ss ->
     starts_with_digit rest = false -> starts_with_dot rest = false ->
     timeRe_at ("time=" +:+ hh +:+ ":" +:+ mm +:+ ":" +:+ ss +:+ rest) = None) /\
  (exists m, timeRe_match "size=0kB time=00:00:01.5 bitrate=N/A" = Some m /\
             (elapsed m == 1.05)%Q) /\
  (exists m, timeRe_match "size=0kB time=00:00:01.500 bitrate=N/A" = Some m /\
             (elapsed m == 6)%Q) /\
  timeRe_match "size=0kB time=00:00:05 bitrate=N/A" = None.
Proof.
  split; [exact timeRe_match_split |].
  split.
  { intros hh mm ss f rest Hh Hm Hs Hf Hr.
    exists (mkTimeMatch hh mm ss f). split.
    - apply timeRe_match_head, timeRe_at_head; assumption.
    - reflexivity. }
  split; [exact timeRe_at_no_fraction |].
  split; [eexists; split; reflexivity |].
  split; [eexists; split; reflexivity |].
  reflexivity.
Qed.

Lemma timestamp_needs_fraction_read_as_centiseconds_witness :
  (exists m, timeRe_match "time=01:02:03.45" = Some m /\
             (elapsed m == 1 * 3600 + 2 * 60 + 3 + 45 / 100)%Q) /\
  timeRe_at "time=01:02:03 " = None.
Proof.
  destruct timestamp_needs_fraction_read_as_centiseconds as (_ & Hhead & Hnone & _).
  split.
  - destruct (Hhead "01" "02" "03" "45" ""%string) as (m & Hm & Ht);
      try (split; [discriminate | reflexivity]); [reflexivity |].
    exists m. split; [exact Hm |]. rewrite Ht. reflexivity.
  - apply (Hnone "01" "02" "03" " "%string);
      try (split; [discriminate | reflexivity]); reflexivity.
Defined.

(** ** The progress parser *)

Section ParserFacts.
Local Open Scope Q_scope.

Lemma journal_setJob (jobId : string) (patch : Job) (w : World) :
  journal (setJob jobId patch w) =
  journal w ++ [FxSetJob jobId (spread (default emptyJob (jobs w !! jobId)) patch)].
Proof. reflexivity. Qed.

(** What one call of the closure does: nothing, or one publication of a
    percent in [0, 100] that is not below the last one. *)
Lemma feed_cases (p : Parser) (chunk : string) (w : World) :
  feed p chunk w = (p, w) \/
  exists m pct,
    timeRe_match chunk = Some m /\ ~ parser_durationSec p == 0 /\
    pct = clamp (elapsed m / parser_durationSec p * 100) 0 100 /\
    lastPct p <= pct /\ 0 <= pct <= 100 /\
    feed p chunk w =
      (mkParser (parser_durationSec p) (parser_jobId p) pct,
       setJob (parser_jobId p) (progress_patch pct) w).
Proof.
  unfold feed. destruct (timeRe_match chunk) as [m|]; [| left; reflexivity].
  destruct (Qeq_bool (parser_durationSec p) 0) eqn:Hd; [left; reflexivity |].
  destruct (Qle_bool (lastPct p) _) eqn:Hle; [| left; reflexivity].
  right. eexists m, _. split; [reflexivity |].
  split; [intros E; apply Qeq_bool_iff in E; congruence |].
  split; [reflexivity |].
  split; [apply Qle_bool_iff; exact Hle |].
  split; [apply clamp_bounds; discriminate | reflexivity].
Qed.

Lemma feed_silent (p : Parser) (chunk : string) (w : World) :
  timeRe_match chunk = None \/ parser_durationSec p == 0 -> feed p chunk w = (p, w).
Proof.
  unfold feed. intros [-> | Hd]; [reflexivity |].
  destruct (timeRe_match chunk); [| reflexivity].
  apply Qeq_bool_iff in Hd. rewrite Hd. reflexivity.
Qed.

Lemma chain_cons_Qle (q : Q) (l : list Q) :
  Forall (fun x => q <= x) l -> chain Qle l -> chain Qle (q :: l).
Proof.
  intros Hall Hl. destruct l as [|x l]; [exact I |].
  split; [| exact Hl]. exact (Forall_inv Hall).
Qed.

Lemma feed_all_publishes (chunks : list string) (p : Parser) (w : World) :
  0 <= lastPct p ->
  exists new,
    journal (feed_all p chunks w).2 = journal w ++ new /\
    (forall fx, In fx new ->
       exists r pct, fx = FxSetJob (parser_jobId p) r /\ percent r = Some pct) /\
    Forall (fun q => lastPct p <= q /\ 0 <= q <= 100) (percents_written new) /\
    chain Qle (percents_written new).
Proof.
  revert p w. induction chunks as [|chunk chunks IH]; intros p w Hp; cbn [feed_all].
  - exists []. rewrite app_nil_r. repeat split; [intros fx [] | constructor].
  - destruct (feed_cases p chunk w) as [-> | (m & pct & _ & _ & _ & Hle & Hb & ->)].
    + apply IH, Hp.
    + set (p' := mkParser _ _ pct). set (w' := setJob _ _ w).
      destruct (IH p' w') as (new & Hj & Hfx & Hall & Hch); [apply Hb |].
      exists (FxSetJob (parser_jobId p)
                (spread (default emptyJob (jobs w !! parser_jobId p)) (progress_patch pct))
              :: new).
      split; [| split; [| split]].
      * rewrite Hj. subst w'. rewrite journal_setJob, <- app_assoc. reflexivity.
      * intros fx [<- | Hin]; [eexists _, pct; split; reflexivity | apply Hfx, Hin].
      * cbn. constructor; [split; [exact Hle | exact Hb] |].
        eapply Forall_impl; [exact Hall |]. cbn. intros q [H1 H2].
        split; [apply Qle_trans with pct; assumption | exact H2].
      * cbn. apply chain_cons_Qle; [| exact Hch].
        eapply Forall_impl; [exact Hall |]. cbn. intros q [H1 _]. exact H1.
Qed.

(** C5.  One parser instance, fed any sequence of chunks, only appends
    writes of its own job's record to the journal; the percents it publishes
    lie in [0, 100] and never decrease; and on a chunk without a timestamp, or
    when the parser was made with duration zero, a call publishes nothing
    and leaves the parser and the world (the job record included) as they
    were. *)
Theorem parser_publishes_clamped_nondecreasing
    (durationSec : Q) (jobId : string) (chunks : list string) (w : World) :
  (exists new,
     journal (feed_all (makeProgressParser durationSec jobId) chunks w).2 =
       journal w ++ new /\
     (forall fx, In fx new -> exists r pct, fx = FxSetJob jobId r /\ percent r = Some pct) /\
     Forall (fun q => 0 <= q <= 100) (percents_written new) /\
     chain Qle (percents_written new)) /\
  (forall (p : Parser) (chunk : string) (w0 : World),
     timeRe_match chunk = None \/ parser_durationSec p == 0 ->
     feed p chunk w0 = (p, w0)).
Proof.
  split; [| exact feed_silent].
  destruct (feed_all_publishes chunks (makeProgressParser durationSec jobId) w)
    as (new & Hj & Hfx & Hall & Hch); [discriminate |].
  exists new. repeat split; try assumption.
  eapply Forall_impl; [exact Hall |]. cbn. intros q [_ H]. exact H.
Qed.
End ParserFacts.

Lemma parser_publishes_clamped_nondecreasing_witness :
  feed (makeProgressParser 10 "j1") "frame=1 fps=0.0 q=0.0 size=0kB" emptyWorld =
    (makeProgressParser 10 "j1", emptyWorld) /\
  feed (makeProgressParser 0 "j1") "time=00:00:05.00" emptyWorld =
    (makeProgressParser 0 "j1", emptyWorld).
Proof.
  split.
  - apply (parser_publishes_clamped_nondecreasing 10 "j1" [] emptyWorld).
    left. reflexivity.
  - apply (parser_publishes_clamped_nondecreasing 10 "j1" [] emptyWorld).
    right. reflexivity.
Defined.

(** ** Runs: what a callback changes about one job *)

Section ViewFacts.
Context {rt : Runtime}.
Implicit Types (j k : string) (w : World).

Lemma history_emit j fx w :
  history j (emit fx w) = history j w ++ option_list (observe j fx).
Proof.
  unfold history, emit; cbn. rewrite omap_app. cbn.
  destruct (observe j fx); reflexivity.
Qed.

Lemma observe_setJob j k r :
  observe j (FxSetJob k r) = if decide (k = j) then Some (Wrote r) else None.
Proof.
  cbn. destruct (decide (k = j)) as [->|Hne].
  - rewrite String.eqb_refl. reflexivity.
  - apply String.eqb_neq in Hne. rewrite Hne. reflexivity.
Qed.

Lemma observe_delete j k :
  observe j (FxDelete k) = if decide (k = j) then Some Removed else None.
Proof.
  cbn. destruct (decide (k = j)) as [->|Hne].
  - rewrite String.eqb_refl. reflexivity.
  - apply String.eqb_neq in Hne. rewrite Hne. reflexivity.
Qed.

Lemma view_setJob j k patch w :
  view j (setJob k patch w) =
  if decide (k = j)
  then let r := spread (default emptyJob (v_job (view j w))) patch in
       mkView (Some r) (v_task (view j w)) (v_hist (view j w) ++ [Wrote r])
  else view j w.
Proof.
  unfold view, setJob. rewrite history_emit, observe_setJob. cbn.
  destruct (decide (k = j)) as [->|Hne]; cbn.
  - rewrite lookup_insert_eq. reflexivity.
  - rewrite lookup_insert_ne by exact Hne. rewrite app_nil_r. reflexivity.
Qed.

Lemma view_stamp j k now w :
  view j (stamp k now w) =
  if decide (k = j)
  then mkView ((fun job => mkJob (status job) (percent job) (message job) (inputPath job)
                             (outputPath job) (outputBytes job) (error job) (Some now))
                 <$> v_job (view j w))
              (v_task (view j w)) (v_hist (view j w))
  else view j w.
Proof.
  unfold view, stamp. rewrite history_emit. cbn. rewrite app_nil_r.
  destruct (decide (k = j)) as [->|Hne]; cbn.
  - rewrite lookup_alter_eq. reflexivity.
  - rewrite lookup_alter_ne by exact Hne. reflexivity.
Qed.

Lemma view_deleteJob j k w :
  view j (deleteJob k w) =
  if decide (k = j)
  then mkView None (v_task (view j w)) (v_hist (view j w) ++ [Removed])
  else view j w.
Proof.
  unfold view, deleteJob. rewrite history_emit, observe_delete. cbn.
  destruct (decide (k = j)) as [->|Hne]; cbn.
  - rewrite lookup_delete_eq. reflexivity.
  - rewrite lookup_delete_ne by exact Hne. rewrite app_nil_r. reflexivity.
Qed.

Lemma view_spawn j cmd args w : view j (spawn cmd args w) = view j w.
Proof. unfold view, spawn. rewrite history_emit. cbn. rewrite app_nil_r. reflexivity. Qed.

Lemma view_respond j r w : view j (respond r w) = view j w.
Proof. unfold view, respond. rewrite history_emit. cbn. rewrite app_nil_r. reflexivity. Qed.

Lemma view_console j msg w : view j (emit (FxConsoleError msg) w) = view j w.
Proof. unfold view. rewrite history_emit. cbn. rewrite app_nil_r. reflexivity. Qed.

Lemma view_throw j error w : view j (emit (FxThrow error) w) = view j w.
Proof. unfold view. rewrite history_emit. cbn. rewrite app_nil_r. reflexivity. Qed.

Lemma view_unlinkSync j path w : view j (unlinkSync path w) = view j w.
Proof.
  unfold view, unlinkSync. rewrite history_emit. cbn. rewrite app_nil_r. reflexivity.
Qed.

Lemma view_suspend j k t w :
  view j (suspend k t w) =
  if decide (k = j)
  then mkView (v_job (view j w)) (Some t) (v_hist (view j w))
  else view j w.
Proof.
  unfold view, suspend, history; cbn.
  destruct (decide (k = j)) as [->|Hne]; cbn.
  - rewrite lookup_insert_eq. reflexivity.
  - rewrite lookup_insert_ne by exact Hne. reflexivity.
Qed.

Lemma view_finish j k w :
  view j (finish k w) =
  if decide (k = j)
  then mkView (v_job (view j w)) None (v_hist (view j w))
  else view j w.
Proof.
  unfold view, finish, history; cbn.
  destruct (decide (k = j)) as [->|Hne]; cbn.
  - rewrite lookup_delete_eq. reflexivity.
  - rewrite lookup_delete_ne by exact Hne. reflexivity.
Qed.

Lemma tasks_feed p d w : tasks (feed p d w).2 = tasks w.
Proof.
  destruct (feed_cases p d w) as [-> | (m & pct & _ & _ & _ & _ & _ & ->)]; reflexivity.
Qed.

Lemma parser_jobId_feed p d w :
  parser_jobId (feed p d w).1 = parser_jobId p.
Proof.
  destruct (feed_cases p d w) as [-> | (m & pct & _ & _ & _ & _ & _ & ->)]; reflexivity.
Qed.

Lemma view_feed_ne j p d w :
  parser_jobId p <> j -> view j (feed p d w).2 = view j w.
Proof.
  intros Hne.
  destruct (feed_cases p d w) as [-> | (m & pct & _ & _ & _ & _ & _ & ->)];
    [reflexivity |].
  cbn [snd]. rewrite view_setJob, decide_False by exact Hne. reflexivity.
Qed.
End ViewFacts.

Section StepFacts.
Context {rt : Runtime}.
Implicit Types (j k : string) (w : World).

Lemma view_setJob_ne j k patch w : k <> j -> view j (setJob k patch w) = view j w.
Proof. intros H. rewrite view_setJob, decide_False by exact H. reflexivity. Qed.

Lemma view_stamp_ne j k now w : k <> j -> view j (stamp k now w) = view j w.
Proof. intros H. rewrite view_stamp, decide_False by exact H. reflexivity. Qed.

Lemma view_deleteJob_ne j k w : k <> j -> view j (deleteJob k w) = view j w.
Proof. intros H. rewrite view_deleteJob, decide_False by exact H. reflexivity. Qed.

Lemma view_suspend_ne j k t w : k <> j -> view j (suspend k t w) = view j w.
Proof. intros H. rewrite view_suspend, decide_False by exact H. reflexivity. Qed.

Lemma view_finish_ne j k w : k <> j -> view j (finish k w) = view j w.
Proof. intros H. rewrite view_finish, decide_False by exact H. reflexivity. Qed.

Ltac view_ne :=
  repeat first
    [ rewrite view_setJob_ne by assumption
    | rewrite view_suspend_ne by assumption
    | rewrite view_finish_ne by assumption
    | rewrite view_stamp_ne by assumption
    | rewrite view_deleteJob_ne by assumption
    | rewrite view_spawn
    | rewrite view_respond
    | rewrite view_console
    | rewrite view_unlinkSync ].

Lemma view_catch_finally_ne j a msg w :
  arg_jobId a <> j -> view j (catch_finally a msg w) = view j w.
Proof. intros Hne. unfold catch_finally. view_ne. reflexivity. Qed.

Lemma view_after_probe_ne j a probe w :
  arg_jobId a <> j -> view j (after_probe a probe w) = view j w.
Proof.
  intros Hne. unfold after_probe.
  destruct (Qeq_bool _ _); [apply view_catch_finally_ne, Hne |].
  view_ne. reflexivity.
Qed.

Lemma view_after_pass1_ne j a plan w :
  arg_jobId a <> j -> view j (after_pass1 a plan w) = view j w.
Proof. intros Hne. unfold after_pass1. view_ne. reflexivity. Qed.

Lemma view_after_pass2_ne j a plan w :
  arg_jobId a <> j -> view j (after_pass2 a plan w) = view j w.
Proof.
  intros Hne. unfold after_pass2.
  destruct (files w !! _); [| apply view_catch_finally_ne, Hne].
  view_ne. reflexivity.
Qed.

(** A callback of another job, or a file written, changes nothing about
    job [j]. *)
Lemma step_frame j w e :
  tasks_wf w ->
  match e with
  | PostStart k _ | ChildStdout k _ | ChildStderr k _ | ChildClose k _ => k <> j
  | FileWritten _ _ | PostUnparsed _ => True
  | Tick _ => False
  end ->
  view j (step w e) = view j w.
Proof.
  intros Hwf He. destruct e as [k req|k d|k d|k code|path size|now|i]; cbn [step].
  - unfold post_start. destruct (req_file req); view_ne; reflexivity.
  - unfold on_stdout. destruct (tasks w !! k) as [[]|]; view_ne; reflexivity.
  - unfold on_stderr. destruct (tasks w !! k) as [t|] eqn:Ht; [| reflexivity].
    destruct (Hwf k t Ht) as [Ha Hp].
    destruct t as [a s|a o s|a plan s p|a plan s p]; cbn in Ha, Hp; view_ne;
      try reflexivity.
    + destruct (feed p d w) as [p' w'] eqn:Hf. view_ne.
      change w' with (p', w').2. rewrite <- Hf. apply view_feed_ne. congruence.
    + destruct (feed p d w) as [p' w'] eqn:Hf. view_ne.
      change w' with (p', w').2. rewrite <- Hf. apply view_feed_ne. congruence.
  - unfold on_close. destruct (tasks w !! k) as [t|] eqn:Ht; [| reflexivity].
    destruct (Hwf k t Ht) as [Ha _].
    destruct t as [a s|a o s|a plan s p|a plan s p]; cbn in Ha;
      destruct (exit_ok code);
      try (apply view_catch_finally_ne; congruence).
    + view_ne. reflexivity.
    + destruct (JSON_parse o);
        [apply view_catch_finally_ne | apply view_after_probe_ne]; congruence.
    + apply view_after_pass1_ne. congruence.
    + apply view_after_pass2_ne. congruence.
  - reflexivity.
  - contradiction.
  - apply view_throw.
Qed.

Lemma tasks_cleanup_entry now w entry : tasks (cleanup_entry now w entry) = tasks w.
Proof.
  destruct entry as [id job]. unfold cleanup_entry.
  destruct (createdAt job) as [c|]; [destruct (c =? 0) |];
    destruct (is_terminal (status job) && _); try reflexivity;
    destruct (outputPath job) as [p|]; try reflexivity;
    destruct (String.eqb p ""); reflexivity.
Qed.

Lemma tasks_cleanup now w : tasks (cleanup now w) = tasks w.
Proof.
  unfold cleanup. generalize (map_to_list (jobs w)). intros l. revert w.
  induction l as [|entry l IH]; intros w; cbn [fold_left]; [reflexivity |].
  rewrite IH. apply tasks_cleanup_entry.
Qed.

Lemma view_cleanup_entry_ne j k job now w :
  k <> j -> view j (cleanup_entry now w (k, job)) = view j w.
Proof.
  intros Hne. unfold cleanup_entry.
  destruct (createdAt job) as [c|]; [destruct (c =? 0) |];
    destruct (is_terminal (status job) && _);
    try (destruct (outputPath job) as [p|]; [destruct (String.eqb p "") |]);
    view_ne; reflexivity.
Qed.

Lemma view_cleanup_entry_eq j job now w :
  jobs w !! j = Some job ->
  view j (cleanup_entry now w (j, job)) =
  if purge_due now job
  then mkView None (tasks w !! j) (history j w ++ [Removed])
  else mkView (Some (stamped now job)) (tasks w !! j) (history j w).
Proof.
  intros Hj. unfold cleanup_entry, purge_due, stamped, anchor.
  destruct job as [st pc ms ip op ob er [c|]]; cbn [createdAt status outputPath];
    [destruct (c =? 0) |];
    destruct (is_terminal st && _);
    try (destruct op as [p|]; [destruct (String.eqb p "") |]);
    repeat first [ rewrite view_unlinkSync
                 | rewrite view_deleteJob, decide_True by reflexivity
                 | rewrite view_stamp, decide_True by reflexivity ];
    unfold view; cbn; rewrite ?Hj; reflexivity.
Qed.

Lemma view_cleanup_fold_ne j now l w :
  j ∉ l.*1 -> view j (fold_left (cleanup_entry now) l w) = view j w.
Proof.
  revert w. induction l as [|[k job] l IH]; intros w Hj; cbn [fold_left]; [reflexivity |].
  cbn in Hj. apply not_elem_of_cons in Hj as [Hne Hj].
  rewrite IH by exact Hj. apply view_cleanup_entry_ne. congruence.
Qed.

Lemma view_cleanup_fold_eq j job now l w :
  NoDup l.*1 -> (j, job) ∈ l -> jobs w !! j = Some job ->
  view j (fold_left (cleanup_entry now) l w) = view j (cleanup_entry now w (j, job)).
Proof.
  revert w. induction l as [|[k jk] l IH]; intros w Hnd Hin Hj; cbn [fold_left].
  - apply elem_of_nil in Hin. contradiction.
  - cbn in Hnd. apply NoDup_cons in Hnd as [Hk Hnd].
    apply elem_of_cons in Hin as [[= <- <-] | Hin].
    + apply view_cleanup_fold_ne, Hk.
    + assert (Hne : k <> j).
      { intros ->. apply Hk. apply list_elem_of_fmap. exists (j, job). auto. }
      pose proof (view_cleanup_entry_ne j k jk now w Hne) as E.
      assert (Hj' : jobs (cleanup_entry now w (k, jk)) !! j = Some job).
      { apply (f_equal v_job) in E. cbn [v_job view] in E. rewrite E. exact Hj. }
      rewrite (IH _ Hnd Hin Hj').
      rewrite !view_cleanup_entry_eq by assumption.
      apply (f_equal v_task) in E as Et. apply (f_equal v_hist) in E as Eh.
      cbn [v_task v_hist view] in Et, Eh. rewrite Et, Eh. reflexivity.
Qed.

(** What the cleanup changes about job [j]: nothing if it is not in the
    registry; otherwise it removes the record when the purge is due and
    stamps it when it is not. *)
Lemma view_cleanup j now w :
  view j (cleanup now w) =
  match jobs w !! j with
  | None => view j w
  | Some job =>
      if purge_due now job
      then mkView None (tasks w !! j) (history j w ++ [Removed])
      else mkView (Some (stamped now job)) (tasks w !! j) (history j w)
  end.
Proof.
  unfold cleanup. destruct (jobs w !! j) as [job|] eqn:Hj.
  - rewrite (view_cleanup_fold_eq j job).
    + apply view_cleanup_entry_eq, Hj.
    + apply NoDup_fst_map_to_list.
    + apply elem_of_map_to_list, Hj.
    + exact Hj.
  - apply view_cleanup_fold_ne. intros Hin.
    apply list_elem_of_fmap in Hin as ([k job] & -> & Hin).
    apply elem_of_map_to_list in Hin. cbn in Hin, Hj. congruence.
Qed.
End StepFacts.

Section InvariantFacts.
Context {rt : Runtime}.
Implicit Types (j k : string) (w : World) (v : View).

Lemma chain_snoc {A : Type} (R : A -> A -> Prop) (l : list A) (b : A) :
  chain R l -> (forall a, last l = Some a -> R a b) -> chain R (l ++ [b]).
Proof.
  induction l as [|a l IH]; intros Hl Hb; [exact I |].
  destruct l as [|a' l].
  - cbn. split; [apply Hb; reflexivity | exact I].
  - destruct Hl as [Haa' Hl]. split; [exact Haa' |].
    apply IH; [exact Hl |]. intros x Hx. apply Hb.
    rewrite last_cons_cons. exact Hx.
Qed.

Lemma starts_queued_snoc (h : list Obs) (o : Obs) :
  h <> [] -> starts_queued h -> starts_queued (h ++ [o]).
Proof. destruct h as [|a h]; [contradiction | intros _ H; exact H]. Qed.

Lemma agrees_refl (r : Job) : agrees r r.
Proof. repeat split. Qed.

(** A write that follows the last one by a step of the lifecycle. *)
Lemma view_inv_write v (r0 r : Job) (t' : option Task) :
  view_inv v -> last (v_hist v) = Some (Wrote r0) ->
  lifecycle (Wrote r0) (Wrote r) -> last_matches t' r ->
  view_inv (mkView (Some r) t' (v_hist v ++ [Wrote r])).
Proof.
  intros (Hch & Hq & _) Hlast Hstep Hm. unfold view_inv; cbn [v_hist v_job v_task].
  split; [| split].
  - apply chain_snoc; [exact Hch |]. intros a Ha.
    rewrite Hlast in Ha. injection Ha as <-. exact Hstep.
  - apply starts_queued_snoc; [| exact Hq]. intros E. rewrite E in Hlast. discriminate.
  - rewrite last_snoc. split; [| exact Hm]. exists r. split; [reflexivity | apply agrees_refl].
Qed.

(** The handler moves to another [await] without writing. *)
Lemma view_inv_retask v (r0 : Job) (t' : option Task) :
  view_inv v -> last (v_hist v) = Some (Wrote r0) -> last_matches t' r0 ->
  view_inv (mkView (v_job v) t' (v_hist v)).
Proof.
  intros (Hch & Hq & Hsync) Hlast Hm. unfold view_inv; cbn [v_hist v_job v_task].
  split; [exact Hch |]. split; [exact Hq |].
  rewrite Hlast in Hsync |- *. destruct Hsync as [Hjob _]. split; assumption.
Qed.

(** What the invariant says when the handler is suspended. *)
Lemma view_inv_suspended v (t : Task) :
  view_inv v -> v_task v = Some t ->
  exists r0 job,
    last (v_hist v) = Some (Wrote r0) /\ v_job v = Some job /\ agrees job r0 /\
    last_matches (Some t) r0 /\ status r0 = Some Running.
Proof.
  intros (_ & _ & Hsync) Ht.
  destruct (last (v_hist v)) as [[r0|]|];
    [| destruct Hsync; congruence | destruct Hsync; congruence].
  destruct Hsync as [(job & Hjob & Hag) Hm]. rewrite Ht in Hm.
  exists r0, job. repeat split; try assumption; try apply Hag.
  destruct t; apply Hm.
Qed.
End InvariantFacts.

Section OwnEvents.
Context {rt : Runtime}.
Implicit Types (j k : string) (w : World) (v : View).

Ltac view_own :=
  repeat first
    [ rewrite view_setJob, decide_True by congruence
    | rewrite view_suspend, decide_True by congruence
    | rewrite view_finish, decide_True by congruence
    | rewrite view_spawn
    | rewrite view_respond
    | rewrite view_console
    | rewrite view_unlinkSync ];
  cbv zeta; cbn [v_job v_task v_hist].

(** The lifecycle step of a write [spread job patch] after [r0]. *)
Ltac status_tac :=
  first [ solve [apply step_start; cbn; congruence]
        | solve [apply step_running; cbn; congruence]
        | solve [apply step_done; cbn; congruence]
        | solve [apply step_error; cbn; congruence] ].

Lemma job_inv_catch_finally j a msg w t :
  arg_jobId a = j -> tasks w !! j = Some t -> job_inv j w ->
  job_inv j (catch_finally a msg w).
Proof.
  intros Ha Ht Hinv. unfold job_inv in *.
  destruct (view_inv_suspended _ t Hinv Ht) as (r0 & job & Hlast & Hjob & Hag & _ & Hrun).
  unfold catch_finally. view_own. rewrite Hjob. cbn [default].
  apply view_inv_write with (r0 := r0); try assumption.
  - split; [status_tac |]. cbn. intros _ [=].
  - reflexivity.
Qed.

Lemma job_inv_after_probe j a probe w out err :
  arg_jobId a = j -> tasks w !! j = Some (AwaitProbeJson a out err) -> job_inv j w ->
  job_inv j (after_probe a probe w).
Proof.
  intros Ha Ht Hinv. unfold after_probe.
  destruct (Qeq_bool _ _); [eapply job_inv_catch_finally; eassumption |].
  unfold job_inv in *.
  destruct (view_inv_suspended _ _ Hinv Ht)
    as (r0 & job & Hlast & Hjob & (Hs & Hp & Hm) & [_ Hpct] & Hrun).
  view_own. rewrite Hjob. cbn [default].
  apply view_inv_write with (r0 := r0); try assumption.
  - split; [status_tac |]. cbn. intros _ _. left.
    exists 1%Q, 2%Q. repeat split; [exact Hpct | discriminate].
  - cbn. split; [congruence |]. left. split; reflexivity.
Qed.

Lemma job_inv_after_pass1 j a plan w s p :
  arg_jobId a = j -> tasks w !! j = Some (AwaitPass1 a plan s p) -> job_inv j w ->
  job_inv j (after_pass1 a plan w).
Proof.
  intros Ha Ht Hinv. unfold after_pass1, job_inv in *.
  destruct (view_inv_suspended _ _ Hinv Ht)
    as (r0 & job & Hlast & Hjob & (Hs & Hp & Hm) & _ & Hrun).
  view_own. rewrite Hjob. cbn [default].
  apply view_inv_write with (r0 := r0); try assumption.
  - split; [status_tac |]. cbn. intros _ _. right. left. split; reflexivity.
  - cbn. split; [congruence |]. left. split; reflexivity.
Qed.

Lemma job_inv_after_pass2 j a plan w s p :
  arg_jobId a = j -> tasks w !! j = Some (AwaitPass2 a plan s p) -> job_inv j w ->
  job_inv j (after_pass2 a plan w).
Proof.
  intros Ha Ht Hinv. unfold after_pass2.
  destruct (files w !! _); [| eapply job_inv_catch_finally; eassumption].
  unfold job_inv in *.
  destruct (view_inv_suspended _ _ Hinv Ht)
    as (r0 & job & Hlast & Hjob & (Hs & Hp & Hm) & _ & Hrun).
  view_own. rewrite Hjob. cbn [default].
  apply view_inv_write with (r0 := r0); try assumption.
  - split; [status_tac |]. cbn. intros _ [=].
  - reflexivity.
Qed.

(** A chunk for the parser of a running pass. *)
Lemma job_inv_feed j (t0 : Task) (mk : Parser -> Task) (milestone : Job -> Prop) p d w :
  (forall r, last_matches (Some t0) r <->
             status r = Some Running /\ (milestone r \/ percent r = Some (lastPct p))) ->
  (forall q r, last_matches (Some (mk q)) r <->
               status r = Some Running /\ (milestone r \/ percent r = Some (lastPct q))) ->
  (forall r r', milestone r -> percent_kept_within_pass (Wrote r) (Wrote r')) ->
  parser_jobId p = j -> tasks w !! j = Some t0 -> job_inv j w ->
  job_inv j (suspend j (mk (feed p d w).1) (feed p d w).2).
Proof.
  intros Ht0 Hmk Hmile Hp Ht Hinv. unfold job_inv in *.
  destruct (view_inv_suspended _ _ Hinv Ht)
    as (r0 & job & Hlast & Hjob & (Hs & Hpc & Hm) & Hmatch & Hrun).
  apply Ht0 in Hmatch as [_ Hmatch].
  destruct (feed_cases p d w) as [-> | (m & pct & _ & _ & _ & Hle & _ & ->)];
    cbn [fst snd]; view_own.
  - apply view_inv_retask with (r0 := r0); [exact Hinv | exact Hlast |].
    apply Hmk. auto.
  - rewrite Hjob. cbn [default].
    apply view_inv_write with (r0 := r0); try assumption.
    + split; [status_tac |].
      destruct Hmatch as [Hmil | Hpct]; [apply Hmile, Hmil |].
      cbn. intros _ _. left. exists (lastPct p), pct. auto.
    + apply Hmk. cbn. split; [congruence | right; reflexivity].
Qed.

Lemma job_inv_post_start j req w :
  job_inv j w -> history j w = [] -> job_inv j (post_start j req w).
Proof.
  intros Hinv Hh. unfold job_inv in *.
  destruct Hinv as (_ & _ & Hsync). unfold view in Hsync; cbn in Hsync.
  rewrite Hh in Hsync. cbn in Hsync. destruct Hsync as [Hjob Htask].
  unfold post_start. destruct (req_file req) as [inputPath|].
  - view_own. unfold view; cbn [v_job v_task v_hist]. rewrite Hjob, Hh. cbn [default app].
    unfold view_inv; cbn [v_job v_task v_hist last chain starts_queued].
    split; [| split; [reflexivity |]].
    + split; [| exact I]. split; [status_tac |]. cbn. intros [=].
    + split; [| split; reflexivity]. eexists. split; [reflexivity | apply agrees_refl].
  - rewrite view_respond. unfold view, view_inv; cbn [v_job v_task v_hist].
    rewrite Hh, Hjob, Htask. cbn. auto.
Qed.
End OwnEvents.

Section RunFacts.
Context {rt : Runtime}.
Implicit Types (j k : string) (w : World) (v : View).

Lemma tasks_wf_insert w w' k t :
  tasks_wf w -> task_wf k t -> tasks w' = <[k := t]> (tasks w) -> tasks_wf w'.
Proof.
  intros Hwf Ht E k' t'. rewrite E. intros H.
  apply lookup_insert_Some in H as [[<- <-] | [_ H]]; [exact Ht | apply Hwf, H].
Qed.

Lemma tasks_wf_delete w w' k :
  tasks_wf w -> tasks w' = delete k (tasks w) -> tasks_wf w'.
Proof.
  intros Hwf E k' t'. rewrite E. intros H.
  apply lookup_delete_Some in H as [_ H]. apply Hwf, H.
Qed.

Lemma tasks_wf_same w w' : tasks_wf w -> tasks w' = tasks w -> tasks_wf w'.
Proof. intros Hwf E k' t'. rewrite E. apply Hwf. Qed.

Lemma tasks_wf_empty : tasks_wf emptyWorld.
Proof. intros k t H. cbn in H. rewrite lookup_empty in H. discriminate. Qed.

Lemma step_tasks_wf w e : tasks_wf w -> tasks_wf (step w e).
Proof.
  intros Hwf. destruct e as [k req|k d|k d|k code|path size|now|i]; cbn [step].
  - unfold post_start. destruct (req_file req).
    + eapply tasks_wf_insert; [exact Hwf | | reflexivity]. split; [reflexivity | exact I].
    + eapply tasks_wf_same; [exact Hwf | reflexivity].
  - unfold on_stdout. destruct (tasks w !! k) as [t|] eqn:Ht; [| exact Hwf].
    pose proof (Hwf k t Ht) as Hk.
    destruct t; try exact Hwf.
    eapply tasks_wf_insert; [exact Hwf | | reflexivity].
    destruct Hk as [Ha Hp]. split; assumption.
  - unfold on_stderr. destruct (tasks w !! k) as [t|] eqn:Ht; [| exact Hwf].
    pose proof (Hwf k t Ht) as Hk.
    destruct t as [a s|a o s|a plan s p|a plan s p].
    + eapply tasks_wf_insert; [exact Hwf | | reflexivity].
      destruct Hk as [Ha Hp]. split; assumption.
    + eapply tasks_wf_insert; [exact Hwf | | reflexivity].
      destruct Hk as [Ha Hp]. split; assumption.
    + pose proof (tasks_feed p d w) as Et. pose proof (parser_jobId_feed p d w) as Ep.
      destruct (feed p d w) as [p' w']. cbn [fst snd] in Et, Ep.
      eapply tasks_wf_insert; [exact Hwf | | cbn; rewrite Et; reflexivity].
      destruct Hk as [Ha Hp]. split; [exact Ha | cbn in *; congruence].
    + pose proof (tasks_feed p d w) as Et. pose proof (parser_jobId_feed p d w) as Ep.
      destruct (feed p d w) as [p' w']. cbn [fst snd] in Et, Ep.
      eapply tasks_wf_insert; [exact Hwf | | cbn; rewrite Et; reflexivity].
      destruct Hk as [Ha Hp]. split; [exact Ha | cbn in *; congruence].
  - unfold on_close. destruct (tasks w !! k) as [t|] eqn:Ht; [| exact Hwf].
    destruct (Hwf k t Ht) as [Ha _].
    destruct t as [a s|a o s|a plan s p|a plan s p]; cbn in Ha;
      destruct (exit_ok code);
      try (eapply tasks_wf_delete; [exact Hwf | reflexivity]).
    + eapply tasks_wf_insert; [exact Hwf | | reflexivity]. split; [exact Ha | exact I].
    + destruct (JSON_parse o); [eapply tasks_wf_delete; [exact Hwf | reflexivity] |].
      unfold after_probe. destruct (Qeq_bool _ _).
      * eapply tasks_wf_delete; [exact Hwf | reflexivity].
      * eapply tasks_wf_insert; [exact Hwf | | reflexivity]. split; reflexivity.
    + unfold after_pass1.
      eapply tasks_wf_insert; [exact Hwf | | reflexivity]. split; reflexivity.
    + unfold after_pass2. destruct (files w !! _);
        (eapply tasks_wf_delete; [exact Hwf | reflexivity]).
  - eapply tasks_wf_same; [exact Hwf | reflexivity].
  - eapply tasks_wf_same; [exact Hwf | apply tasks_cleanup].
  - eapply tasks_wf_same; [exact Hwf | reflexivity].
Qed.

Lemma job_inv_cleanup j now w : job_inv j w -> job_inv j (cleanup now w).
Proof.
  unfold job_inv. intros Hinv. rewrite view_cleanup.
  destruct (jobs w !! j) as [job|] eqn:Hj; [| exact Hinv].
  destruct Hinv as (Hch & Hq & Hsync). unfold view in *; cbn [v_job v_task v_hist] in *.
  destruct (last (history j w)) as [[r0|]|] eqn:Hlast;
    [| destruct Hsync; congruence | destruct Hsync; congruence].
  destruct Hsync as [(job' & Hjob' & Hag) Hm].
  assert (job' = job) as -> by congruence.
  destruct (purge_due now job) eqn:Hdue; unfold view_inv; cbn [v_job v_task v_hist].
  - apply andb_true_iff in Hdue as [Hterm _].
    assert (Hterm0 : is_terminal (status r0) = true).
    { destruct Hag as [<- _]. exact Hterm. }
    assert (Htask : tasks w !! j = None).
    { destruct (tasks w !! j) as [t|]; [| reflexivity].
      assert (status r0 = Some Running) as E by (destruct t; apply Hm).
      rewrite E in Hterm0. discriminate. }
    split; [| split].
    + apply chain_snoc; [exact Hch |]. intros a Ha.
      rewrite Hlast in Ha. injection Ha as <-.
      split; [apply step_purge, Hterm0 | exact I].
    + apply starts_queued_snoc; [| exact Hq]. intros E. rewrite E in Hlast. discriminate.
    + rewrite last_snoc. auto.
  - split; [exact Hch |]. split; [exact Hq |]. rewrite Hlast.
    split; [| exact Hm]. exists (stamped now job). split; [reflexivity | exact Hag].
Qed.

(** Every callback keeps the invariant of every job, provided a request is
    given an identifier that no job has had. *)
Lemma step_job_inv j w e :
  tasks_wf w -> job_inv j w ->
  (forall req, e = PostStart j req -> history j w = []) ->
  job_inv j (step w e).
Proof.
  intros Hwf Hinv Hfresh.
  assert (Hframe : match e with
                   | PostStart k _ | ChildStdout k _ | ChildStderr k _
                   | ChildClose k _ => k <> j
                   | FileWritten _ _ | PostUnparsed _ => True
                   | Tick _ => False
                   end -> job_inv j (step w e)).
  { intros H. unfold job_inv. rewrite step_frame by assumption. exact Hinv. }
  destruct e as [k req|k d|k d|k code|path size|now|i];
    try (destruct (decide (k = j)) as [->|Hne]; [| apply Hframe, Hne]);
    cbn [step].
  - apply job_inv_post_start; [exact Hinv | eapply Hfresh; reflexivity].
  - unfold on_stdout. destruct (tasks w !! j) as [t|] eqn:Ht; [| exact Hinv].
    destruct t as [a s|a o s|a plan s p|a plan s p]; try exact Hinv.
    unfold job_inv in *. rewrite view_suspend, decide_True by reflexivity.
    destruct (view_inv_suspended _ _ Hinv Ht) as (r0 & job & Hlast & _ & _ & Hm & _).
    apply view_inv_retask with (r0 := r0); assumption.
  - unfold on_stderr. destruct (tasks w !! j) as [t|] eqn:Ht; [| exact Hinv].
    destruct (Hwf j t Ht) as [Ha Hp].
    destruct t as [a s|a o s|a plan s p|a plan s p]; cbn in Ha, Hp.
    + unfold job_inv in *. rewrite view_suspend, decide_True by reflexivity.
      destruct (view_inv_suspended _ _ Hinv Ht) as (r0 & job & Hlast & _ & _ & Hm & _).
      apply view_inv_retask with (r0 := r0); assumption.
    + unfold job_inv in *. rewrite view_suspend, decide_True by reflexivity.
      destruct (view_inv_suspended _ _ Hinv Ht) as (r0 & job & Hlast & _ & _ & Hm & _).
      apply view_inv_retask with (r0 := r0); assumption.
    + pose proof (job_inv_feed j (AwaitPass1 a plan s p)
                    (fun q => AwaitPass1 a plan (s +:+ d) q) pass1_milestone p d w) as H.
      destruct (feed p d w) as [p' w']. apply H; clear H; try assumption.
      * intros r. reflexivity.
      * intros q r. reflexivity.
      * intros r r' Hr. cbn. auto.
    + pose proof (job_inv_feed j (AwaitPass2 a plan s p)
                    (fun q => AwaitPass2 a plan (s +:+ d) q) pass2_milestone p d w) as H.
      destruct (feed p d w) as [p' w']. apply H; clear H; try assumption.
      * intros r. reflexivity.
      * intros q r. reflexivity.
      * intros r r' Hr. cbn. auto.
  - unfold on_close. destruct (tasks w !! j) as [t|] eqn:Ht; [| exact Hinv].
    destruct (Hwf j t Ht) as [Ha _].
    destruct t as [a s|a o s|a plan s p|a plan s p]; cbn in Ha;
      destruct (exit_ok code).
    + unfold job_inv in *. rewrite view_suspend, decide_True by reflexivity.
      rewrite view_spawn.
      destruct (view_inv_suspended _ _ Hinv Ht) as (r0 & job & Hlast & _ & _ & Hm & _).
      apply view_inv_retask with (r0 := r0); assumption.
    + eapply job_inv_catch_finally; eassumption.
    + destruct (JSON_parse o);
        [eapply job_inv_catch_finally | eapply job_inv_after_probe]; eassumption.
    + eapply job_inv_catch_finally; eassumption.
    + eapply job_inv_after_pass1; eassumption.
    + eapply job_inv_catch_finally; eassumption.
    + eapply job_inv_after_pass2; eassumption.
    + eapply job_inv_catch_finally; eassumption.
  - apply Hframe. exact I.
  - apply job_inv_cleanup, Hinv.
  - apply Hframe. exact I.
Qed.
End RunFacts.

Section LifecycleFacts.
Context {rt : Runtime}.
Implicit Types (j k : string) (w : World) (v : View).

Lemma job_inv_emptyWorld j : job_inv j emptyWorld.
Proof.
  unfold job_inv, view_inv, view, history; cbn. rewrite !lookup_empty. auto.
Qed.

Lemma step_history_empty j w e :
  tasks_wf w -> job_inv j w -> history j w = [] ->
  (forall req, e <> PostStart j req) ->
  history j (step w e) = [].
Proof.
  intros Hwf Hinv Hh Hfresh.
  destruct Hinv as (_ & _ & Hsync). unfold view in Hsync; cbn in Hsync.
  rewrite Hh in Hsync. cbn in Hsync. destruct Hsync as [Hjob Htask].
  assert (Hframe : match e with
                   | PostStart k _ | ChildStdout k _ | ChildStderr k _
                   | ChildClose k _ => k <> j
                   | FileWritten _ _ | PostUnparsed _ => True
                   | Tick _ => False
                   end -> history j (step w e) = []).
  { intros H. change (v_hist (view j (step w e)) = []).
    rewrite step_frame by assumption. exact Hh. }
  destruct e as [k req|k d|k d|k code|path size|now|i];
    try (destruct (decide (k = j)) as [->|Hne]; [| apply Hframe, Hne]);
    cbn [step].
  - exfalso. eapply Hfresh. reflexivity.
  - unfold on_stdout. rewrite Htask. exact Hh.
  - unfold on_stderr. rewrite Htask. exact Hh.
  - unfold on_close. rewrite Htask. exact Hh.
  - apply Hframe. exact I.
  - change (v_hist (view j (cleanup now w)) = []).
    rewrite view_cleanup, Hjob. exact Hh.
  - apply Hframe. exact I.
Qed.

Lemma run_events_app (l1 l2 : list Event) w :
  run_events (l1 ++ l2) w = run_events l2 (run_events l1 w).
Proof. apply fold_left_app. Qed.

(** The invariant holds along every run in which no identifier is given to
    two requests. *)
Lemma run_job_inv j (events : list Event) w :
  tasks_wf w -> job_inv j w -> NoDup (post_ids events) ->
  (j ∈ post_ids events -> history j w = []) ->
  job_inv j (run_events events w).
Proof.
  revert w. induction events as [|e events IH]; intros w Hwf Hinv Hnd Hfresh;
    [exact Hinv |].
  cbn [run_events fold_left]. apply IH.
  - apply step_tasks_wf, Hwf.
  - apply step_job_inv; [exact Hwf | exact Hinv |].
    intros req ->. apply Hfresh. cbn. apply elem_of_cons. left. reflexivity.
  - destruct e; cbn in Hnd; try exact Hnd. apply NoDup_cons in Hnd as [_ Hnd]. exact Hnd.
  - intros Hin.
    assert (Hnot : forall req, e <> PostStart j req).
    { intros req ->. cbn in Hnd. apply NoDup_cons in Hnd as [Hnd _]. contradiction. }
    apply step_history_empty; [exact Hwf | exact Hinv | | exact Hnot].
    apply Hfresh. destruct e; cbn; try exact Hin. apply elem_of_cons. right. exact Hin.
Qed.

Lemma reachable_view_inv j (events : list Event) :
  NoDup (post_ids events) -> view_inv (view j (run_events events emptyWorld)).
Proof.
  intros Hnd. apply run_job_inv; [apply tasks_wf_empty | apply job_inv_emptyWorld
                                 | exact Hnd | reflexivity].
Qed.

Lemma chain_impl {A : Type} (R R' : A -> A -> Prop) (l : list A) :
  (forall a b, R a b -> R' a b) -> chain R l -> chain R' l.
Proof.
  intros HR. induction l as [|a l IH]; [exact id |].
  destruct l as [|b l]; [exact id |].
  intros [Hab Hl]. split; [apply HR, Hab | apply IH, Hl].
Qed.

Lemma chain_lookup {A : Type} (R : A -> A -> Prop) (l : list A) (i : nat) (a b : A) :
  chain R l -> l !! i = Some a -> l !! S i = Some b -> R a b.
Proof.
  revert i. induction l as [|x l IH]; intros i Hl Ha Hb; [discriminate |].
  destruct l as [|y l]; [discriminate |]. destruct Hl as [Hxy Hl].
  destruct i as [|i]; cbn in Ha, Hb.
  - injection Ha as <-. injection Hb as <-. exact Hxy.
  - apply (IH i Hl Ha Hb).
Qed.

(** After a terminal write the history holds at most the removal. *)
Lemma chain_status_terminal (r : Job) (rest : list Obs) :
  chain status_step (Wrote r :: rest) -> is_terminal (status r) = true ->
  rest = [] \/ rest = [Removed].
Proof.
  intros Hch Hterm. destruct rest as [|o rest]; [left; reflexivity | right].
  destruct Hch as [Hstep Hch].
  inversion Hstep as [r1 r2 H1 H2|r1 r2 H1 H2|r1 r2 H1 H2|r1 r2 H1 H2|r1 H1]; subst;
    try (rewrite H1 in Hterm; discriminate).
  destruct rest as [|o rest]; [reflexivity |].
  destruct Hch as [Hstep' _]. inversion Hstep'.
Qed.

Lemma chain_app_r {A : Type} (R : A -> A -> Prop) (l1 l2 : list A) :
  chain R (l1 ++ l2) -> chain R l2.
Proof.
  induction l1 as [|a l1 IH]; [exact id |].
  cbn [app]. destruct (l1 ++ l2) eqn:E.
  - destruct l2; [intros _; exact I | destruct l1; discriminate].
  - intros [_ H]. apply IH, H.
Qed.

(** C4.  In every run whose requests get distinct identifiers, the records
    written for a job follow [queued -> running -> {done | error}]: the first
    write is [queued], every later write follows the previous one by one of
    the steps of [status_step], and once [done] or [error] is written no
    write to the job follows; at most the cleanup removes the record. *)
Theorem status_follows_lifecycle (events : list Event) (jobId : string) :
  NoDup (post_ids events) ->
  let h := history jobId (run_events events emptyWorld) in
  chain status_step h /\
  starts_queued h /\
  (forall h1 r h2, h = h1 ++ Wrote r :: h2 -> is_terminal (status r) = true ->
     h2 = [] \/ h2 = [Removed]).
Proof.
  intros Hnd h.
  destruct (reachable_view_inv jobId events Hnd) as (Hch & Hq & _).
  assert (Hst : chain status_step h).
  { eapply chain_impl; [| exact Hch]. intros a b [H _]. exact H. }
  split; [exact Hst |]. split; [exact Hq |].
  intros h1 r h2 E Hterm. rewrite E in Hst.
  apply chain_app_r in Hst. eapply chain_status_terminal; eassumption.
Qed.

(** C2, as amended.  In every run whose requests get distinct identifiers,
    two successive writes to a running job never lower [percent], except
    across the start of a pass: the write of the pass-2 milestone (50), and
    the first write after the pass-1 or pass-2 milestone (2 or 50), which is
    the first publication of that pass's progress parser. *)
Theorem percent_kept_except_at_pass_start (events : list Event) (jobId : string) :
  NoDup (post_ids events) ->
  chain percent_kept_within_pass (history jobId (run_events events emptyWorld)).
Proof.
  intros Hnd.
  destruct (reachable_view_inv jobId events Hnd) as (Hch & _ & _).
  eapply chain_impl; [| exact Hch]. intros a b [_ H]. exact H.
Qed.
End LifecycleFacts.

Lemma NoDup_pass1_to_90 : NoDup (post_ids pass1_to_90_events).
Proof. apply NoDup_singleton. Qed.

Lemma status_follows_lifecycle_witness :
  chain status_step
    (history "j1" (run_events (rt := sampleRuntime) pass1_to_90_events emptyWorld)).
Proof.
  apply (status_follows_lifecycle (rt := sampleRuntime) pass1_to_90_events "j1").
  apply (bool_decide_unpack _). vm_compute. exact I.
Defined.

Lemma percent_kept_except_at_pass_start_witness :
  chain percent_kept_within_pass
    (history "j1" (run_events (rt := sampleRuntime) pass1_to_90_events emptyWorld)).
Proof.
  apply (percent_kept_except_at_pass_start (rt := sampleRuntime) pass1_to_90_events "j1").
  apply (bool_decide_unpack _). vm_compute. exact I.
Defined.

(** C2, as stated, fails: pass 1 reports 90% and the start of pass 2 then
    sets the running job's percent to 50. *)
Lemma percent_lowered_at_pass2_start : ~ percent_never_lowered_while_running.
Proof.
  intros H.
  specialize (H sampleRuntime pass1_to_90_events "j1"%string NoDup_pass1_to_90).
  eapply (chain_lookup _ _ 3) in H; [| vm_compute; reflexivity | vm_compute; reflexivity].
  destruct H as (p & p' & Hp & Hp' & Hle); [reflexivity | reflexivity |].
  cbn in Hp, Hp'. injection Hp as <-. injection Hp' as <-.
  revert Hle. vm_compute. intros Hle. apply Hle. reflexivity.
Qed.

(** ** The prober's report *)

Section ProbeFacts.
Context {rt : Runtime}.
Implicit Types (j k : string) (w : World).

Lemma finite_positive_or_zero_unusable (n : JsNumber) :
  match n with Fin q => (q <= 0)%Q | _ => True end ->
  Qeq_bool (finite_positive_or_zero n) 0 = true.
Proof.
  destruct n as [| | |q]; try reflexivity. intros Hq. cbn.
  destruct (Qlt_bool 0 q) eqn:E; [| reflexivity].
  apply Qlt_bool_iff in E. exfalso. lra.
Qed.

Lemma duration_unusable_zero (probe : Probe) :
  duration_unusable probe -> Qeq_bool (parseDurationSeconds probe) 0 = true.
Proof.
  unfold duration_unusable, parseDurationSeconds, format_duration.
  destruct (format probe) as [f|]; [| reflexivity].
  unfold or_0. destruct (truthy (duration f)) eqn:Ht; [| reflexivity].
  destruct (duration f) as [| |b|n|s|p]; try discriminate;
    apply finite_positive_or_zero_unusable.
Qed.

Lemma run_events_cons (e : Event) (l : list Event) w :
  run_events (e :: l) w = run_events l (step w e).
Proof. reflexivity. Qed.

Lemma run_events_single (e : Event) w : run_events [e] w = step w e.
Proof. reflexivity. Qed.

Lemma run_data_probe_run j a (os : list Output) w s :
  tasks w !! j = Some (AwaitProbeRun a s) ->
  let w' := run_events (map (data_event j) os) w in
  jobs w' = jobs w /\ journal w' = journal w /\
  exists s', tasks w' !! j = Some (AwaitProbeRun a s').
Proof.
  revert w s. induction os as [|o os IH]; intros w s Ht; cbn [map]; [cbn; eauto | rewrite run_events_cons].
  destruct o as [d|d]; cbn [data_event step].
    + unfold on_stdout. rewrite Ht. apply (IH w s Ht).
    + unfold on_stderr. rewrite Ht.
      destruct (IH (suspend j (AwaitProbeRun a (s +:+ d)) w) (s +:+ d)) as (Hj & Hl & Hs).
      { cbn. apply lookup_insert_eq. }
      auto.
Qed.

Lemma run_data_probe_json j a (os : list Output) w out err :
  tasks w !! j = Some (AwaitProbeJson a out err) ->
  let w' := run_events (map (data_event j) os) w in
  jobs w' = jobs w /\ journal w' = journal w /\
  exists err', tasks w' !! j = Some (AwaitProbeJson a (stdout_text out os) err').
Proof.
  revert w out err. induction os as [|o os IH]; intros w out err Ht;
    cbn [map]; [cbn; eauto | rewrite run_events_cons; cbn [stdout_text fold_left]].
  destruct o as [d|d]; cbn [data_event step].
    + unfold on_stdout. rewrite Ht.
      destruct (IH (suspend j (AwaitProbeJson a (out +:+ d) err) w) (out +:+ d) err)
        as (Hj & Hl & Hs).
      { cbn. apply lookup_insert_eq. }
      auto.
    + unfold on_stderr. rewrite Ht.
      destruct (IH (suspend j (AwaitProbeJson a out (err +:+ d)) w) out (err +:+ d))
        as (Hj & Hl & Hs).
      { cbn. apply lookup_insert_eq. }
      auto.
Qed.

(** C8.  When the report's container-level duration is absent, not a finite
    number, or not positive, the job goes from [running] straight to
    [error] with the message "Could not read duration.": between the second
    prober run and the end of the handler the program writes the error
    record and deletes the input, and in the whole run it starts no
    transcoder process and writes no pass milestone. *)
Theorem unusable_duration_fails_before_planning
    (w0 : World) (jobId inputPath : string) (req : StartRequest)
    (run1 run2 : list Output) (probe : Probe) :
  req_file req = Some inputPath ->
  JSON_parse (stdout_text "" run2) = inr probe ->
  duration_unusable probe ->
  let w := run_events (probe_events jobId req run1 run2) w0 in
  exists queued running failed,
    journal w =
      journal w0 ++
      [FxSetJob jobId queued;
       FxRespond (Json 200 (BodyJobId jobId));
       FxSetJob jobId running;
       FxSpawn "ffprobe" (ffprobeArgs inputPath);
       FxSpawn "ffprobe" (ffprobeArgs inputPath);
       FxConsoleError "Could not read duration.";
       FxSetJob jobId failed;
       FxUnlink inputPath] /\
    status queued = Some Queued /\
    status running = Some Running /\ percent running = Some 1%Q /\
    status failed = Some Error /\
    error failed = Some "Could not read duration."%string /\
    jobs w !! jobId = Some failed /\
    tasks w !! jobId = None /\
    (forall new args, journal w = journal w0 ++ new -> FxSpawn "ffmpeg" args ∉ new).
Proof.
  intros Hfile Hparse Hbad w. subst w. unfold probe_events.
  rewrite run_events_cons, run_events_app, run_events_cons, run_events_app,
          run_events_single.
  set (a := mkEncodeArgs jobId inputPath (workDir +:+ "/out-" +:+ jobId +:+ ".mp4")
              (req_targetMB req)
              match req_codec req with
              | Some c => if String.eqb c "h265" then "h265" else "h264"
              | None => "h264"
              end
              (req_audioKbps req)
              match req_autoQuality req with
              | Some q => if String.eqb q "off" then "off" else "on"
              | None => "on"
              end%string).
  set (w1 := step w0 (PostStart jobId req)).
  assert (Ht1 : tasks w1 !! jobId = Some (AwaitProbeRun a "")).
  { subst w1. cbn [step]. unfold post_start. rewrite Hfile. cbn. apply lookup_insert_eq. }
  destruct (run_data_probe_run jobId a run1 w1 ""%string Ht1) as (Hj2 & Hl2 & s' & Ht2).
  set (w2 := run_events (map (data_event jobId) run1) w1) in *.
  set (w3 := step w2 (ChildClose jobId (Some 0))).
  assert (Ht3 : tasks w3 !! jobId = Some (AwaitProbeJson a "" "")).
  { subst w3. cbn [step]. unfold on_close. rewrite Ht2. cbn. apply lookup_insert_eq. }
  destruct (run_data_probe_json jobId a run2 w3 ""%string ""%string Ht3)
    as (Hj4 & Hl4 & err' & Ht4).
  set (w4 := run_events (map (data_event jobId) run2) w3) in *.
  assert (E5 : step w4 (ChildClose jobId (Some 0)) =
               catch_finally a "Could not read duration." w4).
  { cbn [step]. unfold on_close. rewrite Ht4. cbn [exit_ok Z.eqb].
    rewrite Hparse. unfold after_probe. rewrite (duration_unusable_zero _ Hbad).
    reflexivity. }
  rewrite E5.
  assert (Hjob4 : exists running, jobs w4 !! jobId = Some running /\
                    status running = Some Running /\ percent running = Some 1%Q /\
                    exists queued, status queued = Some Queued /\
                    journal w4 = journal w0 ++
                      [FxSetJob jobId queued; FxRespond (Json 200 (BodyJobId jobId));
                       FxSetJob jobId running; FxSpawn "ffprobe" (ffprobeArgs inputPath);
                       FxSpawn "ffprobe" (ffprobeArgs inputPath)]).
  { rewrite Hj4, Hl4. subst w3. cbn [step]. unfold on_close. rewrite Ht2.
    cbn [exit_ok Z.eqb jobs journal suspend spawn emit].
    rewrite Hj2, Hl2. subst w1. cbn [step]. unfold post_start. rewrite Hfile.
    cbn [jobs journal suspend spawn emit respond setJob].
    eexists. split; [apply lookup_insert_eq |].
    split; [reflexivity |]. split; [reflexivity |].
    eexists. split; [| rewrite <- !app_assoc; reflexivity]. reflexivity. }
  destruct Hjob4 as (running & Hjr & Hsr & Hpr & queued & Hsq & Hlog).
  assert (Hfinal :
    journal (catch_finally a "Could not read duration." w4) =
      journal w0 ++
      [FxSetJob jobId queued; FxRespond (Json 200 (BodyJobId jobId));
       FxSetJob jobId running; FxSpawn "ffprobe" (ffprobeArgs inputPath);
       FxSpawn "ffprobe" (ffprobeArgs inputPath);
       FxConsoleError "Could not read duration.";
       FxSetJob jobId
         (spread running
            (mkJob (Some Error) (Some 0%Q) (Some "Error"%string) None None None
                   (Some "Could not read duration."%string) None));
       FxUnlink inputPath]).
  { cbn. rewrite Hjr, Hlog. cbn. rewrite <- !app_assoc. reflexivity. }
  eexists queued, running, _.
  split; [exact Hfinal |].
  split; [exact Hsq |]. split; [exact Hsr |]. split; [exact Hpr |].
  split; [reflexivity |]. split; [reflexivity |].
  split; [cbn; rewrite Hjr; apply lookup_insert_eq |].
  split; [cbn; apply lookup_delete_eq |].
  intros new args Hnew Hin. rewrite Hfinal in Hnew. apply app_inv_head in Hnew. subst new.
  repeat (apply elem_of_cons in Hin as [Hin | Hin]; [discriminate |]).
  apply elem_of_nil in Hin. exact Hin.
Qed.
End ProbeFacts.

Lemma unusable_duration_fails_before_planning_witness :
  exists failed,
    jobs (run_events (rt := sampleRuntime)
            (probe_events "j1" sample_request []
               [OnStdout "report-no-"; OnStderr "warning"; OnStdout "duration"])
            emptyWorld) !! "j1" = Some failed /\
    status failed = Some Error.
Proof.
  destruct (unusable_duration_fails_before_planning (rt := sampleRuntime)
              emptyWorld "j1" "/tmp/navine/uploads/f00d" sample_request []
              [OnStdout "report-no-"; OnStderr "warning"; OnStdout "duration"]
              report_no_duration eq_refl eq_refl I)
    as (queued & running & failed & _ & _ & _ & _ & Hs & _ & Hj & _).
  exists failed. split; [exact Hj | exact Hs].
Defined.

(** ** The cleanup *)

(** C3, on the code.  A job that is still running at the cleanup of minute
    35 and finishes before the cleanup of minute 40 is [done] with its output
    in place, and that next cleanup removes the record and deletes the
    output: [createdAt] was set by the first cleanup that saw the job, at
    minute 5, so the job's age is 35 minutes although it has been [done]
    for less than five. *)
Theorem cleanup_purges_job_minutes_after_done :
  let at35 := run_events (rt := sampleRuntime) encode_until_minute_35 emptyWorld in
  let finished := run_events (rt := sampleRuntime) encode_finishes at35 in
  let swept := step (rt := sampleRuntime) finished (Tick (minutes 40)) in
  (exists job, jobs at35 !! "j1" = Some job /\ status job = Some Running /\
               createdAt job = Some (minutes 5)) /\
  (exists job, jobs finished !! "j1" = Some job /\ status job = Some Done /\
               createdAt job = Some (minutes 5)) /\
  files finished !! "/tmp/navine/out-j1.mp4" = Some 1000 /\
  get_download finished "j1" = Download "/tmp/navine/out-j1.mp4" "navine-j1.mp4" /\
  jobs swept !! "j1" = None /\
  files swept !! "/tmp/navine/out-j1.mp4" = None /\
  get_progress swept "j1" = Json 404 (BodyStatus "missing") /\
  get_download swept "j1" = Send 404 "Missing job.".
Proof.
  cbv zeta.
  split; [eexists; split; [vm_compute; reflexivity | split; reflexivity] |].
  split; [eexists; split; [vm_compute; reflexivity | split; reflexivity] |].
  repeat split; vm_compute; reflexivity.
Qed.

(** ** The model on concrete inputs *)

Example computeBitrates_scenario : computeBitrates 499 600 128 = 6848%Q.
Proof. reflexivity. Qed.

Example computeBitrates_floor : computeBitrates 1 600 128 = 200%Q.
Proof. reflexivity. Qed.

Example computeBitrates_ceiling : computeBitrates 499 10 128 = 50000%Q.
Proof. reflexivity. Qed.

Example toFixed1_rounds_half_up : toFixed1 (1 # 4) = "0.3"%string.
Proof. reflexivity. Qed.

Example toFixed1_hundred : toFixed1 100 = "100.0"%string.
Proof. reflexivity. Qed.

Example timeRe_match_sample :
  timeRe_match "frame=  10 fps=0.0 q=0.0 size=0kB time=00:01:02.50 bitrate=N/A" =
  Some (mkTimeMatch "00" "01" "02" "50").
Proof. reflexivity. Qed.

Example timeRe_match_leftmost :
  timeRe_match "time=00:00:01.00 time=00:00:02.00" = Some (mkTimeMatch "00" "00" "01" "00").
Proof. reflexivity. Qed.

Example parseDurationSeconds_sample :
  (parseDurationSeconds (rt := sampleRuntime) report_10s == 10)%Q /\
  parseDurationSeconds (rt := sampleRuntime) report_no_duration = 0%Q.
Proof. split; reflexivity. Qed.

(** The statuses written for the job of the sample run, and its removal. *)
Example encode_history :
  map obs_status
      (history "j1"
         (run_events (rt := sampleRuntime)
            (encode_until_minute_35 ++ encode_finishes ++ [Tick (minutes 40)])
            emptyWorld)) =
  [Some Queued; Some Running; Some Running; Some Running; Some Running; Some Running;
   Some Done; None].
Proof. vm_compute. reflexivity. Qed.

(** The percents written in the sample run: pass 1 reports 50, the pass-2
    milestone writes 50, pass 2 reports 80. *)
Example encode_percents :
  Forall2 Qeq
    (percents_written
       (journal (run_events (rt := sampleRuntime)
                   (encode_until_minute_35 ++ encode_finishes) emptyWorld)))
    [0; 1; 2; 50; 50; 80; 100]%Q.
Proof. vm_compute. repeat constructor. Qed.

(** The percents written when pass 1 reports 90 before pass 2 starts. *)
Example pass1_to_90_percents :
  Forall2 Qeq
    (percents_written
       (journal (run_events (rt := sampleRuntime) pass1_to_90_events emptyWorld)))
    [0; 1; 2; 90; 50]%Q.
Proof. vm_compute. repeat constructor. Qed.

(** The first publication of a pass can be below the milestone written
    before the pass: 1% after the pass-1 milestone, 10% after the pass-2
    milestone. *)
Example first_publication_below_milestone :
  Forall2 Qeq
    (percents_written
       (journal (run_events (rt := sampleRuntime)
                   [PostStart "j1" sample_request;
                    ChildClose "j1" (Some 0);
                    ChildStdout "j1" "report-10s";
                    ChildClose "j1" (Some 0);
                    ChildStderr "j1" "size=0kB time=00:00:00.10 bitrate=N/A";
                    ChildClose "j1" (Some 0);
                    ChildStderr "j1" "size=0kB time=00:00:01.00 bitrate=N/A"]
                   emptyWorld)))
    [0; 1; 2; 1; 50; 10]%Q.
Proof. vm_compute. repeat constructor. Qed.

(** ** The cleanup's decision *)

Section CleanupFacts.
Context {rt : Runtime}.

(** The cleanup never removes a job that is queued or running. *)
Lemma cleanup_keeps_unfinished_job (jobId : string) (now : Z) (w : World) (job : Job) :
  jobs w !! jobId = Some job -> is_terminal (status job) = false ->
  exists job', jobs (cleanup now w) !! jobId = Some job' /\ agrees job' job.
Proof.
  intros Hj Hterm.
  pose proof (view_cleanup jobId now w) as E. rewrite Hj in E.
  unfold purge_due in E. rewrite Hterm in E. cbn [andb] in E.
  apply (f_equal v_job) in E. cbn [v_job view] in E.
  exists (stamped now job). split; [exact E | repeat split].
Qed.

(** It removes a finished job, and deletes its output, once more than 30
    minutes have passed since the first cleanup that saw the job, whenever
    the job finished. *)
Lemma cleanup_purges_by_first_inspection
    (jobId : string) (now seen : Z) (w : World) (job : Job) :
  jobs w !! jobId = Some job -> is_terminal (status job) = true ->
  createdAt job = Some seen -> seen <> 0 -> TTL_MS < now - seen ->
  jobs (cleanup now w) !! jobId = None.
Proof.
  intros Hj Hterm Hc Hseen Hage.
  pose proof (view_cleanup jobId now w) as E. rewrite Hj in E.
  unfold purge_due, anchor in E. rewrite Hterm, Hc in E.
  apply Z.eqb_neq in Hseen. rewrite Hseen in E.
  apply Z.ltb_lt in Hage. rewrite Hage in E. cbn [andb] in E.
  apply (f_equal v_job) in E. exact E.
Qed.
End CleanupFacts.

(** * Further properties *)

(** ** The registry's merge *)

Lemma spread_emptyJob (patch : Job) : spread emptyJob patch = patch.
Proof. destruct patch as [[] [] [] [] [] [] [] []]; reflexivity. Qed.

Lemma over_assoc {A : Type} (a b c : option A) : over c (over b a) = over (over c b) a.
Proof. destruct c, b; reflexivity. Qed.

Lemma spread_assoc (cur p1 p2 : Job) :
  spread (spread cur p1) p2 = spread cur (spread p1 p2).
Proof. unfold spread; cbn. rewrite !over_assoc. reflexivity. Qed.

(** X1.  [setJob] followed by a lookup: the record under the identifier is
    the old record overwritten field by field with the fields the patch
    has (the patch itself when the identifier was not in the registry);
    every other record, the suspended handlers and the files are left as
    they were. *)
Theorem setJob_then_get (jobId other : string) (patch : Job) (w : World) :
  (exists record,
     jobs (setJob jobId patch w) !! jobId = Some record /\
     record = spread (default emptyJob (jobs w !! jobId)) patch /\
     status record = over (status patch) (jobs w !! jobId ≫= status) /\
     percent record = over (percent patch) (jobs w !! jobId ≫= percent) /\
     message record = over (message patch) (jobs w !! jobId ≫= message) /\
     createdAt record = over (createdAt patch) (jobs w !! jobId ≫= createdAt)) /\
  (jobs w !! jobId = None -> jobs (setJob jobId patch w) !! jobId = Some patch) /\
  (other <> jobId -> jobs (setJob jobId patch w) !! other = jobs w !! other) /\
  tasks (setJob jobId patch w) = tasks w /\
  files (setJob jobId patch w) = files w.
Proof.
  unfold setJob; cbn [jobs tasks files emit].
  split; [| split; [| split; [| split; reflexivity]]].
  - eexists. split; [apply lookup_insert_eq |]. split; [reflexivity |].
    destruct (jobs w !! jobId) as [cur|]; cbn; repeat split;
      match goal with |- over ?x _ = _ => destruct x; reflexivity end.
  - intros ->. rewrite lookup_insert_eq. cbn. rewrite spread_emptyJob. reflexivity.
  - intros Hne. apply lookup_insert_ne. congruence.
Qed.

Lemma setJob_then_get_witness :
  jobs (setJob "j1" (progress_patch 40) emptyWorld) !! "j1" = Some (progress_patch 40) /\
  jobs (setJob "j1" (progress_patch 40) emptyWorld) !! "j2" = None.
Proof.
  destruct (setJob_then_get "j1" "j2" (progress_patch 40) emptyWorld)
    as (_ & Hnew & Hother & _).
  split; [apply Hnew; reflexivity | rewrite Hother; [reflexivity | discriminate]].
Defined.

(** X2.  Two patches applied one after the other leave the registry as one
    [setJob] with the merged patch does. *)
Theorem setJob_twice_merges (jobId : string) (p1 p2 : Job) (w : World) :
  jobs (setJob jobId p2 (setJob jobId p1 w)) = jobs (setJob jobId (spread p1 p2) w).
Proof.
  unfold setJob; cbn [jobs emit]. rewrite lookup_insert_eq, insert_insert_eq.
  f_equal. apply spread_assoc.
Qed.

(** ** The clamp *)

Section BitrateFacts.
Local Open Scope Q_scope.

Lemma clamp_le_compat (n m a b : Q) : n <= m -> clamp n a b <= clamp m a b.
Proof.
  intros H. unfold clamp.
  apply Q.max_le_compat; [apply Qle_refl |]. apply Q.min_le_compat; [apply Qle_refl | exact H].
Qed.

Lemma clamp_inside (n a b : Q) : a <= n <= b -> clamp n a b == n.
Proof.
  intros [H1 H2]. unfold clamp. rewrite Q.min_r by exact H2. apply Q.max_r, H1.
Qed.

Lemma clamp_below (n a b : Q) : n <= a -> clamp n a b == a.
Proof.
  intros H. unfold clamp. apply Q.max_l.
  apply Qle_trans with n; [apply Q.le_min_r | exact H].
Qed.

Lemma clamp_above (n a b : Q) : a <= b -> b <= n -> clamp n a b == b.
Proof.
  intros Hab H. unfold clamp. rewrite Q.min_l by exact H. apply Q.max_r, Hab.
Qed.

(** X3.  [clamp] with [a <= b]: the identity between the bounds, the nearer
    bound outside them, idempotent, and monotone in its first argument. *)
Theorem clamp_pins_to_range (n m a b : Q) :
  a <= b ->
  (a <= n <= b -> clamp n a b == n) /\
  (n <= a -> clamp n a b == a) /\
  (b <= n -> clamp n a b == b) /\
  clamp (clamp n a b) a b == clamp n a b /\
  (n <= m -> clamp n a b <= clamp m a b).
Proof.
  intros Hab. split; [apply clamp_inside |]. split; [| split; [| split]].
  - apply clamp_below.
  - apply clamp_above, Hab.
  - apply clamp_inside, clamp_bounds, Hab.
  - apply clamp_le_compat.
Qed.

Lemma clamp_pins_to_range_witness :
  clamp 6848 200 50000 == 6848 /\ clamp 7 200 50000 == 200 /\
  clamp 60000 200 50000 == 50000 /\ clamp 7 200 50000 <= clamp 6848 200 50000.
Proof.
  destruct (clamp_pins_to_range 6848 0 200 50000) as (H1 & _); [discriminate |].
  destruct (clamp_pins_to_range 7 6848 200 50000) as (_ & H2 & _ & _ & H5); [discriminate |].
  destruct (clamp_pins_to_range 60000 0 200 50000) as (_ & _ & H3 & _); [discriminate |].
  split; [apply H1; split; discriminate |].
  split; [apply H2; discriminate |].
  split; [apply H3; discriminate | apply H5; discriminate].
Defined.

End BitrateFacts.

(** ** The video stream of a report *)

Section StreamFacts.
Context {rt : Runtime}.

Lemma find_first {A : Type} (f : A -> bool) (l : list A) :
  match List.find f l with
  | Some x => exists before after,
                l = before ++ x :: after /\ f x = true /\
                Forall (fun y => f y = false) before
  | None => Forall (fun y => f y = false) l
  end.
Proof.
  induction l as [|y l IH]; cbn; [constructor |].
  destruct (f y) eqn:Hy.
  - exists [], l. repeat split; [exact Hy | constructor].
  - destruct (List.find f l) as [x|].
    + destruct IH as (before & after & -> & Hx & Hb).
      exists (y :: before), after. repeat split; [exact Hx | constructor; assumption].
    + constructor; assumption.
Qed.

(** X7.  [getVideoStream] returns the first stream whose [codec_type] is the
    string ["video"].  When the report has no such stream (or no [streams]
    at all), width and height are 0 and the plan passes no scale filter,
    whatever [autoQuality] is. *)
Theorem video_stream_is_first_video (a : EncodeArgs) (probe : Probe) (durationSec : Q) :
  match getVideoStream probe with
  | Some s =>
      exists before after,
        streams probe = Some (before ++ s :: after) /\
        codec_type s = JStr "video" /\
        Forall (fun x => codec_type x <> JStr "video") before
  | None =>
      Forall (fun x => codec_type x <> JStr "video") (default [] (streams probe)) /\
      stream_width None = Fin 0 /\ stream_height None = Fin 0 /\
      plan_useScale (plan_encode a probe durationSec) = []
  end.
Proof.
  assert (Hvid : forall x, is_video x = true <-> codec_type x = JStr "video").
  { intros x. unfold is_video. destruct (codec_type x) as [| | | |c|]; try (split; discriminate).
    rewrite String.eqb_eq. split; [intros ->; reflexivity | intros [= ->]; reflexivity]. }
  assert (Hnot : forall l, Forall (fun y => is_video y = false) l ->
                           Forall (fun x => codec_type x <> JStr "video") l).
  { intros l Hl. eapply Forall_impl; [exact Hl |].
    cbn. intros x Hx E. apply Hvid in E. congruence. }
  pose proof (find_first is_video (default [] (streams probe))) as H.
  unfold plan_encode. fold (getVideoStream probe).
  unfold getVideoStream in *.
  destruct (List.find is_video (default [] (streams probe))) as [s|].
  - destruct H as (before & after & E & Hs & Hb).
    exists before, after. split; [| split; [apply Hvid, Hs | apply Hnot, Hb]].
    destruct (streams probe) as [l|]; cbn in E; [congruence | destruct before; discriminate].
  - split; [apply Hnot, H |]. repeat split.
Qed.
End StreamFacts.

(** ** The progress parser, continued *)

Section ParserMore.
Local Open Scope Q_scope.

(** X8.  A call of the parser's closure changes nothing but [percent] and
    [message] of its own job: the other fields of that record, every other
    record, the suspended handlers and the files stay as they were. *)
Theorem feed_writes_percent_and_message (p : Parser) (chunk other : string) (w : World) :
  tasks (feed p chunk w).2 = tasks w /\
  files (feed p chunk w).2 = files w /\
  (other <> parser_jobId p -> jobs (feed p chunk w).2 !! other = jobs w !! other) /\
  (forall job, jobs w !! parser_jobId p = Some job ->
     exists job',
       jobs (feed p chunk w).2 !! parser_jobId p = Some job' /\
       status job' = status job /\ inputPath job' = inputPath job /\
       outputPath job' = outputPath job /\ outputBytes job' = outputBytes job /\
       error job' = error job /\ createdAt job' = createdAt job).
Proof.
  destruct (feed_cases p chunk w) as [-> | (m & pct & _ & _ & _ & _ & _ & ->)]; cbn [snd].
  - repeat split. intros job Hj. exists job. repeat split. exact Hj.
  - split; [reflexivity |]. split; [reflexivity |]. split.
    + intros Hne. cbn. apply lookup_insert_ne. congruence.
    + intros job Hj. eexists. split; [cbn; apply lookup_insert_eq |].
      rewrite Hj. repeat split.
Qed.

Lemma feed_writes_percent_and_message_witness :
  jobs (feed (makeProgressParser 10 "j1") "time=00:00:05.00" emptyWorld).2 !! "j2" = None.
Proof.
  destruct (feed_writes_percent_and_message (makeProgressParser 10 "j1")
              "time=00:00:05.00" "j2" emptyWorld) as (_ & _ & H & _).
  rewrite H; [reflexivity | discriminate].
Defined.

Lemma toFixed1_comp (x y : Q) : x == y -> toFixed1 x = toFixed1 y.
Proof.
  intros E. unfold toFixed1, toFixed1_abs, Qlt_bool.
  assert (E1 : Qle_bool 0 x = Qle_bool 0 y).
  { destruct (Qle_bool 0 y) eqn:B.
    - apply Qle_bool_iff. apply Qle_bool_iff in B. lra.
    - destruct (Qle_bool 0 x) eqn:B'; [| reflexivity].
      apply Qle_bool_iff in B'. assert (0 <= y) as H by lra.
      apply Qle_bool_iff in H. congruence. }
  rewrite E1.
  assert (E2 : Qfloor (x * 10 + (1 # 2)) = Qfloor (y * 10 + (1 # 2))).
  { apply Qfloor_comp. rewrite E. reflexivity. }
  assert (E3 : Qfloor (- x * 10 + (1 # 2)) = Qfloor (- y * 10 + (1 # 2))).
  { apply Qfloor_comp. rewrite E. reflexivity. }
  rewrite E2, E3. reflexivity.
Qed.

(** X9.  When a chunk's timestamp is at or beyond the duration the parser
    was made with, the call publishes 100 with the message
    ["Encoding… 100.0%"], whatever it had published before. *)
Theorem feed_saturates_at_100 (p : Parser) (chunk : string) (m : TimeMatch) (w : World) :
  timeRe_match chunk = Some m ->
  0 < parser_durationSec p -> parser_durationSec p <= elapsed m ->
  lastPct p <= 100 ->
  exists pct record,
    pct == 100 /\
    lastPct (feed p chunk w).1 = pct /\
    journal (feed p chunk w).2 = journal w ++ [FxSetJob (parser_jobId p) record] /\
    percent record = Some pct /\
    message record = Some "Encoding… 100.0%"%string.
Proof.
  intros Hm Hd Ht Hlast. unfold feed. rewrite Hm.
  destruct (Qeq_bool (parser_durationSec p) 0) eqn:E0.
  { apply Qeq_bool_iff in E0. exfalso. lra. }
  set (pct := clamp (elapsed m / parser_durationSec p * 100) 0 100).
  assert (Hpct : pct == 100).
  { unfold pct. apply clamp_above; [discriminate |].
    set (x := elapsed m / parser_durationSec p).
    assert (Hx : x * parser_durationSec p == elapsed m) by (unfold x; field; lra).
    assert (1 <= x); [| lra].
    apply Qnot_lt_le. intros Hlt.
    assert (x * parser_durationSec p < 1 * parser_durationSec p)
      by (apply Qmult_lt_compat_r; assumption).
    lra. }
  assert (Hle : Qle_bool (lastPct p) pct = true).
  { apply Qle_bool_iff. rewrite Hpct. exact Hlast. }
  rewrite Hle. cbn [fst snd].
  eexists pct, _. split; [exact Hpct |]. split; [reflexivity |].
  split; [apply journal_setJob |]. split; [reflexivity |].
  cbn. rewrite (toFixed1_comp pct 100 Hpct). reflexivity.
Qed.
End ParserMore.

Lemma feed_saturates_at_100_witness :
  exists pct,
    pct == 100 /\
    lastPct (feed (makeProgressParser 10 "j1") "time=00:00:12.00" emptyWorld).1 = pct.
Proof.
  destruct (feed_saturates_at_100 (makeProgressParser 10 "j1") "time=00:00:12.00"
              (mkTimeMatch "00" "00" "12" "00") emptyWorld)
    as (pct & record & Hpct & Hlast & _);
    [reflexivity | reflexivity | discriminate | discriminate |].
  exists pct. split; [exact Hpct | exact Hlast].
Defined.

(** ** The regular expression, continued *)

Lemma timeRe_at_needs_t (c : ascii) (s : string) :
  Ascii.eqb c "t" = false -> timeRe_at (String c s) = None.
Proof.
  intros Hc. unfold timeRe_at. cbn [literal].
  rewrite Ascii.eqb_sym, Hc. reflexivity.
Qed.

Lemma timeRe_match_skips (pre s : string) :
  no_t pre = true -> timeRe_match (pre +:+ s) = timeRe_match s.
Proof.
  induction pre as [|c pre IH]; intros H; [reflexivity |].
  cbn in H. apply andb_true_iff in H as [Hc H]. apply negb_true_iff in Hc.
  rewrite append_cons. cbn -[timeRe_at]. rewrite timeRe_at_needs_t by exact Hc.
  apply IH, H.
Qed.

(** X10.  The first timestamp of a chunk is the one the parser reads: after
    any text without the letter [t], a well-formed [time=hh:mm:ss.f] is the
    match, whatever follows it (further timestamps included). *)
Theorem first_timestamp_is_matched (pre hh mm ss f rest : string) :
  no_t pre = true ->
  digit_run hh -> digit_run mm -> digit_run ss -> digit_run f ->
  starts_with_digit rest = false ->
  timeRe_match (pre +:+ "time=" +:+ hh +:+ ":" +:+ mm +:+ ":" +:+ ss +:+ "." +:+ f +:+ rest)
  = Some (mkTimeMatch hh mm ss f).
Proof.
  intros Hpre Hh Hm Hs Hf Hr. rewrite timeRe_match_skips by exact Hpre.
  apply timeRe_match_head, timeRe_at_head; assumption.
Qed.

Lemma first_timestamp_is_matched_witness :
  timeRe_match
    ("frame=  10 fps=0.0 q=0.0 size=0kB " +:+ "time=" +:+ "00" +:+ ":" +:+ "00" +:+ ":" +:+
     "01" +:+ "." +:+ "50" +:+ " bitrate=N/A time=00:00:09.00") =
  Some (mkTimeMatch "00" "00" "01" "50").
Proof.
  apply (first_timestamp_is_matched "frame=  10 fps=0.0 q=0.0 size=0kB "
           "00" "00" "01" "50" " bitrate=N/A time=00:00:09.00");
    try (split; [discriminate | reflexivity]); reflexivity.
Defined.

(** ** The request handler *)

Section HandlerFacts.
Context {rt : Runtime}.
Implicit Types (j k : string) (w : World).

(** X11.  A multipart request without a file part is answered 400
    ["No file uploaded."]: no job is created, no process is started, and the
    registry, the suspended handlers and the files are left as they were.
    A request that is not multipart has no [req.body]: the handler throws a
    [TypeError] at line 255, before it tests for the file, so it sends no
    response (no 400 either), creates no job and starts no process. *)
Theorem post_without_file_is_rejected (jobId : string) (req : StartRequest) (w : World) :
  (req_file req = None ->
   let w' := step w (PostStart jobId req) in
   journal w' = journal w ++ [FxRespond (Send 400 "No file uploaded.")] /\
   jobs w' = jobs w /\ tasks w' = tasks w /\ files w' = files w) /\
  (let w' := step w (PostUnparsed jobId) in
   journal w' = journal w ++ [FxThrow "TypeError"] /\
   jobs w' = jobs w /\ tasks w' = tasks w /\ files w' = files w).
Proof.
  split.
  - intros Hfile. cbn [step]. unfold post_start. rewrite Hfile. repeat split.
  - repeat split.
Qed.

(** X12.  A request with a file creates the job as [running] at 1% (after
    [queued]), answers with the identifier before any process is started,
    starts the prober on the uploaded file, and hands [twoPassEncode] the
    codec ["h265"] only when the field is exactly ["h265"] (["h264"]
    otherwise) and the auto-quality ["off"] only when the field is exactly
    ["off"] (["on"] otherwise). *)
Theorem post_with_file_starts_probe
    (jobId upload : string) (req : StartRequest) (w : World) :
  req_file req = Some upload ->
  let w' := step w (PostStart jobId req) in
  exists a queued running,
    tasks w' !! jobId = Some (AwaitProbeRun a "") /\
    arg_jobId a = jobId /\ arg_inputPath a = upload /\
    arg_outputPath a = output_path jobId /\
    arg_targetMB a = req_targetMB req /\ arg_audioKbps a = req_audioKbps req /\
    arg_codec a = (if decide (req_codec req = Some "h265"%string) then "h265" else "h264")%string /\
    arg_autoQuality a =
      (if decide (req_autoQuality req = Some "off"%string) then "off" else "on")%string /\
    journal w' =
      journal w ++
      [FxSetJob jobId queued; FxRespond (Json 200 (BodyJobId jobId));
       FxSetJob jobId running; FxSpawn "ffprobe" (ffprobeArgs upload)] /\
    status queued = Some Queued /\ percent queued = Some 0%Q /\
    jobs w' !! jobId = Some running /\
    status running = Some Running /\ percent running = Some 1%Q /\
    inputPath running = Some upload /\ outputPath running = Some (output_path jobId) /\
    files w' = files w.
Proof.
  intros Hfile. cbn [step]. unfold post_start. rewrite Hfile.
  eexists _, _, _.
  split; [cbn; apply lookup_insert_eq |].
  split; [reflexivity |]. split; [reflexivity |]. split; [reflexivity |].
  split; [reflexivity |]. split; [reflexivity |].
  split.
  { cbn [arg_codec]. destruct (req_codec req) as [c|].
    - destruct (String.eqb c "h265") eqn:E.
      + apply String.eqb_eq in E as ->. rewrite decide_True by reflexivity. reflexivity.
      + apply String.eqb_neq in E. rewrite decide_False by congruence. reflexivity.
    - rewrite decide_False by discriminate. reflexivity. }
  split.
  { cbn [arg_autoQuality]. destruct (req_autoQuality req) as [c|].
    - destruct (String.eqb c "off") eqn:E.
      + apply String.eqb_eq in E as ->. rewrite decide_True by reflexivity. reflexivity.
      + apply String.eqb_neq in E. rewrite decide_False by congruence. reflexivity.
    - rewrite decide_False by discriminate. reflexivity. }
  split.
  { cbn. rewrite <- !app_assoc. reflexivity. }
  split; [reflexivity |]. split; [reflexivity |].
  split; [cbn; rewrite lookup_insert_eq; reflexivity |].
  repeat split; cbn; rewrite ?lookup_insert_eq; reflexivity.
Qed.

Lemma exited_nonempty (cmd : string) (code : option Z) (stderr : string) :
  cmd <> ""%string -> String.eqb (exited cmd code stderr) "" = false.
Proof.
  intros Hc. unfold exited. destruct cmd as [|c cmd]; [contradiction |]. reflexivity.
Qed.

(** What the [catch] and [finally] blocks leave behind. *)
Lemma catch_finally_result (a : EncodeArgs) (msg : string) (w : World) :
  let w' := catch_finally a msg w in
  jobs w' !! arg_jobId a =
    Some (spread (default emptyJob (jobs w !! arg_jobId a)) (error_patch msg)) /\
  (forall other, other <> arg_jobId a -> jobs w' !! other = jobs w !! other) /\
  tasks w' = delete (arg_jobId a) (tasks w) /\
  files w' = delete (arg_inputPath a) (files w) /\
  journal w' =
    journal w ++
    [FxConsoleError msg;
     FxSetJob (arg_jobId a)
       (spread (default emptyJob (jobs w !! arg_jobId a)) (error_patch msg));
     FxUnlink (arg_inputPath a)].
Proof.
  unfold catch_finally. cbn. rewrite lookup_insert_eq. repeat split.
  - intros other Hne. apply lookup_insert_ne. congruence.
  - rewrite <- !app_assoc. reflexivity.
Qed.
End HandlerFacts.

Lemma post_without_file_is_rejected_witness :
  jobs (step (rt := sampleRuntime) emptyWorld
          (PostStart "j1" (mkStartRequest None 499 None 128 None))) = ∅.
Proof.
  apply (proj1 (post_without_file_is_rejected (rt := sampleRuntime) "j1"
                  (mkStartRequest None 499 None 128 None) emptyWorld)).
  reflexivity.
Defined.

Lemma post_with_file_starts_probe_witness :
  exists a,
    tasks (step (rt := sampleRuntime) emptyWorld
             (PostStart "j1" (mkStartRequest (Some "/tmp/navine/uploads/f00d"%string) 499
                                (Some "hevc"%string) 128 (Some "off"%string))))
      !! "j1" = Some (AwaitProbeRun a "") /\
    arg_codec a = "h264"%string /\ arg_autoQuality a = "off"%string.
Proof.
  destruct (post_with_file_starts_probe (rt := sampleRuntime) "j1" "/tmp/navine/uploads/f00d"
              (mkStartRequest (Some "/tmp/navine/uploads/f00d"%string) 499
                 (Some "hevc"%string) 128 (Some "off"%string)) emptyWorld eq_refl)
    as (a & queued & running & Ht & _ & _ & _ & _ & _ & Hc & Hq & _).
  exists a. split; [exact Ht |]. split; [exact Hc | exact Hq].
Defined.

(** ** Failures of the child processes *)

Section FailureFacts.
Context {rt : Runtime}.
Implicit Types (j k : string) (w : World).

Lemma catch_finally_ends_in_error (a : EncodeArgs) (msg : string) (w : World) :
  String.eqb msg "" = false -> ends_in_error a msg w (catch_finally a msg w).
Proof.
  intros Hmsg. destruct (catch_finally_result a msg w) as (Hj & _ & Ht & Hf & Hl).
  unfold error_patch in Hj, Hl. rewrite Hmsg in Hj, Hl.
  eexists. split; [exact Hj |].
  split; [reflexivity |]. split; [reflexivity |]. split; [reflexivity |].
  split; [reflexivity |].
  split; [destruct (jobs w !! arg_jobId a); reflexivity |].
  split; [rewrite Ht; apply lookup_delete_eq |].
  split; [exact Hf | exact Hl].
Qed.

(** X13.  The three ways [ffprobeJson] fails each end the job in [error]
    without starting any further process: a non-zero exit of the first
    prober run (message [ffprobe exited <code>] and the run's diagnostic
    text), a non-zero exit of the second run (["ffprobe failed: "] and that
    run's diagnostic text), and a report [JSON.parse] rejects (["Failed to
    parse ffprobe output: "] and the parser's message). *)
Theorem probe_failure_ends_job (a : EncodeArgs) (code : option Z) (w : World) :
  (forall stderr,
     tasks w !! arg_jobId a = Some (AwaitProbeRun a stderr) -> exit_ok code = false ->
     ends_in_error a ("ffprobe exited " +:+ code_text code +:+ nl +:+ stderr) w
       (step w (ChildClose (arg_jobId a) code))) /\
  (forall out err,
     tasks w !! arg_jobId a = Some (AwaitProbeJson a out err) -> exit_ok code = false ->
     ends_in_error a ("ffprobe failed: " +:+ err) w
       (step w (ChildClose (arg_jobId a) code))) /\
  (forall out err msg,
     tasks w !! arg_jobId a = Some (AwaitProbeJson a out err) -> exit_ok code = true ->
     JSON_parse out = inl msg ->
     ends_in_error a ("Failed to parse ffprobe output: " +:+ msg) w
       (step w (ChildClose (arg_jobId a) code))).
Proof.
  split; [| split].
  - intros stderr Ht Hc. cbn [step]. unfold on_close. rewrite Ht, Hc.
    apply catch_finally_ends_in_error. reflexivity.
  - intros out err Ht Hc. cbn [step]. unfold on_close. rewrite Ht, Hc.
    apply catch_finally_ends_in_error. reflexivity.
  - intros out err msg Ht Hc Hp. cbn [step]. unfold on_close. rewrite Ht, Hc, Hp.
    apply catch_finally_ends_in_error. reflexivity.
Qed.

Lemma run_data_pass1 j a plan (os : list Output) w s p :
  tasks w !! j = Some (AwaitPass1 a plan s p) ->
  exists p',
    tasks (run_events (map (data_event j) os) w) !! j =
    Some (AwaitPass1 a plan (stderr_text s os) p').
Proof.
  revert w s p. induction os as [|o os IH]; intros w s p Ht;
    cbn [map]; [cbn; eauto | rewrite run_events_cons; cbn [stderr_text fold_left]].
  destruct o as [d|d]; cbn [data_event step].
  - unfold on_stdout. rewrite Ht. apply (IH w s p Ht).
  - unfold on_stderr. rewrite Ht. destruct (feed p d w) as [p' w'].
    apply (IH _ (s +:+ d) p'). cbn. apply lookup_insert_eq.
Qed.

Lemma run_data_pass2 j a plan (os : list Output) w s p :
  tasks w !! j = Some (AwaitPass2 a plan s p) ->
  exists p',
    tasks (run_events (map (data_event j) os) w) !! j =
    Some (AwaitPass2 a plan (stderr_text s os) p').
Proof.
  revert w s p. induction os as [|o os IH]; intros w s p Ht;
    cbn [map]; [cbn; eauto | rewrite run_events_cons; cbn [stderr_text fold_left]].
  destruct o as [d|d]; cbn [data_event step].
  - unfold on_stdout. rewrite Ht. apply (IH w s p Ht).
  - unfold on_stderr. rewrite Ht. destruct (feed p d w) as [p' w'].
    apply (IH _ (s +:+ d) p'). cbn. apply lookup_insert_eq.
Qed.

(** X14.  When the transcoder exits with a non-zero code (or is killed)
    during either pass, the job ends in [error] and its error message is
    [ffmpeg exited <code>], a line break, and everything the process wrote
    on its standard error during that pass, in order; nothing is retried. *)
Theorem encode_failure_reports_stderr
    (a : EncodeArgs) (plan : Plan) (s : string) (p : Parser) (os : list Output)
    (code : option Z) (w : World) :
  tasks w !! arg_jobId a = Some (AwaitPass1 a plan s p) \/
  tasks w !! arg_jobId a = Some (AwaitPass2 a plan s p) ->
  exit_ok code = false ->
  let w1 := run_events (map (data_event (arg_jobId a)) os) w in
  ends_in_error a ("ffmpeg exited " +:+ code_text code +:+ nl +:+ stderr_text s os) w1
    (run_events (map (data_event (arg_jobId a)) os ++ [ChildClose (arg_jobId a) code]) w).
Proof.
  intros Ht Hc w1. rewrite run_events_app, run_events_single. fold w1.
  destruct Ht as [Ht | Ht].
  - destruct (run_data_pass1 _ a plan os w s p Ht) as (p' & Ht').
    fold w1 in Ht'. cbn [step]. unfold on_close. rewrite Ht', Hc.
    apply catch_finally_ends_in_error. reflexivity.
  - destruct (run_data_pass2 _ a plan os w s p Ht) as (p' & Ht').
    fold w1 in Ht'. cbn [step]. unfold on_close. rewrite Ht', Hc.
    apply catch_finally_ends_in_error. reflexivity.
Qed.

(** X15.  Whenever a callback ends a job's handler, the uploaded input file
    is gone and the job's record is terminal: [error] at 0%, or [done] at
    100% with [outputBytes] the size the output file had at that moment. *)
Theorem handler_end_leaves_terminal_record (j : string) (t : Task) (e : Event) (w : World) :
  tasks_wf w -> tasks w !! j = Some t -> tasks (step w e) !! j = None ->
  files (step w e) !! arg_inputPath (task_args t) = None /\
  exists record,
    jobs (step w e) !! j = Some record /\
    ((status record = Some Error /\ percent record = Some 0%Q /\ is_Some (error record)) \/
     (status record = Some Done /\ percent record = Some 100%Q /\
      is_Some (outputBytes record) /\
      outputBytes record = files w !! arg_outputPath (task_args t))).
Proof.
  intros Hwf Ht Hend.
  assert (Hcatch : forall a msg,
            arg_jobId a = j ->
            files (catch_finally a msg w) !! arg_inputPath a = None /\
            exists record,
              jobs (catch_finally a msg w) !! j = Some record /\
              ((status record = Some Error /\ percent record = Some 0%Q /\
                is_Some (error record)) \/
               (status record = Some Done /\ percent record = Some 100%Q /\
                is_Some (outputBytes record) /\
                outputBytes record = files w !! arg_outputPath (task_args t)))).
  { intros a msg <-. destruct (catch_finally_result a msg w) as (Hj & _ & _ & Hf & _).
    split; [rewrite Hf; apply lookup_delete_eq |].
    eexists. split; [exact Hj |]. left. repeat split. eexists. reflexivity. }
  destruct (Hwf j t Ht) as [Ha _].
  destruct e as [k req|k d|k d|k code|path size|now|i].
  - exfalso. destruct (decide (k = j)) as [->|Hne].
    + cbn [step] in Hend. unfold post_start in Hend.
      destruct (req_file req); cbn in Hend; [rewrite lookup_insert_eq in Hend |]; congruence.
    + pose proof (step_frame j w (PostStart k req) Hwf Hne) as E.
      apply (f_equal v_task) in E. cbn [v_task view] in E. congruence.
  - exfalso. destruct (decide (k = j)) as [->|Hne].
    + cbn [step] in Hend. unfold on_stdout in Hend. rewrite Ht in Hend.
      destruct t; cbn in Hend; rewrite ?lookup_insert_eq in Hend; congruence.
    + pose proof (step_frame j w (ChildStdout k d) Hwf Hne) as E.
      apply (f_equal v_task) in E. cbn [v_task view] in E. congruence.
  - exfalso. destruct (decide (k = j)) as [->|Hne].
    + cbn [step] in Hend. unfold on_stderr in Hend. rewrite Ht in Hend.
      destruct t as [a s|a o s|a plan s p|a plan s p];
        try destruct (feed p d w) as [p' w'];
        cbn in Hend; rewrite lookup_insert_eq in Hend; congruence.
    + pose proof (step_frame j w (ChildStderr k d) Hwf Hne) as E.
      apply (f_equal v_task) in E. cbn [v_task view] in E. congruence.
  - destruct (decide (k = j)) as [->|Hne].
    + cbn [step] in *. unfold on_close in *. rewrite Ht in *.
      destruct t as [a s|a o s|a plan s p|a plan s p]; cbn [task_args] in *;
        destruct (exit_ok code); try (apply Hcatch; exact Ha).
      * exfalso. cbn in Hend. rewrite lookup_insert_eq in Hend. congruence.
      * destruct (JSON_parse o) as [msg|probe]; [apply Hcatch; exact Ha |].
        unfold after_probe in *. destruct (Qeq_bool _ _); [apply Hcatch; exact Ha |].
        exfalso. cbn in Hend. rewrite Ha, lookup_insert_eq in Hend. congruence.
      * exfalso. unfold after_pass1 in Hend. cbn in Hend.
        rewrite Ha, lookup_insert_eq in Hend. congruence.
      * unfold after_pass2 in *.
        destruct (files w !! arg_outputPath a) as [size|] eqn:Hout;
          [| apply Hcatch; exact Ha].
        split; [cbn; apply lookup_delete_eq |].
        eexists. split; [cbn; rewrite Ha; apply lookup_insert_eq |].
        right. repeat split. eexists. reflexivity.
    + exfalso. pose proof (step_frame j w (ChildClose k code) Hwf Hne) as E.
      apply (f_equal v_task) in E. cbn [v_task view] in E. congruence.
  - exfalso. cbn in Hend. congruence.
  - exfalso. cbn [step] in Hend. rewrite tasks_cleanup in Hend. congruence.
  - exfalso. cbn in Hend. congruence.
Qed.
End FailureFacts.

(** ** What a callback can do to a record *)

Section RecordFacts.
Context {rt : Runtime}.
Implicit Types (j k : string) (w : World).

Ltac own_job :=
  repeat first
    [ rewrite view_setJob, decide_True by congruence
    | rewrite view_suspend, decide_True by congruence
    | rewrite view_finish, decide_True by congruence
    | rewrite view_spawn
    | rewrite view_respond
    | rewrite view_console
    | rewrite view_unlinkSync ];
  cbv zeta; cbn [v_job v_task v_hist view].

Ltac by_patch tac :=
  right; right; left; eexists _, _;
  split; [reflexivity | split; [cbn [handler_patch]; tac |]].

Lemma jobs_catch_finally j a msg w :
  arg_jobId a = j ->
  jobs (catch_finally a msg w) !! j =
  Some (spread (default emptyJob (jobs w !! j)) (error_patch msg)).
Proof. intros <-. apply catch_finally_result. Qed.

Lemma step_record_update j w e :
  tasks_wf w -> record_update j e w (jobs w !! j) (jobs (step w e) !! j).
Proof.
  intros Hwf. unfold record_update.
  assert (Hframe : match e with
                   | PostStart k _ | ChildStdout k _ | ChildStderr k _
                   | ChildClose k _ => k <> j
                   | FileWritten _ _ | PostUnparsed _ => True
                   | Tick _ => False
                   end -> jobs (step w e) !! j = jobs w !! j).
  { intros H. apply (f_equal v_job (step_frame j w e Hwf H)). }
  destruct e as [k req|k d|k d|k code|path size|now|i];
    try (destruct (decide (k = j)) as [->|Hne]; [| left; apply Hframe, Hne]).
  - cbn [step]. unfold post_start. destruct (req_file req) as [upload|] eqn:Hfile.
    + right. left. exists req, upload. split; [reflexivity |]. split; [exact Hfile |].
      cbn. rewrite !lookup_insert_eq. reflexivity.
    + left. reflexivity.
  - left. cbn [step]. unfold on_stdout. destruct (tasks w !! j) as [[]|]; reflexivity.
  - cbn [step]. unfold on_stderr. destruct (tasks w !! j) as [t|] eqn:Ht; [| left; reflexivity].
    destruct (Hwf j t Ht) as [Ha Hp].
    destruct t as [a s|a o s|a plan s p|a plan s p]; cbn in Ha, Hp;
      try (left; reflexivity).
    + destruct (feed_cases p d w) as [E | (m & pct & _ & _ & _ & Hle & Hb & E)];
        rewrite E; [left; reflexivity |].
      by_patch ltac:(left; eauto).
      cbn. rewrite Hp. apply lookup_insert_eq.
    + destruct (feed_cases p d w) as [E | (m & pct & _ & _ & _ & Hle & Hb & E)];
        rewrite E; [left; reflexivity |].
      by_patch ltac:(left; eauto).
      cbn. rewrite Hp. apply lookup_insert_eq.
  - cbn [step]. unfold on_close. destruct (tasks w !! j) as [t|] eqn:Ht; [| left; reflexivity].
    destruct (Hwf j t Ht) as [Ha _].
    assert (Herr : forall msg,
              jobs (catch_finally (task_args t) msg w) !! j =
              Some (spread (default emptyJob (jobs w !! j)) (error_patch msg))).
    { intros msg. apply jobs_catch_finally, Ha. }
    destruct t as [a s|a o s|a plan s p|a plan s p]; cbn [task_args] in *;
      destruct (exit_ok code).
    + left. reflexivity.
    + by_patch ltac:(eexists; reflexivity); apply Herr.
    + destruct (JSON_parse o) as [msg|probe].
      * by_patch ltac:(right; eexists; reflexivity); apply Herr.
      * unfold after_probe. destruct (Qeq_bool _ _).
        -- by_patch ltac:(right; eexists; reflexivity); apply Herr.
        -- by_patch ltac:(left; reflexivity).
           cbn. rewrite Ha. apply lookup_insert_eq.
    + by_patch ltac:(right; eexists; reflexivity); apply Herr.
    + by_patch ltac:(right; left; reflexivity).
      unfold after_pass1. cbn. rewrite Ha. apply lookup_insert_eq.
    + by_patch ltac:(right; right; eexists; reflexivity); apply Herr.
    + unfold after_pass2. destruct (files w !! arg_outputPath a) as [size|].
      * by_patch ltac:(right; left; eexists; reflexivity).
        cbn. rewrite Ha. apply lookup_insert_eq.
      * by_patch ltac:(right; right; eexists; reflexivity); apply Herr.
    + by_patch ltac:(right; right; eexists; reflexivity); apply Herr.
  - left. reflexivity.
  - cbn [step]. pose proof (view_cleanup j now w) as E.
    destruct (jobs w !! j) as [job|] eqn:Hj.
    + right. right. right. exists now, job. split; [reflexivity |]. split; [reflexivity |].
      destruct (purge_due now job); apply (f_equal v_job) in E; cbn [v_job view] in E;
        [left | right]; auto.
    + left. apply (f_equal v_job) in E. cbn [v_job view] in E. congruence.
  - left. reflexivity.
Qed.
End RecordFacts.

Section RecordInvariants.
Context {rt : Runtime}.
Implicit Types (j k : string) (w : World).

Lemma handler_patch_keeps_createdAt (t : Task) (patch : Job) :
  handler_patch t patch -> createdAt patch = None.
Proof.
  destruct t; cbn;
    intros H; repeat (destruct H as [H | H]); try destruct H as (x & H);
    try destruct H as (_ & _ & H); subst; reflexivity.
Qed.

(** X16.  [createdAt] is written by the cleanup only: the first cleanup run
    that sees a record without it sets it to the time of that run, and once
    it is set (to a non-zero time) no callback changes it for as long as the
    record stays in the registry. *)
Theorem createdAt_is_set_once (j : string) (e : Event) (w : World) (job job' : Job) :
  tasks_wf w ->
  jobs w !! j = Some job -> jobs (step w e) !! j = Some job' ->
  (forall c, createdAt job = Some c -> c <> 0 -> createdAt job' = Some c) /\
  (forall now, createdAt job = None -> e = Tick now -> createdAt job' = Some now) /\
  (createdAt job = None -> (forall now, e <> Tick now) -> createdAt job' = None).
Proof.
  intros Hwf Hj Hj'.
  assert (Htick : forall now, e = Tick now -> job' = stamped now job).
  { intros now ->. cbn [step] in Hj'.
    pose proof (view_cleanup j now w) as E. rewrite Hj in E.
    destruct (purge_due now job); apply (f_equal v_job) in E; cbn [v_job view] in E;
      congruence. }
  assert (Hother : (forall now, e <> Tick now) -> createdAt job' = createdAt job).
  { intros Hne. pose proof (step_record_update j w e Hwf) as H. rewrite Hj, Hj' in H.
    destruct H as [E | [(req & upload & -> & Hfile & E) | [(t & patch & Ht & Hp & E)
                  | (now & job0 & -> & _)]]].
    - congruence.
    - injection E as ->. reflexivity.
    - injection E as ->. cbn. rewrite (handler_patch_keeps_createdAt t patch Hp).
      reflexivity.
    - exfalso. apply (Hne now). reflexivity. }
  split; [| split].
  - intros c Hc Hne. destruct e as [k req|k d|k d|k code|path size|now|i];
      try (rewrite Hother; [exact Hc | discriminate]).
    rewrite (Htick now eq_refl). unfold stamped, anchor; cbn [createdAt].
    rewrite Hc. apply Z.eqb_neq in Hne. rewrite Hne. reflexivity.
  - intros now Hc ->. rewrite (Htick now eq_refl). unfold stamped, anchor; cbn [createdAt].
    rewrite Hc. reflexivity.
  - intros Hc Hne. rewrite Hother; assumption.
Qed.

(** The invariants of job [j] and any further property [P] of the world that
    every callback keeps hold along every run in which no identifier is
    given to two requests. *)
Lemma run_invariant j (P : World -> Prop) (events : list Event) w :
  (forall w e, tasks_wf w -> job_inv j w -> P w ->
               (forall req, e = PostStart j req -> history j w = []) -> P (step w e)) ->
  tasks_wf w -> job_inv j w -> P w -> NoDup (post_ids events) ->
  (j ∈ post_ids events -> history j w = []) ->
  P (run_events events w).
Proof.
  intros Hstep. revert w.
  induction events as [|e events IH]; intros w Hwf Hinv HP Hnd Hfresh; [exact HP |].
  rewrite run_events_cons.
  assert (Hfresh_e : forall req, e = PostStart j req -> history j w = []).
  { intros req ->. apply Hfresh. cbn. apply elem_of_cons. left. reflexivity. }
  apply IH.
  - apply step_tasks_wf, Hwf.
  - apply step_job_inv; assumption.
  - apply Hstep; assumption.
  - destruct e; cbn in Hnd; try exact Hnd. apply NoDup_cons in Hnd as [_ Hnd]. exact Hnd.
  - intros Hin.
    assert (Hnot : forall req, e <> PostStart j req).
    { intros req ->. cbn in Hnd. apply NoDup_cons in Hnd as [Hnd _]. contradiction. }
    apply step_history_empty; [exact Hwf | exact Hinv | | exact Hnot].
    apply Hfresh. destruct e; cbn; try exact Hin. apply elem_of_cons. right. exact Hin.
Qed.

Lemma record_ok_started (j upload : string) :
  record_ok j (spread (spread emptyJob (queued_patch upload (output_path j))) running_patch).
Proof.
  unfold record_ok; cbn.
  split; [eexists; reflexivity |].
  split; [exists 1%Q; split; [reflexivity | split; discriminate] |].
  split; [eexists; reflexivity |]. split; [eexists; reflexivity |].
  split; [reflexivity |].
  split; [split; [intros [x [=]] | discriminate] |].
  split; [split; [intros [x [=]] | discriminate] |].
  split; discriminate.
Qed.

Lemma not_is_Some_None {A : Type} (o : option A) : ~ is_Some o -> o = None.
Proof. destruct o; [intros H; exfalso; apply H; eexists; reflexivity | reflexivity]. Qed.

Lemma record_ok_patched (j : string) (t : Task) (patch job : Job) :
  handler_patch t patch -> record_ok j job -> status job = Some Running ->
  record_ok j (spread job patch).
Proof.
  intros Hp (Hs & Hpc & Hm & Hi & Ho & Hb & He & Hd & Her) Hrun.
  assert (Hbytes : outputBytes job = None).
  { apply not_is_Some_None. intros H. apply Hb in H. congruence. }
  assert (Herror : error job = None).
  { apply not_is_Some_None. intros H. apply He in H. congruence. }
  assert (Hquiet : forall pct text,
            (0 <= pct <= 100)%Q ->
            record_ok j (spread job (mkJob None (Some pct) (Some text)
                                           None None None None None))).
  { intros pct text Hb'. unfold record_ok; cbn. rewrite Hrun, Hbytes, Herror.
    split; [eexists; reflexivity |].
    split; [exists pct; split; [reflexivity | exact Hb'] |].
    split; [eexists; reflexivity |]. split; [exact Hi |]. split; [exact Ho |].
    split; [split; [intros [x [=]] | discriminate] |].
    split; [split; [intros [x [=]] | discriminate] |].
    split; discriminate. }
  assert (Herr : forall msg, record_ok j (spread job (error_patch msg))).
  { intros msg. unfold record_ok; cbn. rewrite Hbytes.
    split; [eexists; reflexivity |].
    split; [exists 0%Q; split; [reflexivity | split; discriminate] |].
    split; [eexists; reflexivity |]. split; [exact Hi |]. split; [exact Ho |].
    split; [split; [intros [x [=]] | discriminate] |].
    split; [split; [reflexivity | eexists; reflexivity] |].
    split; [discriminate | reflexivity]. }
  assert (Hdone : forall size, record_ok j (spread job (done_patch size))).
  { intros size. unfold record_ok; cbn. rewrite Herror.
    split; [eexists; reflexivity |].
    split; [exists 100%Q; split; [reflexivity | split; discriminate] |].
    split; [eexists; reflexivity |]. split; [exact Hi |]. split; [exact Ho |].
    split; [split; [reflexivity | eexists; reflexivity] |].
    split; [split; [intros [x [=]] | discriminate] |].
    split; [reflexivity | discriminate]. }
  destruct t; cbn in Hp.
  - destruct Hp as (msg & ->). apply Herr.
  - destruct Hp as [-> | (msg & ->)]; [apply Hquiet; split; discriminate | apply Herr].
  - destruct Hp as [(pct & _ & Hb' & ->) | [-> | (msg & ->)]];
      [apply Hquiet, Hb' | apply Hquiet; split; discriminate | apply Herr].
  - destruct Hp as [(pct & _ & Hb' & ->) | [(size & ->) | (msg & ->)]];
      [apply Hquiet, Hb' | apply Hdone | apply Herr].
Qed.

Lemma record_ok_stamped (j : string) (now : Z) (job : Job) :
  record_ok j job -> record_ok j (stamped now job).
Proof. intros H. exact H. Qed.

Lemma step_record_ok j w e :
  tasks_wf w -> job_inv j w ->
  (forall job, jobs w !! j = Some job -> record_ok j job) ->
  (forall req, e = PostStart j req -> history j w = []) ->
  forall job, jobs (step w e) !! j = Some job -> record_ok j job.
Proof.
  intros Hwf Hinv HP Hfresh job' Hj'.
  pose proof (step_record_update j w e Hwf) as H. rewrite Hj' in H.
  destruct H as [E | [(req & upload & -> & Hfile & E) | [(t & patch & Ht & Hp & E)
                | (now & job0 & -> & Hj & [[_ E] | [_ E]])]]];
    try discriminate.
  - apply HP. congruence.
  - injection E as ->.
    assert (Hnone : jobs w !! j = None).
    { destruct Hinv as (_ & _ & Hsync). unfold view in Hsync; cbn in Hsync.
      rewrite (Hfresh req eq_refl) in Hsync. apply Hsync. }
    rewrite Hnone. apply record_ok_started.
  - injection E as ->.
    destruct (view_inv_suspended _ t Hinv Ht) as (r0 & job & _ & Hj & (Hs & _) & _ & Hrun).
    cbn [view v_job] in Hj. rewrite Hj.
    change (default emptyJob (Some job)) with job.
    eapply record_ok_patched; [exact Hp | apply HP, Hj | congruence].
  - injection E as ->. apply record_ok_stamped, HP, Hj.
Qed.

(** Every record in the registry of a reachable world is well formed. *)
Lemma reachable_record_ok j (events : list Event) (job : Job) :
  NoDup (post_ids events) ->
  jobs (run_events events emptyWorld) !! j = Some job -> record_ok j job.
Proof.
  intros Hnd.
  apply (run_invariant j (fun w => forall job, jobs w !! j = Some job -> record_ok j job)).
  - intros w e Hwf Hinv HP Hfresh. apply step_record_ok; assumption.
  - apply tasks_wf_empty.
  - apply job_inv_emptyWorld.
  - intros job0 H. cbn in H. rewrite lookup_empty in H. discriminate.
  - exact Hnd.
  - reflexivity.
Qed.

(** X17.  In every run whose requests get distinct identifiers, each record
    in the registry has a status, a percent in [0, 100], a message, the
    input path and the output path [/tmp/navine/out-<id>.mp4]; it has
    [outputBytes] exactly when it is [done] (then at 100%) and [error]
    exactly when it is [error] (then at 0%), never both. *)
Theorem registry_records_are_well_formed (events : list Event) (jobId : string) (job : Job) :
  NoDup (post_ids events) ->
  jobs (run_events events emptyWorld) !! jobId = Some job ->
  is_Some (status job) /\
  (exists p, percent job = Some p /\ (0 <= p <= 100)%Q) /\
  is_Some (message job) /\
  is_Some (inputPath job) /\
  outputPath job = Some ("/tmp/navine/out-" +:+ jobId +:+ ".mp4") /\
  (is_Some (outputBytes job) <-> status job = Some Done) /\
  (is_Some (error job) <-> status job = Some Error) /\
  (status job = Some Done -> percent job = Some 100%Q) /\
  (status job = Some Error -> percent job = Some 0%Q) /\
  ~ (is_Some (outputBytes job) /\ is_Some (error job)).
Proof.
  intros Hnd Hj.
  destruct (reachable_record_ok jobId events job Hnd Hj)
    as (Hs & Hp & Hm & Hi & Ho & Hb & He & Hd & Her).
  repeat (split; [assumption |]).
  intros [H1 H2]. apply Hb in H1. apply He in H2. congruence.
Qed.

(** X18.  In every run whose requests get distinct identifiers, the
    progress route answers for a job in the registry with the name of one of
    the four statuses, a percent in [0, 100], [outputMB] only when the job is
    [done] and [error] exactly when it is [error]; and the download route
    sends a file only for a [done] job, namely
    [/tmp/navine/out-<id>.mp4] under the name [navine-<id>.mp4]. *)
Theorem routes_on_reachable_registry (events : list Event) (jobId : string) (job : Job) :
  NoDup (post_ids events) ->
  let w := run_events events emptyWorld in
  jobs w !! jobId = Some job ->
  (exists s p m mb,
     get_progress w jobId = Json 200 (BodyProgress (Some (status_name s)) p m (error job) mb) /\
     status job = Some s /\ (0 <= p <= 100)%Q /\
     (is_Some mb -> s = Done) /\ (is_Some (error job) <-> s = Error)) /\
  (status job = Some Done ->
     get_download w jobId =
     Download ("/tmp/navine/out-" +:+ jobId +:+ ".mp4") ("navine-" +:+ jobId +:+ ".mp4")) /\
  (status job <> Some Done -> get_download w jobId = Send 409 "Not ready.").
Proof.
  intros Hnd w Hj.
  destruct (reachable_record_ok jobId events job Hnd Hj)
    as ([s Hs] & (p & Hp & Hpb) & [m Hm] & Hi & Ho & Hb & He & _).
  unfold get_progress, get_download. rewrite Hj, Hs, Hp, Hm, Ho. cbn.
  split; [| split].
  - eexists s, p, m, _. split; [reflexivity |]. split; [reflexivity |].
    split; [exact Hpb |]. split.
    + intros Hmb. destruct (outputBytes job) as [b|] eqn:Hbytes.
      * assert (is_Some (Some b)) as H by (eexists; reflexivity).
        apply Hb in H. congruence.
      * destruct Hmb as [x Hx]. discriminate.
    + rewrite He, Hs. split; [intros [= ->]; reflexivity | intros ->; reflexivity].
  - intros [= ->]. reflexivity.
  - intros Hne. destruct s; try reflexivity. congruence.
Qed.
End RecordInvariants.

(** ** The plan of a running pass *)

Section PlanInvariants.
Context {rt : Runtime}.
Implicit Types (j k : string) (w : World).
Local Open Scope Q_scope.

Lemma parseDurationSeconds_nonneg (probe : Probe) : 0 <= parseDurationSeconds probe.
Proof.
  unfold parseDurationSeconds, finite_positive_or_zero.
  destruct (Number _) as [| | |q]; try discriminate.
  destruct (Qlt_bool 0 q) eqn:E; [| discriminate].
  apply Qlt_bool_iff in E. lra.
Qed.

Lemma planned_insert (w w' : World) k t :
  (forall k t, tasks w !! k = Some t -> task_planned t) -> task_planned t ->
  tasks w' = <[k := t]> (tasks w) ->
  forall k t, tasks w' !! k = Some t -> task_planned t.
Proof.
  intros Hall Ht E k' t'. rewrite E. intros H.
  apply lookup_insert_Some in H as [[<- <-] | [_ H]]; [exact Ht | eapply Hall, H].
Qed.

Lemma planned_delete (w w' : World) k :
  (forall k t, tasks w !! k = Some t -> task_planned t) ->
  tasks w' = delete k (tasks w) ->
  forall k t, tasks w' !! k = Some t -> task_planned t.
Proof.
  intros Hall E k' t'. rewrite E. intros H.
  apply lookup_delete_Some in H as [_ H]. eapply Hall, H.
Qed.

Lemma planned_same (w w' : World) :
  (forall k t, tasks w !! k = Some t -> task_planned t) ->
  tasks w' = tasks w ->
  forall k t, tasks w' !! k = Some t -> task_planned t.
Proof. intros Hall E k' t'. rewrite E. apply Hall. Qed.

Lemma feed_keeps_parser p d w :
  0 <= lastPct p <= 100 ->
  parser_durationSec (feed p d w).1 = parser_durationSec p /\
  0 <= lastPct (feed p d w).1 <= 100.
Proof.
  intros Hp.
  destruct (feed_cases p d w) as [-> | (m & pct & _ & _ & _ & _ & Hb & ->)]; cbn; auto.
Qed.

Lemma step_tasks_planned w e :
  (forall k t, tasks w !! k = Some t -> task_planned t) ->
  forall k t, tasks (step w e) !! k = Some t -> task_planned t.
Proof.
  intros Hall. destruct e as [k req|k d|k d|k code|path size|now|i]; cbn [step].
  - unfold post_start. destruct (req_file req).
    + eapply planned_insert; [exact Hall | | reflexivity]. exact I.
    + eapply planned_same; [exact Hall | reflexivity].
  - unfold on_stdout. destruct (tasks w !! k) as [t|] eqn:Ht; [| exact Hall].
    destruct t; try exact Hall.
    eapply planned_insert; [exact Hall | | reflexivity]. exact I.
  - unfold on_stderr. destruct (tasks w !! k) as [t|] eqn:Ht; [| exact Hall].
    pose proof (Hall k t Ht) as Hk.
    destruct t as [a s|a o s|a plan s p|a plan s p].
    + eapply planned_insert; [exact Hall | | reflexivity]. exact I.
    + eapply planned_insert; [exact Hall | | reflexivity]. exact I.
    + destruct Hk as (Hd & Hpd & Hl).
      pose proof (tasks_feed p d w) as Et. destruct (feed_keeps_parser p d w Hl) as [E1 E2].
      destruct (feed p d w) as [p' w']. cbn [fst snd] in *.
      eapply planned_insert; [exact Hall | | cbn; rewrite Et; reflexivity].
      cbn. repeat split; try apply E2; [exact Hd | congruence].
    + destruct Hk as (Hd & Hpd & Hl).
      pose proof (tasks_feed p d w) as Et. destruct (feed_keeps_parser p d w Hl) as [E1 E2].
      destruct (feed p d w) as [p' w']. cbn [fst snd] in *.
      eapply planned_insert; [exact Hall | | cbn; rewrite Et; reflexivity].
      cbn. repeat split; try apply E2; [exact Hd | congruence].
  - unfold on_close. destruct (tasks w !! k) as [t|] eqn:Ht; [| exact Hall].
    pose proof (Hall k t Ht) as Hk.
    destruct t as [a s|a o s|a plan s p|a plan s p];
      destruct (exit_ok code);
      try (eapply planned_delete; [exact Hall | reflexivity]).
    + eapply planned_insert; [exact Hall | | reflexivity]. exact I.
    + destruct (JSON_parse o) as [msg|probe];
        [eapply planned_delete; [exact Hall | reflexivity] |].
      unfold after_probe. destruct (Qeq_bool (parseDurationSeconds probe) 0) eqn:E0.
      * eapply planned_delete; [exact Hall | reflexivity].
      * eapply planned_insert; [exact Hall | | reflexivity].
        cbn. split; [| split; [reflexivity | split; discriminate]].
        pose proof (parseDurationSeconds_nonneg probe) as H0.
        apply Qle_lt_or_eq in H0 as [H0 | H0]; [exact H0 |].
        symmetry in H0. apply Qeq_bool_iff in H0. congruence.
    + unfold after_pass1. destruct Hk as (Hd & Hpd & Hl).
      eapply planned_insert; [exact Hall | | reflexivity].
      cbn. repeat split; try discriminate. exact Hd.
    + unfold after_pass2. destruct (files w !! _);
        (eapply planned_delete; [exact Hall | reflexivity]).
  - eapply planned_same; [exact Hall | reflexivity].
  - eapply planned_same; [exact Hall | apply tasks_cleanup].
  - eapply planned_same; [exact Hall | reflexivity].
Qed.

(** X19.  In every run, a job whose handler awaits one of the two passes
    has a plan with a positive duration, and its progress parser was made
    with that duration and has last published a percent in [0, 100]: the
    parser never divides by zero. *)
Theorem running_pass_is_planned (events : list Event) (jobId : string) (t : Task) :
  tasks (run_events events emptyWorld) !! jobId = Some t ->
  match t with
  | AwaitPass1 a plan _ p | AwaitPass2 a plan _ p =>
      0 < plan_durationSec plan /\
      parser_durationSec p = plan_durationSec plan /\
      0 <= lastPct p <= 100
  | _ => True
  end.
Proof.
  assert (H : forall w,
            (forall k t, tasks w !! k = Some t -> task_planned t) ->
            forall k t, tasks (run_events events w) !! k = Some t -> task_planned t).
  { induction events as [|e events IH]; intros w Hall; [exact Hall |].
    rewrite run_events_cons. apply IH, step_tasks_planned, Hall. }
  intros Ht. apply (H emptyWorld) in Ht; [exact Ht |].
  intros k t' Hk. cbn in Hk. rewrite lookup_empty in Hk. discriminate.
Qed.
End PlanInvariants.

Lemma running_pass_is_planned_witness :
  exists t,
    tasks (run_events (rt := sampleRuntime) pass1_to_90_events emptyWorld) !! "j1" = Some t /\
    match t with
    | AwaitPass1 a plan _ p | AwaitPass2 a plan _ p =>
        (0 < plan_durationSec plan)%Q /\
        parser_durationSec p = plan_durationSec plan /\
        (0 <= lastPct p <= 100)%Q
    | _ => True
    end.
Proof.
  destruct (tasks (run_events (rt := sampleRuntime) pass1_to_90_events emptyWorld) !! "j1")
    as [t|] eqn:E.
  - exists t. split; [reflexivity |].
    apply (running_pass_is_planned (rt := sampleRuntime) pass1_to_90_events "j1" t E).
  - vm_compute in E. discriminate.
Defined.

(** ** The cleanup, continued *)

Section CleanupMore.
Context {rt : Runtime}.
Implicit Types (j k : string) (w : World).

(** X20.  A cleanup run removes a record exactly when the job is [done] or
    [error] and an earlier run has stamped it more than 30 minutes before;
    otherwise the record stays, with [createdAt] set to the time of this run
    if it was not set.  So no job is removed by the run that first sees it,
    and none within 30 minutes of that run. *)
Theorem cleanup_removes_exactly_expired (jobId : string) (now : Z) (w : World) (job : Job) :
  jobs w !! jobId = Some job ->
  (jobs (cleanup now w) !! jobId = None <->
     is_terminal (status job) = true /\
     exists seen, createdAt job = Some seen /\ seen <> 0 /\ 30 * 60 * 1000 < now - seen) /\
  (jobs (cleanup now w) !! jobId <> None ->
     exists seen,
       jobs (cleanup now w) !! jobId =
         Some (mkJob (status job) (percent job) (message job) (inputPath job)
                     (outputPath job) (outputBytes job) (error job) (Some seen)) /\
       (createdAt job = Some seen \/
        (seen = now /\ (createdAt job = None \/ createdAt job = Some 0)))).
Proof.
  intros Hj. pose proof (view_cleanup jobId now w) as E. rewrite Hj in E.
  assert (Hdue : purge_due now job = true <->
                 is_terminal (status job) = true /\
                 exists seen, createdAt job = Some seen /\ seen <> 0 /\
                              30 * 60 * 1000 < now - seen).
  { unfold purge_due, anchor. rewrite andb_true_iff, Z.ltb_lt.
    change TTL_MS with (30 * 60 * 1000).
    destruct (createdAt job) as [c|].
    - destruct (c =? 0) eqn:Ec.
      + apply Z.eqb_eq in Ec. subst c. split.
        * intros [_ H]. lia.
        * intros [_ (seen & [= <-] & Hne & _)]. contradiction.
      + apply Z.eqb_neq in Ec. split.
        * intros [Ht H]. split; [exact Ht |]. exists c. auto.
        * intros [Ht (seen & [= <-] & _ & H)]. auto.
    - split.
      + intros [_ H]. lia.
      + intros [_ (seen & [=] & _)]. }
  destruct (purge_due now job) eqn:Hp;
    apply (f_equal v_job) in E; cbn [v_job view] in E; rewrite E.
  - split; [| intros H; contradiction].
    split; [intros _; apply Hdue; reflexivity | reflexivity].
  - split.
    + split; [discriminate |]. intros H. apply Hdue in H. discriminate.
    + intros _. exists (anchor now job). split; [reflexivity |].
      unfold anchor. destruct (createdAt job) as [c|]; [| auto].
      destruct (c =? 0) eqn:Ec; [| auto].
      apply Z.eqb_eq in Ec. subst c. auto.
Qed.

Lemma files_cleanup_entry (now : Z) w (k : string) (job : Job) :
  files (cleanup_entry now w (k, job)) =
  if purge_due now job
  then match outputPath job with
       | Some p => if String.eqb p "" then files w else delete p (files w)
       | None => files w
       end
  else files w.
Proof.
  unfold cleanup_entry, purge_due, anchor.
  destruct (createdAt job) as [c|]; [destruct (c =? 0) |];
    destruct (is_terminal (status job) && _); try reflexivity;
    destruct (outputPath job) as [p|]; try reflexivity;
    destruct (String.eqb p ""); reflexivity.
Qed.

Lemma files_cleanup_fold_changed (now : Z) (l : list (string * Job)) w (path : string) :
  files (fold_left (cleanup_entry now) l w) !! path <> files w !! path ->
  exists k job, (k, job) ∈ l /\ purge_due now job = true /\ outputPath job = Some path.
Proof.
  revert w. induction l as [|[k job] l IH]; intros w H; cbn [fold_left] in H;
    [contradiction |].
  destruct (decide (files (cleanup_entry now w (k, job)) !! path = files w !! path))
    as [E | E].
  - rewrite <- E in H. destruct (IH _ H) as (k' & job' & Hin & Hd & Ho).
    exists k', job'. split; [apply elem_of_cons; right; exact Hin | auto].
  - exists k, job. split; [apply elem_of_cons; left; reflexivity |].
    rewrite files_cleanup_entry in E.
    destruct (purge_due now job); [| contradiction]. split; [reflexivity |].
    destruct (outputPath job) as [p|]; [| contradiction].
    destruct (String.eqb p ""); [contradiction |].
    destruct (decide (p = path)) as [->|Hne]; [reflexivity |].
    rewrite lookup_delete_ne in E by exact Hne. contradiction.
Qed.

Lemma files_cleanup_fold_gone (now : Z) (l : list (string * Job)) w (path : string) :
  files w !! path = None -> files (fold_left (cleanup_entry now) l w) !! path = None.
Proof.
  revert w. induction l as [|[k job] l IH]; intros w H; cbn [fold_left]; [exact H |].
  apply IH. rewrite files_cleanup_entry.
  destruct (purge_due now job); [| exact H].
  destruct (outputPath job) as [p|]; [| exact H].
  destruct (String.eqb p ""); [exact H |].
  destruct (decide (p = path)) as [->|Hne];
    [apply lookup_delete_eq | rewrite lookup_delete_ne by exact Hne; exact H].
Qed.

Lemma files_cleanup_fold_purged (now : Z) (l : list (string * Job)) w
    (k : string) (job : Job) (path : string) :
  (k, job) ∈ l -> purge_due now job = true -> outputPath job = Some path ->
  path <> ""%string ->
  files (fold_left (cleanup_entry now) l w) !! path = None.
Proof.
  revert w. induction l as [|[k' job'] l IH]; intros w Hin Hd Ho Hne; cbn [fold_left].
  - apply elem_of_nil in Hin. contradiction.
  - apply elem_of_cons in Hin as [[= <- <-] | Hin].
    + apply files_cleanup_fold_gone. rewrite files_cleanup_entry, Hd, Ho.
      apply String.eqb_neq in Hne. rewrite Hne. apply lookup_delete_eq.
    + apply IH; assumption.
Qed.

(** X21.  A cleanup run deletes the output file of every job it removes, and
    touches no other file: a path whose entry in the file system changes is
    the [outputPath] of a terminal job whose purge was due. *)
Theorem cleanup_deletes_only_expired_outputs (now : Z) (w : World) (path : string) :
  (forall jobId job,
     jobs w !! jobId = Some job -> jobs (cleanup now w) !! jobId = None ->
     outputPath job = Some path -> path <> ""%string ->
     files (cleanup now w) !! path = None) /\
  (files (cleanup now w) !! path <> files w !! path ->
   exists jobId job,
     jobs w !! jobId = Some job /\ jobs (cleanup now w) !! jobId = None /\
     is_terminal (status job) = true /\ outputPath job = Some path).
Proof.
  assert (Hgone : forall jobId job,
            jobs w !! jobId = Some job ->
            (jobs (cleanup now w) !! jobId = None <-> purge_due now job = true)).
  { intros jobId job Hj. pose proof (view_cleanup jobId now w) as E. rewrite Hj in E.
    destruct (purge_due now job); apply (f_equal v_job) in E; cbn [v_job view] in E;
      rewrite E; split; congruence. }
  split.
  - intros jobId job Hj Hnone Ho Hne. unfold cleanup.
    eapply files_cleanup_fold_purged; [| apply (Hgone _ _ Hj), Hnone | exact Ho | exact Hne].
    apply elem_of_map_to_list, Hj.
  - intros H. unfold cleanup in H.
    apply files_cleanup_fold_changed in H as (k & job & Hin & Hd & Ho).
    apply elem_of_map_to_list in Hin.
    exists k, job. split; [exact Hin |]. split; [apply (Hgone _ _ Hin), Hd |].
    split; [| exact Ho]. unfold purge_due in Hd. apply andb_true_iff in Hd. apply Hd.
Qed.
End CleanupMore.

(** ** A successful encode *)

Section SuccessFacts.
Context {rt : Runtime}.
Implicit Types (j k : string) (w : World).








End SuccessFacts.

(** ** The duration of a report *)

Section DurationFacts.
Context {rt : Runtime}.

(** X23.  [parseDurationSeconds] returns 0 or a positive number, and a
    positive result is exactly what [Number] makes of the report's
    [format.duration], which is then present and truthy. *)
Theorem parseDurationSeconds_zero_or_reported (probe : Probe) :
  parseDurationSeconds probe = 0%Q \/
  ((0 < parseDurationSeconds probe)%Q /\
   exists f,
     format probe = Some f /\ truthy (duration f) = true /\
     Number (duration f) = Fin (parseDurationSeconds probe)).
Proof.
  unfold parseDurationSeconds, format_duration, or_0.
  destruct (format probe) as [f|]; [| left; reflexivity].
  destruct (truthy (duration f)) eqn:Ht; [| left; reflexivity].
  destruct (Number (duration f)) as [| | |q] eqn:Hn; try (left; reflexivity).
  cbn [finite_positive_or_zero].
  destruct (Qlt_bool 0 q) eqn:Hq; [| left; reflexivity].
  right. split; [apply Qlt_bool_iff, Hq |].
  exists f. split; [reflexivity |]. split; [exact Ht | exact Hn].
Qed.
End DurationFacts.

(** ** The sample runs, continued *)

Lemma run_tasks_wf {rt : Runtime} (events : list Event) (w : World) :
  tasks_wf w -> tasks_wf (run_events events w).
Proof.
  revert w. induction events as [|e events IH]; intros w H; [exact H |].
  rewrite run_events_cons. apply IH, step_tasks_wf, H.
Qed.

Lemma in_pass1_task : tasks in_pass1 !! "j1" = Some sample_pass1_task.
Proof. vm_compute. reflexivity. Qed.

Lemma probe_failure_ends_job_witness :
  ends_in_error (start_args "j1" "/tmp/navine/uploads/f00d" sample_request)
    ("ffprobe exited " +:+ code_text (rt := sampleRuntime) (Some 1) +:+ nl +:+
     "f00d: Invalid data found when processing input")
    probe_rejects_upload
    (step (rt := sampleRuntime) probe_rejects_upload (ChildClose "j1" (Some 1))).
Proof.
  apply (proj1 (probe_failure_ends_job (rt := sampleRuntime)
                  (start_args "j1" "/tmp/navine/uploads/f00d" sample_request)
                  (Some 1) probe_rejects_upload)).
  - vm_compute. reflexivity.
  - reflexivity.
Defined.

Lemma encode_failure_reports_stderr_witness :
  exists record,
    jobs (run_events (rt := sampleRuntime)
            (map (data_event "j1") failing_pass_output ++ [ChildClose "j1" (Some 1)])
            in_pass1) !! "j1" = Some record /\
    status record = Some Error /\
    error record =
      Some ("ffmpeg exited " +:+ code_text (rt := sampleRuntime) (Some 1) +:+ nl +:+
            stderr_text "" failing_pass_output).
Proof.
  destruct (encode_failure_reports_stderr (rt := sampleRuntime)
              (start_args "j1" "/tmp/navine/uploads/f00d" sample_request)
              _ _ _ failing_pass_output (Some 1) in_pass1
              (or_introl in_pass1_task) eq_refl)
    as (record & Hj & Hs & _ & _ & He & _).
  exists record. split; [exact Hj |]. split; [exact Hs | exact He].
Defined.

Lemma handler_end_leaves_terminal_record_witness :
  files (step (rt := sampleRuntime) in_pass1 (ChildClose "j1" None))
    !! "/tmp/navine/uploads/f00d" = None /\
  exists record,
    jobs (step (rt := sampleRuntime) in_pass1 (ChildClose "j1" None)) !! "j1" = Some record /\
    status record = Some Error.
Proof.
  destruct (handler_end_leaves_terminal_record (rt := sampleRuntime)
              "j1" sample_pass1_task (ChildClose "j1" None) in_pass1)
    as (Hf & record & Hj & Hcases).
  - apply run_tasks_wf, tasks_wf_empty.
  - exact in_pass1_task.
  - vm_compute. reflexivity.
  - split; [exact Hf |]. exists record. split; [exact Hj |].
    destruct Hcases as [(Hs & _) | (Hs & _)]; [exact Hs |].
    exfalso. vm_compute in Hj. injection Hj as <-. discriminate Hs.
Defined.

Lemma createdAt_is_set_once_witness :
  exists job',
    jobs (step (rt := sampleRuntime) in_pass1 (Tick (minutes 5))) !! "j1" = Some job' /\
    createdAt job' = Some (minutes 5).
Proof.
  destruct (jobs in_pass1 !! "j1") as [job|] eqn:E; [| vm_compute in E; discriminate].
  destruct (jobs (step (rt := sampleRuntime) in_pass1 (Tick (minutes 5))) !! "j1")
    as [job'|] eqn:E'; [| vm_compute in E'; discriminate].
  exists job'. split; [reflexivity |].
  destruct (createdAt_is_set_once (rt := sampleRuntime) "j1" (Tick (minutes 5)) in_pass1
              job job' (run_tasks_wf _ _ tasks_wf_empty) E E') as (_ & H & _).
  apply (H (minutes 5)); [| reflexivity].
  vm_compute in E. injection E as <-. reflexivity.
Defined.

Lemma registry_records_are_well_formed_witness :
  exists job,
    jobs (run_events (rt := sampleRuntime) pass1_to_90_events emptyWorld) !! "j1" = Some job /\
    outputPath job = Some "/tmp/navine/out-j1.mp4"%string /\
    ~ (is_Some (outputBytes job) /\ is_Some (error job)).
Proof.
  destruct (jobs (run_events (rt := sampleRuntime) pass1_to_90_events emptyWorld) !! "j1")
    as [job|] eqn:E; [| vm_compute in E; discriminate].
  exists job. split; [reflexivity |].
  destruct (registry_records_are_well_formed (rt := sampleRuntime)
              pass1_to_90_events "j1" job)
    as (_ & _ & _ & _ & Ho & _ & _ & _ & _ & Hx).
  - apply (bool_decide_unpack _). vm_compute. exact I.
  - exact E.
  - split; [exact Ho | exact Hx].
Defined.

Lemma routes_on_reachable_registry_witness :
  get_download (run_events (rt := sampleRuntime) pass1_to_90_events emptyWorld) "j1" =
  Send 409 "Not ready.".
Proof.
  destruct (jobs (run_events (rt := sampleRuntime) pass1_to_90_events emptyWorld) !! "j1")
    as [job|] eqn:E; [| vm_compute in E; discriminate].
  destruct (routes_on_reachable_registry (rt := sampleRuntime)
              pass1_to_90_events "j1" job) as (_ & _ & H).
  - apply (bool_decide_unpack _). vm_compute. exact I.
  - exact E.
  - apply H. vm_compute in E. injection E as <-. discriminate.
Defined.

Lemma cleanup_removes_exactly_expired_witness :
  jobs (cleanup (minutes 36) done_after_minute_35) !! "j1" = None /\
  jobs (cleanup (minutes 35) done_after_minute_35) !! "j1" <> None.
Proof.
  destruct (jobs done_after_minute_35 !! "j1") as [job|] eqn:E;
    [| vm_compute in E; discriminate].
  destruct (cleanup_removes_exactly_expired "j1" (minutes 36) done_after_minute_35 job E)
    as [[_ Hgone] _].
  destruct (cleanup_removes_exactly_expired "j1" (minutes 35) done_after_minute_35 job E)
    as [[Hkept _] _].
  vm_compute in E. injection E as <-. split.
  - apply Hgone. split; [reflexivity |].
    exists (minutes 5). split; [reflexivity |]. split; [discriminate | reflexivity].
  - intros Hnone. apply Hkept in Hnone as (_ & seen & [= <-] & _ & Hlt).
    vm_compute in Hlt. discriminate.
Defined.

Lemma cleanup_deletes_only_expired_outputs_witness :
  files (cleanup (minutes 36) done_after_minute_35) !! "/tmp/navine/out-j1.mp4" = None.
Proof.
  destruct (jobs done_after_minute_35 !! "j1") as [job|] eqn:E;
    [| vm_compute in E; discriminate].
  apply (proj1 (cleanup_deletes_only_expired_outputs (minutes 36) done_after_minute_35
                  "/tmp/navine/out-j1.mp4") "j1" job E).
  - vm_compute. reflexivity.
  - vm_compute in E. injection E as <-. reflexivity.
  - discriminate.
Defined.


(** * The allocator on binary64 *)

Section Binary64.
Local Abbreviation prec := FloatOps.prec.
Local Abbreviation emax := FloatOps.emax.

Lemma iter_pos_shr_1_nonneg (p : positive) (mrs : shr_record) :
  0 <= shr_m mrs -> 0 <= shr_m (SpecFloat.iter_pos shr_1 p mrs).
Proof.
  assert (H1 : forall mrs, 0 <= shr_m mrs -> 0 <= shr_m (shr_1 mrs)).
  { intros [m r s] H. cbn in *. destruct m as [|[q|q|]|q]; cbn; lia. }
  revert mrs. induction p as [p IH|p IH|]; intros mrs H; cbn.
  - apply IH, IH, H1, H.
  - apply IH, IH, H.
  - apply H1, H.
Qed.

Lemma shr_fexp_nonneg (m e : Z) (l : location) :
  0 <= m -> 0 <= shr_m (shr_fexp prec emax m e l).1.
Proof.
  intros H. unfold shr_fexp, shr.
  assert (H0 : 0 <= shr_m (shr_record_of_loc m l)).
  { destruct l as [|[]]; exact H. }
  destruct (_ - e); cbn [fst]; [exact H0 | | exact H0].
  apply iter_pos_shr_1_nonneg, H0.
Qed.

Lemma round_nearest_even_nonneg (m : Z) (l : location) :
  0 <= m -> 0 <= round_nearest_even m l.
Proof.
  intros H. destruct l as [|[]]; cbn; try lia. destruct (Z.even m); lia.
Qed.

Lemma binary_round_aux_signed (sx : bool) (mx ex : Z) (lx : location) :
  0 <= mx -> signed sx (binary_round_aux prec emax sx mx ex lx).
Proof.
  intros H. unfold binary_round_aux.
  pose proof (shr_fexp_nonneg mx ex lx H) as H1.
  destruct (shr_fexp prec emax mx ex lx) as [mrs' e']. cbn [fst] in H1.
  pose proof (shr_fexp_nonneg _ e' loc_Exact
                (round_nearest_even_nonneg _ (loc_of_shr_record mrs') H1)) as H2.
  destruct (shr_fexp prec emax _ e' loc_Exact) as [mrs'' e'']. cbn [fst] in H2.
  destruct (shr_m mrs'') as [|m|m]; [reflexivity | | lia].
  destruct (e'' <=? _); reflexivity.
Qed.

Lemma binary_normalize_not_nan (m e : Z) (szero : bool) :
  binary_normalize prec emax m e szero <> S754_nan.
Proof.
  unfold binary_normalize, binary_round.
  destruct m as [|p|p]; [discriminate | |];
    destruct (shl_align _ _ _) as [mz ez];
    match goal with |- binary_round_aux _ _ ?s ?m ?e ?l <> _ =>
      pose proof (binary_round_aux_signed s m e l ltac:(lia)) as H;
      destruct (binary_round_aux prec emax s m e l); [discriminate.. | contradiction | discriminate]
    end.
Qed.

Lemma signed_not_nan (b : bool) (f : spec_float) : signed b f -> f <> S754_nan.
Proof. destruct f; [discriminate.. | contradiction | discriminate]. Qed.

(** Products: a signed number times a finite one is signed. *)
Lemma SFmul_finite_signed (sx sy : bool) (x : spec_float) (my : positive) (ey : Z) :
  signed sx x -> signed (xorb sx sy) (SFmul prec emax x (S754_finite sy my ey)).
Proof.
  destruct x as [s|s| |s m e]; cbn; try (intros <-; reflexivity); [contradiction |].
  intros <-. apply binary_round_aux_signed. lia.
Qed.

(** Quotients by a finite number. *)
Lemma SFdiv_finite_not_nan (x : spec_float) (sy : bool) (my : positive) (ey : Z) :
  x <> S754_nan -> SFdiv prec emax x (S754_finite sy my ey) <> S754_nan.
Proof.
  destruct x as [s|s| |s m e]; cbn; try discriminate; [contradiction |].
  intros _. destruct (SFdiv_core_binary _ _ _ _ _ _) as [[mz ez] lz] eqn:E.
  apply (signed_not_nan (xorb s sy)), binary_round_aux_signed.
  unfold SFdiv_core_binary in E.
  destruct (Z.div_eucl _ (Z.pos my)) as [q r] eqn:Ed. injection E as <- _ _.
  match type of Ed with Z.div_eucl ?a _ = _ =>
    assert (Ha : 0 <= a) by (destruct (_ - _ - _); [lia | apply Z.shiftl_nonneg; lia | lia]);
    pose proof (Z.div_pos a (Z.pos my) Ha ltac:(lia)) as Hq;
    unfold Z.div in Hq; rewrite Ed in Hq
  end.
  exact Hq.
Qed.

(** Differences of two non-negative numbers: [NaN] only from
    [Infinity - Infinity]. *)
Lemma SFsub_nonneg_nan (x y : spec_float) :
  signed false x -> signed false y ->
  (SFsub prec emax x y = S754_nan <->
   x = S754_infinity false /\ y = S754_infinity false).
Proof.
  destruct x as [sx|sx| |sx mx ex]; destruct y as [sy|sy| |sy my ey]; cbn;
    try contradiction; intros -> ->; cbn;
    try (split; [discriminate | intros [? ?]; discriminate]);
    try (split; [reflexivity | intros _; reflexivity]).
  - split; [intros _; split; reflexivity | reflexivity].
  - split; [intros H; exfalso; revert H; apply binary_normalize_not_nan
           | intros [? ?]; discriminate].
Qed.

Lemma SFcompare_refl (p : spec_float) : p <> S754_nan -> SFcompare p p = Some Eq.
Proof.
  destruct p as [s|s| |s m e]; cbn; try reflexivity; [destruct s; reflexivity | congruence |].
  intros _. rewrite Z.compare_refl, Pos.compare_cont_refl. destruct s; reflexivity.
Qed.

Lemma SFcompare_antisym (x y : spec_float) :
  SFcompare y x = option_map CompOpp (SFcompare x y).
Proof.
  destruct x as [sx|sx| |sx mx ex]; destruct y as [sy|sy| |sy my ey]; cbn;
    try reflexivity; try (destruct sx; reflexivity); try (destruct sy; reflexivity);
    try (destruct sx, sy; reflexivity).
  rewrite (Z.compare_antisym ex ey).
  pose proof (Pos.compare_cont_antisym mx my Eq) as H. cbn [CompOpp] in H.
  rewrite <- H.
  destruct sx, sy; cbn; try reflexivity;
    destruct (ex ?= ey); cbn; try reflexivity;
    destruct (Pos.compare_cont Eq mx my); reflexivity.
Qed.

Lemma is_nan_Prim2SF (x : float) :
  PrimFloat.is_nan x = true <-> Prim2SF x = S754_nan.
Proof.
  unfold PrimFloat.is_nan. rewrite FloatAxioms.eqb_spec. unfold SFeqb.
  destruct (Prim2SF x) as [s|s| |s m e] eqn:E.
  - split; discriminate.
  - destruct s; split; discriminate.
  - split; reflexivity.
  - rewrite SFcompare_refl by discriminate. split; discriminate.
Qed.

Lemma not_nan_Prim2SF (x : float) :
  PrimFloat.is_nan x = false <-> Prim2SF x <> S754_nan.
Proof.
  pose proof (is_nan_Prim2SF x) as H. destruct (PrimFloat.is_nan x).
  - split; [discriminate | intros Hn; exfalso; apply Hn, H; reflexivity].
  - split; [intros _ E; apply H in E; discriminate | reflexivity].
Qed.

Lemma ltb_leb (x y : float) : (x <? y)%float = true -> (x <=? y)%float = true.
Proof.
  rewrite FloatAxioms.ltb_spec, FloatAxioms.leb_spec. unfold SFltb, SFleb.
  destruct (SFcompare _ _) as [[]|]; congruence.
Qed.

Lemma leb_refl (x : float) : PrimFloat.is_nan x = false -> (x <=? x)%float = true.
Proof.
  intros H. apply not_nan_Prim2SF in H. rewrite FloatAxioms.leb_spec. unfold SFleb.
  rewrite SFcompare_refl by exact H. reflexivity.
Qed.

Lemma not_ltb_leb (x y : float) :
  PrimFloat.is_nan x = false -> PrimFloat.is_nan y = false ->
  (y <? x)%float = false -> (x <=? y)%float = true.
Proof.
  intros Hx Hy. apply not_nan_Prim2SF in Hx, Hy.
  rewrite FloatAxioms.ltb_spec, FloatAxioms.leb_spec. unfold SFltb, SFleb.
  rewrite (SFcompare_antisym (Prim2SF x) (Prim2SF y)).
  destruct (SFcompare (Prim2SF x) (Prim2SF y)) as [[]|] eqn:E; cbn; try congruence.
  exfalso. destruct (Prim2SF x), (Prim2SF y); cbn in E; congruence.
Qed.

(** [Math.max] and [Math.min] of two numbers return one of them, above
    (below) both; with a [NaN] argument they return [NaN]. *)
Lemma Math_max_spec (x y : float) :
  PrimFloat.is_nan x = false -> PrimFloat.is_nan y = false ->
  (Double.Math_max x y = x \/ Double.Math_max x y = y) /\
  (x <=? Double.Math_max x y)%float = true /\
  (y <=? Double.Math_max x y)%float = true.
Proof.
  intros Hx Hy. unfold Double.Math_max. rewrite Hx, Hy. cbn [orb].
  destruct (x <? y)%float eqn:E1;
    [split; [right; reflexivity | split; [apply ltb_leb, E1 | apply leb_refl, Hy]] |].
  destruct (y <? x)%float eqn:E2;
    [split; [left; reflexivity | split; [apply leb_refl, Hx | apply ltb_leb, E2]] |].
  destruct (_ && _);
    (split; [auto | split;
       first [apply leb_refl; assumption | apply not_ltb_leb; assumption]]).
Qed.

Lemma Math_min_spec (x y : float) :
  PrimFloat.is_nan x = false -> PrimFloat.is_nan y = false ->
  (Double.Math_min x y = x \/ Double.Math_min x y = y) /\
  (Double.Math_min x y <=? x)%float = true /\
  (Double.Math_min x y <=? y)%float = true.
Proof.
  intros Hx Hy. unfold Double.Math_min. rewrite Hx, Hy. cbn [orb].
  destruct (x <? y)%float eqn:E1;
    [split; [left; reflexivity | split; [apply leb_refl, Hx | apply ltb_leb, E1]] |].
  destruct (y <? x)%float eqn:E2;
    [split; [right; reflexivity | split; [apply ltb_leb, E2 | apply leb_refl, Hy]] |].
  destruct (_ && _);
    (split; [auto | split;
       first [apply leb_refl; assumption | apply not_ltb_leb; assumption]]).
Qed.

Lemma Math_max_nan (x y : float) :
  PrimFloat.is_nan (Double.Math_max x y) = PrimFloat.is_nan x || PrimFloat.is_nan y.
Proof.
  destruct (PrimFloat.is_nan x) eqn:Hx; [unfold Double.Math_max; rewrite Hx; reflexivity |].
  destruct (PrimFloat.is_nan y) eqn:Hy; [unfold Double.Math_max; rewrite Hx, Hy; reflexivity |].
  destruct (Math_max_spec x y Hx Hy) as [[-> | ->] _]; cbn; assumption.
Qed.

Lemma Math_min_nan (x y : float) :
  PrimFloat.is_nan (Double.Math_min x y) = PrimFloat.is_nan x || PrimFloat.is_nan y.
Proof.
  destruct (PrimFloat.is_nan x) eqn:Hx; [unfold Double.Math_min; rewrite Hx; reflexivity |].
  destruct (PrimFloat.is_nan y) eqn:Hy; [unfold Double.Math_min; rewrite Hx, Hy; reflexivity |].
  destruct (Math_min_spec x y Hx Hy) as [[-> | ->] _]; cbn; assumption.
Qed.

(** [clamp] between two numbers [a <= b]: [NaN] for [NaN], else in [a, b]. *)
Lemma clamp_double (n a b : float) :
  PrimFloat.is_nan a = false -> PrimFloat.is_nan b = false -> (a <=? b)%float = true ->
  PrimFloat.is_nan (Double.clamp n a b) = PrimFloat.is_nan n /\
  (PrimFloat.is_nan n = false ->
   (a <=? Double.clamp n a b)%float = true /\ (Double.clamp n a b <=? b)%float = true).
Proof.
  intros Ha Hb Hab. unfold Double.clamp. split.
  - rewrite Math_max_nan, Math_min_nan, Ha, Hb. reflexivity.
  - intros Hn.
    destruct (Math_min_spec b n Hb Hn) as (Hm & Hmb & _).
    assert (Hmn : PrimFloat.is_nan (Double.Math_min b n) = false)
      by (rewrite Math_min_nan, Hb, Hn; reflexivity).
    destruct (Math_max_spec a _ Ha Hmn) as ([-> | ->] & Hal & _).
    + split; [apply leb_refl, Ha | exact Hab].
    + split; [exact Hal | exact Hmb].
Qed.

Lemma mul_nonneg (x c : float) :
  finite_sf false (Prim2SF c) -> signed false (Prim2SF x) ->
  signed false (Prim2SF (x * c)).
Proof.
  intros Hc Hx. rewrite FloatAxioms.mul_spec.
  destruct (Prim2SF c) as [s|s| |s m e]; try contradiction. cbn in Hc. subst s.
  apply (SFmul_finite_signed false false), Hx.
Qed.

Lemma div_finite_nan (x d : float) (b : bool) :
  finite_sf b (Prim2SF d) -> PrimFloat.is_nan (x / d) = PrimFloat.is_nan x.
Proof.
  intros Hd. destruct (Prim2SF d) as [s|s| |s m e] eqn:E; try contradiction.
  destruct (PrimFloat.is_nan x) eqn:Hx.
  - apply is_nan_Prim2SF. apply is_nan_Prim2SF in Hx.
    rewrite FloatAxioms.div_spec, Hx. reflexivity.
  - apply not_nan_Prim2SF. apply not_nan_Prim2SF in Hx.
    rewrite FloatAxioms.div_spec, E. apply SFdiv_finite_not_nan, Hx.
Qed.

Lemma of_uint63_not_nan (n : PrimInt63.int) : PrimFloat.is_nan (of_uint63 n) = false.
Proof.
  apply not_nan_Prim2SF. rewrite FloatAxioms.of_uint63_spec. apply binary_normalize_not_nan.
Qed.

Lemma opp_nan (x : float) : PrimFloat.is_nan (- x) = PrimFloat.is_nan x.
Proof.
  destruct (PrimFloat.is_nan x) eqn:Hx.
  - apply is_nan_Prim2SF. apply is_nan_Prim2SF in Hx. rewrite FloatAxioms.opp_spec, Hx. reflexivity.
  - apply not_nan_Prim2SF. apply not_nan_Prim2SF in Hx. rewrite FloatAxioms.opp_spec.
    destruct (Prim2SF x); [discriminate.. | contradiction | discriminate].
Qed.

Lemma Math_floor_nan (x : float) :
  PrimFloat.is_nan (Double.Math_floor x) = PrimFloat.is_nan x.
Proof.
  unfold Double.Math_floor. destruct (Prim2SF x) as [s|s| |s m e] eqn:E; try reflexivity.
  destruct (0 <=? e); [reflexivity |].
  assert (Hx : PrimFloat.is_nan x = false) by (apply not_nan_Prim2SF; rewrite E; discriminate).
  rewrite Hx. destruct s; [rewrite opp_nan |]; apply of_uint63_not_nan.
Qed.

Example Math_floor_samples :
  Double.Math_floor 4861.9999999 = 4861%float /\
  Double.Math_floor 4862 = 4862%float /\
  Double.Math_floor 0.5 = 0%float /\
  Double.Math_floor (-0.5) = (-1)%float /\
  Double.Math_floor (-3) = (-3)%float /\
  Double.Math_floor (-3.5) = (-4)%float /\
  Double.Math_floor 9007199254740993.5 = 9007199254740994%float /\
  Double.Math_floor infinity = infinity /\
  PrimFloat.is_nan (Double.Math_floor nan) = true.
Proof. repeat split; vm_compute; reflexivity. Qed.

(** A positive finite number. *)
Lemma positive_finite (x : float) :
  (0 <? x)%float = true -> (x <? infinity)%float = true ->
  finite_sf false (Prim2SF x).
Proof.
  rewrite !FloatAxioms.ltb_spec. unfold SFltb.
  change (Prim2SF 0) with (S754_zero false).
  change (Prim2SF infinity) with (S754_infinity false).
  destruct (Prim2SF x) as [s|s| |s m e]; cbn; try discriminate.
  - destruct s; discriminate.
  - destruct s; [discriminate |]. intros _ _. reflexivity.
Qed.

Lemma finite_signed (b : bool) (f : spec_float) : finite_sf b f -> signed b f.
Proof. destruct f; try contradiction. intros H. exact H. Qed.

Lemma Prim2SF_infinity (x : float) :
  Prim2SF x = S754_infinity false <-> x = infinity.
Proof.
  split; [intros H; apply Prim2SF_inj; rewrite H; reflexivity | intros ->; reflexivity].
Qed.
End Binary64.

(** C1.  On binary64, for positive finite inputs, [computeBitrates]
    evaluates [targetMB * 1024 * 1024 * 8], [audioKbps * 1000 * durationSec],
    the larger of the remainder and [0.70] times the total, and the clamped
    floor of the rate in kbps, each operation rounded.  The video budget and
    the result are [NaN] exactly when the total and the audio bits both
    overflow to [Infinity]; otherwise the video budget is at least the
    (rounded) 70% of the total and the result lies in [200, 50000]. *)
Theorem computeBitrates_allocation_binary64 (targetMB durationSec audioKbps : float) :
  (0 <? targetMB)%float = true -> (targetMB <? infinity)%float = true ->
  (0 <? durationSec)%float = true -> (durationSec <? infinity)%float = true ->
  (0 <? audioKbps)%float = true -> (audioKbps <? infinity)%float = true ->
  let total := Double.totalBits targetMB in
  let audio := Double.audioBits audioKbps durationSec in
  let video := Double.videoBits targetMB durationSec audioKbps in
  let videoKbps := Double.computeBitrates targetMB durationSec audioKbps in
  total = (targetMB * 1024 * 1024 * 8)%float /\
  audio = (audioKbps * 1000 * durationSec)%float /\
  video = Double.Math_max (total - audio) (total * 0.70) /\
  videoKbps =
    Double.clamp (Double.Math_floor (video / durationSec / 1000)) 200 50000 /\
  (PrimFloat.is_nan video = true <-> total = infinity /\ audio = infinity) /\
  (PrimFloat.is_nan videoKbps = true <-> total = infinity /\ audio = infinity) /\
  (PrimFloat.is_nan videoKbps = false ->
   (total * 0.70 <=? video)%float = true /\
   (200 <=? videoKbps)%float = true /\ (videoKbps <=? 50000)%float = true).
Proof.
  intros Ht0 Ht1 Hd0 Hd1 Ha0 Ha1 total audio video videoKbps.
  pose proof (positive_finite _ Ht0 Ht1) as Ht.
  pose proof (positive_finite _ Hd0 Hd1) as Hd.
  pose proof (positive_finite _ Ha0 Ha1) as Ha.
  assert (Stotal : signed false (Prim2SF total)).
  { subst total. unfold Double.totalBits.
    apply mul_nonneg; [vm_compute; reflexivity |].
    apply mul_nonneg; [vm_compute; reflexivity |].
    apply mul_nonneg; [vm_compute; reflexivity |].
    apply finite_signed, Ht. }
  assert (Saudio : signed false (Prim2SF audio)).
  { subst audio. unfold Double.audioBits.
    apply mul_nonneg; [exact Hd |].
    apply mul_nonneg; [vm_compute; reflexivity |].
    apply finite_signed, Ha. }
  assert (Hsub : PrimFloat.is_nan (total - audio) = true <->
                 total = infinity /\ audio = infinity).
  { rewrite is_nan_Prim2SF, FloatAxioms.sub_spec.
    rewrite (SFsub_nonneg_nan _ _ Stotal Saudio), !Prim2SF_infinity. reflexivity. }
  assert (Hshare : forall c, finite_sf false (Prim2SF c) ->
                             PrimFloat.is_nan (total * c) = false).
  { intros c Hc. apply not_nan_Prim2SF, (signed_not_nan false).
    apply mul_nonneg; [exact Hc | exact Stotal]. }
  assert (Hvideo : PrimFloat.is_nan video = PrimFloat.is_nan (total - audio)).
  { subst video. unfold Double.videoBits. fold total audio.
    rewrite Math_max_nan, Hshare by (vm_compute; reflexivity). apply orb_false_r. }
  assert (Hclamp := clamp_double
                      (Double.Math_floor (video / durationSec / 1000)) 200 50000
                      eq_refl eq_refl eq_refl).
  assert (Hfloor : PrimFloat.is_nan (Double.Math_floor (video / durationSec / 1000)) =
                   PrimFloat.is_nan video).
  { rewrite Math_floor_nan.
    rewrite (div_finite_nan _ 1000 false) by (vm_compute; reflexivity).
    apply (div_finite_nan _ _ false Hd). }
  assert (Hkbps : PrimFloat.is_nan videoKbps = PrimFloat.is_nan video).
  { subst videoKbps. unfold Double.computeBitrates. fold video.
    rewrite (proj1 Hclamp). exact Hfloor. }
  split; [reflexivity |]. split; [reflexivity |]. split; [reflexivity |].
  split; [reflexivity |].
  split; [rewrite Hvideo; exact Hsub |].
  split; [rewrite Hkbps, Hvideo; exact Hsub |].
  intros Hn. rewrite Hkbps in Hn. split.
  - subst video. unfold Double.videoBits. fold total audio.
    apply Math_max_spec; [rewrite <- Hvideo; exact Hn | apply Hshare; vm_compute; reflexivity].
  - apply (proj2 Hclamp). rewrite Hfloor. exact Hn.
Qed.

Lemma computeBitrates_allocation_binary64_witness :
  (200 <=? Double.computeBitrates 499 600 128)%float = true /\
  (Double.computeBitrates 499 600 128 <=? 50000)%float = true.
Proof.
  destruct (computeBitrates_allocation_binary64 499 600 128
              eq_refl eq_refl eq_refl eq_refl eq_refl eq_refl)
    as (_ & _ & _ & _ & _ & _ & H).
  apply H. reflexivity.
Defined.

(** The claim as the specification words it fails on the program's numbers:
    when the total and the audio bits both overflow, the video budget and
    the returned bitrate are [NaN], outside [200, 50000]; and rounding makes
    the program return one kbps more than the specification's formula gives
    on the very numbers it was called with. *)
Lemma computeBitrates_overflow_and_rounding :
  ((0 <? 1e308)%float = true /\ (1e308 <? infinity)%float = true /\
   Double.totalBits 1e308 = infinity /\ Double.audioBits 1e308 10 = infinity /\
   PrimFloat.is_nan (Double.videoBits 1e308 10 1e308) = true /\
   PrimFloat.is_nan (Double.computeBitrates 1e308 10 1e308) = true /\
   (200 <=? Double.computeBitrates 1e308 10 1e308)%float = false /\
   (Double.computeBitrates 1e308 10 1e308 <=? 50000)%float = false) /\
  (Double.computeBitrates 499 838.8608 128 = 4862%float /\
   exists targetMB durationSec audioKbps videoKbps : Q,
     Double.value 499 = Some targetMB /\
     Double.value 838.8608 = Some durationSec /\
     Double.value 128 = Some audioKbps /\
     Double.value (Double.computeBitrates 499 838.8608 128) = Some videoKbps /\
     (videoKbps == 4862)%Q /\
     (spec_videoKbps targetMB durationSec audioKbps == 4861)%Q).
Proof.
  split.
  - repeat split; vm_compute; reflexivity.
  - split; [vm_compute; reflexivity |].
    eexists _, _, _, _.
    split; [vm_compute; reflexivity |]. split; [vm_compute; reflexivity |].
    split; [vm_compute; reflexivity |]. split; [vm_compute; reflexivity |].
    split; vm_compute; reflexivity.
Qed.
